(** * PixelProof: the Figma integration subsystem

    A shallow embedding of the Figma-facing core of PixelProof (the
    symmetric cipher of [lib/crypto.ts], the Figma API client, the frame
    picker route [api/figma/frames/route.ts] and the baseline snapshot
    builder), with the properties its specification states.

    Conventions of the embedding.
    - A JavaScript [number] read from JSON is a rational [Q], the value
      of the binary64 number; the result of a multiplication is rounded
      to binary64 ([Js.binary64]).  [Math.round] is [floor (x + 1/2)].
    - Text that the program only compares, concatenates or uses as a key
      (node names, ids, messages) is a [string].  Text that reaches the
      cipher is a list of UTF-16 code units ([JsString]), because the
      UTF-8 conversion done by the cipher is observable there.
    - [x || d] on a string takes [d] when [x] is empty; an [undefined]
      or [null] optional field is [None].
    - Asynchronous code is written in a state-and-exception monad over a
      [World] (database, clock, random source, HTTP peers).  What other
      requests commit lands between the database calls, also inside a
      transaction.  The two requests of a [Promise.all] are run one after
      the other; the statements about a build name the file and the
      variables that [fetchFigmaVariablesAndStyles] returned and do not
      depend on that order.
    - The engine bounds the number of arguments of a call: the bound is
      [spreadLimit] of the host, by depth of the recursion.

    The first part of the file is the embedding, module by module of the
    program, followed by the notions the statements use and by a concrete
    host; the second part holds the properties. *)

From Stdlib Require Import ZArith QArith Qround Qabs Qpower Lqa.
From Stdlib Require Import List String Ascii Bool Lia.
From Stdlib Require Import HexString DecimalString.
From Stdlib Require Import Strings.Byte.
From stdpp Require Import base gmap strings list.

Local Open Scope string_scope.
Local Open Scope list_scope.
Local Open Scope Z_scope.

(** ** JavaScript primitives *)

Module Js.

(** [a || b] on strings: the empty string is falsy. *)
Definition or_else (a b : string) : string :=
  if String.eqb a "" then b else a.

(** [x > 0] on numbers. *)
Definition Qltb (a b : Q) : bool := negb (Qle_bool b a).

(** [Math.round]: the nearest integer, halves towards plus infinity. *)
Definition Math_round (q : Q) : Z := Qfloor (q + (1 # 2)).

(** A number that may have left the rationals: the result of a coercion
    ([NaN]) or of an overflow. *)
Inductive JsNumber := Finite (q : Q) | PosInf | NegInf | NaN.

(** The integral numbers [Math.round] returns. *)
Inductive JsInteger := IntVal (z : Z) | IPosInf | INegInf | INaN.

Definition Math_round_num (n : JsNumber) : JsInteger :=
  match n with
  | Finite q => IntVal (Math_round q)
  | PosInf => IPosInf
  | NegInf => INegInf
  | NaN => INaN
  end.

(** The integer nearest to [q], a tie going to the even one. *)
Definition roundHalfEven (q : Q) : Z :=
  let f := Qfloor q in
  match (q - inject_Z f ?= 1 # 2)%Q with
  | Lt => f
  | Gt => f + 1
  | Eq => if Z.even f then f else f + 1
  end.

(** [floor (log2 q)] for [q > 0]. *)
Definition Qlog2 (q : Q) : Z :=
  let l := Z.log2 (Qnum q) - Z.log2 (Zpos (Qden q)) in
  if Qle_bool (2 ^ l) q then l else l - 1.

(** The weight of the last binary digit that binary64 keeps for a number
    of magnitude [q > 0]: 53 significant digits, and none below 2^-1074. *)
Definition lastDigit (q : Q) : Z := Z.max (Qlog2 q - 52) (-1074).

(** [q] rounded to the nearest multiple of the weight of its last digit,
    ties to even: the binary64 number nearest to [q] when there is no
    overflow. *)
Definition round64 (q : Q) : Q :=
  if Qeq_bool q 0 then 0
  else let e := lastDigit (Qabs q) in
       (inject_Z (roundHalfEven (q / 2 ^ e)) * 2 ^ e)%Q.

(** The binary64 result of an operation whose exact result is [q]. *)
Definition binary64 (q : Q) : JsNumber :=
  let r := round64 q in
  if Qle_bool (2 ^ 1024) r then PosInf
  else if Qle_bool r (- 2 ^ 1024) then NegInf
  else Finite r.

(** [n * k] for a rational [k > 0]. *)
Definition times (n : JsNumber) (k : Q) : JsNumber :=
  match n with
  | Finite q => binary64 (q * k)
  | other => other
  end.

(** [s.toLowerCase()].  Only A-Z are mapped: no other character lowers to
    an ASCII letter that is followed by another ASCII letter, so the tests
    for ASCII words made below see what the Unicode mapping would show. *)
Definition lower_ascii (c : ascii) : ascii :=
  let n := nat_of_ascii c in
  if ((65 <=? n) && (n <=? 90))%nat then ascii_of_nat (n + 32) else c.

Fixpoint toLowerCase (s : string) : string :=
  match s with
  | EmptyString => EmptyString
  | String c rest => String (lower_ascii c) (toLowerCase rest)
  end.

(** [s.includes(sub)] *)
Fixpoint includes (s sub : string) : bool :=
  String.prefix sub s ||
  match s with
  | EmptyString => false
  | String _ rest => includes rest sub
  end.

(** [n.toString(16)] for an integer [n]. *)
Definition toString16 (z : Z) : string :=
  match z with
  | Z0 => "0"
  | Zpos p => HexString.Raw.of_pos p ""
  | Zneg p => "-" ++ HexString.Raw.of_pos p ""
  end.

(** [o[k] = v] on an object created by a literal.  The key ["__proto__"]
    reaches the accessor of [Object.prototype] and creates no own property. *)
Definition obj_set {V} (o : gmap string V) (k : string) (v : V) : gmap string V :=
  if String.eqb k "__proto__" then o else <[k := v]> o.

End Js.

(** ** The Figma document model ([FigmaNode], [FigmaBoundingBox]) *)

Record FigmaBoundingBox := mkBBox {
  bbox_x : Q;
  bbox_y : Q;
  width : Q;
  height : Q
}.

(** [children?: FigmaNode[]] and [absoluteBoundingBox?] are optional. *)
#[warnings="-register-all"]
Inductive FigmaNode := mkFigmaNode {
  node_id : string;
  node_name : string;
  node_type : string;
  children : option (list FigmaNode);
  absoluteBoundingBox : option FigmaBoundingBox
}.

(** ** Frame picker: [api/figma/frames/route.ts] *)

Record FrameSummary := mkFrameSummary {
  fs_id : string;
  fs_name : string;
  fs_pageName : string;
  fs_width : Z;
  fs_height : Z;
  fs_depth : nat
}.

Definition MAX_TRAVERSAL_DEPTH : nat := 10.
Definition MAX_FRAMES : nat := 500.

(** [collectFrames(node, pageName, depth, frames)].  The accumulator array
    is shared by all recursive calls and mutated by [push]; here it is
    threaded through.  The inner [fix] is the [for ... of node.children]
    loop with its [break]. *)
Fixpoint collectFrames (node : FigmaNode) (pageName : string) (depth : nat)
    (frames : list FrameSummary) : list FrameSummary :=
  if (MAX_TRAVERSAL_DEPTH <? depth)%nat then frames
  else if (MAX_FRAMES <=? length frames)%nat then frames
  else
    let frames :=
      if String.eqb (node_type node) "FRAME" then
        match absoluteBoundingBox node with
        | Some boundingBox =>
            if Js.Qltb 0 (width boundingBox) && Js.Qltb 0 (height boundingBox)
            then frames ++ [ {| fs_id := node_id node;
                                fs_name := Js.or_else (node_name node) "Unnamed Frame";
                                fs_pageName := pageName;
                                fs_width := Js.Math_round (width boundingBox);
                                fs_height := Js.Math_round (height boundingBox);
                                fs_depth := depth |} ]
            else frames
        | None => frames
        end
      else frames in
    match children node with
    | Some cs =>
        (fix loop (cs : list FigmaNode) (frames : list FrameSummary) :=
           match cs with
           | [] => frames
           | child :: rest =>
               if (MAX_FRAMES <=? length frames)%nat then frames
               else loop rest (collectFrames child pageName (depth + 1) frames)
           end) cs frames
    | None => frames
    end.

(** [extractFramesFromDocument(document)]: the loop over the pages. *)
Fixpoint extractPages (pages : list FigmaNode) (frames : list FrameSummary)
    : list FrameSummary :=
  match pages with
  | [] => frames
  | page :: rest =>
      if (MAX_FRAMES <=? length frames)%nat then frames
      else
        let pageName := Js.or_else (node_name page) "Unnamed Page" in
        if negb (String.eqb (node_type page) "CANVAS") then extractPages rest frames
        else extractPages rest (collectFrames page pageName 0 frames)
  end.

Definition extractFramesFromDocument (document : FigmaNode) : list FrameSummary :=
  match children document with
  | None => []
  | Some pages => extractPages pages []
  end.

(** *** Reasoning about the traversal *)

(** The children loop of [collectFrames], named. [depth] is the depth of
    the children. *)
Fixpoint collectChildren (pageName : string) (depth : nat)
    (cs : list FigmaNode) (frames : list FrameSummary) : list FrameSummary :=
  match cs with
  | [] => frames
  | child :: rest =>
      if (MAX_FRAMES <=? length frames)%nat then frames
      else collectChildren pageName depth rest (collectFrames child pageName depth frames)
  end.

(** The condition of lines 64-68: the node is a frame with a bounding box
    of strictly positive width and height. *)
Definition qualifies (node : FigmaNode) : Prop :=
  node_type node = "FRAME" /\
  exists b, absoluteBoundingBox node = Some b /\ (0 < width b)%Q /\ (0 < height b)%Q.

(** The summary pushed for a qualifying node (lines 69-76). *)
Definition summaryOf (node : FigmaNode) (pageName : string) (depth : nat)
    : FrameSummary :=
  {| fs_id := node_id node;
     fs_name := Js.or_else (node_name node) "Unnamed Frame";
     fs_pageName := pageName;
     fs_width := match absoluteBoundingBox node with
                 | Some b => Js.Math_round (width b) | None => 0 end;
     fs_height := match absoluteBoundingBox node with
                  | Some b => Js.Math_round (height b) | None => 0 end;
     fs_depth := depth |}.

(** What a single node adds: nothing, or its summary. *)
Definition ownFrame (node : FigmaNode) (pageName : string) (depth : nat)
    : list FrameSummary :=
  if String.eqb (node_type node) "FRAME" then
    match absoluteBoundingBox node with
    | Some b => if Js.Qltb 0 (width b) && Js.Qltb 0 (height b)
                then [summaryOf node pageName depth] else []
    | None => []
    end
  else [].

(** The frames of a subtree in document order, cut at the depth ceiling
    only: the listing [collectFrames] takes a prefix of. *)
Fixpoint framesInOrder (node : FigmaNode) (pageName : string) (depth : nat)
    : list FrameSummary :=
  if (MAX_TRAVERSAL_DEPTH <? depth)%nat then []
  else ownFrame node pageName depth ++
       match children node with
       | Some cs => flat_map (fun c => framesInOrder c pageName (depth + 1)) cs
       | None => []
       end.

(** [m] is a node of the tree under [root], [d] levels below it. *)
Inductive nodeAt : FigmaNode -> nat -> FigmaNode -> Prop :=
| nodeAt_here root : nodeAt root 0 root
| nodeAt_below root cs c d m :
    children root = Some cs -> In c cs -> nodeAt c d m -> nodeAt root (S d) m.

(** The frames of a document in page order: the pages that are not of
    type CANVAS are skipped. *)
Definition pageFrames (page : FigmaNode) : list FrameSummary :=
  if negb (String.eqb (node_type page) "CANVAS") then []
  else framesInOrder page (Js.or_else (node_name page) "Unnamed Page") 0.

Definition documentFrames (document : FigmaNode) : list FrameSummary :=
  match children document with
  | None => []
  | Some pages => flat_map pageFrames pages
  end.

(** ** Baseline extraction: [lib/baseline.ts] *)

(** A value read from JSON ([unknown] in the source). *)
#[warnings="-register-all"]
Inductive Json :=
| JNull
| JBool (b : bool)
| JNumber (q : Q)
| JString (s : string)
| JArray (items : list Json)
| JObject (fields : list (string * Json)).

(** [v.k] on a value known to be an object or an array: [None] is
    [undefined].  An array has none of the keys read below. *)
Fixpoint assoc {V} (k : string) (fields : list (string * V)) : option V :=
  match fields with
  | [] => None
  | (k', v) :: rest => if String.eqb k k' then Some v else assoc k rest
  end.

Definition property (v : Json) (k : string) : option Json :=
  match v with
  | JObject fields => assoc k fields
  | _ => None
  end.

(** Truthiness, as [||] tests it. *)
Definition truthy (v : option Json) : bool :=
  match v with
  | None | Some JNull => false
  | Some (JBool b) => b
  | Some (JNumber q) => negb (Qeq_bool q 0)
  | Some (JString s) => negb (String.eqb s "")
  | Some (JArray _) | Some (JObject _) => true
  end.

Inductive ResolvedType := BOOLEAN | FLOAT | STRING | COLOR.
Inductive StyleType := FILL | TEXT | EFFECT | GRID.

Record FigmaVariable := mkFigmaVariable {
  var_id : string;
  var_name : string;
  var_key : string;
  variableCollectionId : string;
  resolvedType : ResolvedType;
  valuesByMode : list (string * Json)   (* in the order of [Object.keys] *)
}.

Record FigmaStyle := mkFigmaStyle {
  style_key : string;
  style_name : string;
  style_description : string;
  styleType : StyleType
}.

Record RgbChannels := mkRgb { rgb_r : Js.JsInteger; rgb_g : Js.JsInteger; rgb_b : Js.JsInteger }.
Record ColorToken := mkColorToken { hex : string; rgb : RgbChannels; opacity : Json }.
Record TypographyToken := mkTypographyToken {
  fontFamily : string; fontSize : Q; fontWeight : Q; lineHeight : Q }.
Record ShadowToken := mkShadowToken {
  shadow_type : string; shadow_color : ColorToken;
  shadow_offset : Q * Q; blur : Q; spread : Q }.

Record Bounds := mkBounds { bounds_x : Z; bounds_y : Z; bounds_width : Z; bounds_height : Z }.
Record FigmaComponent := mkFigmaComponent {
  comp_id : string; comp_name : string; comp_type : string; bounds : Bounds }.

Record ExtractedTokens := mkExtractedTokens {
  typography : gmap string TypographyToken;
  colors : gmap string ColorToken;
  spacing : gmap string Q;
  radii : gmap string Q;
  shadows : gmap string ShadowToken
}.

(** [modeValues[Object.keys(modeValues)[0]]]: [None] when there is no mode. *)
Definition firstModeValue (variable : FigmaVariable) : option Json :=
  match valuesByMode variable with
  | [] => None
  | (_, v) :: _ => Some v
  end.

(** [rgbToHex(r, g, b)] *)
Definition toHex (n : Js.JsInteger) : string :=
  let clamped :=                       (* Math.max(0, Math.min(255, n)) *)
    match n with
    | Js.IntVal z => Some (Z.max 0 (Z.min 255 z))
    | Js.IPosInf => Some 255
    | Js.INegInf => Some 0
    | Js.INaN => None
    end in
  let hex := match clamped with
             | Some z => Js.toString16 z
             | None => "NaN"
             end in
  if (String.length hex =? 1)%nat then "0" ++ hex else hex.

Definition rgbToHex (r g b : Js.JsInteger) : string :=
  "#" ++ toHex r ++ toHex g ++ toHex b.

(** [findNodeById(node, targetId)] *)
Fixpoint findNodeById (node : FigmaNode) (targetId : string) : option FigmaNode :=
  if String.eqb (node_id node) targetId then Some node
  else match children node with
       | Some cs =>
           (fix loop (cs : list FigmaNode) : option FigmaNode :=
              match cs with
              | [] => None
              | child :: rest =>
                  match findNodeById child targetId with
                  | Some found => Some found
                  | None => loop rest
                  end
              end) cs
       | None => None
       end.

Definition isComponentType (t : string) : bool :=
  String.eqb t "COMPONENT" || String.eqb t "INSTANCE" ||
  String.eqb t "FRAME" || String.eqb t "GROUP".

(** The entry pushed by [extractComponentsFromNode] for a node with box [bbox]. *)
Definition componentOf (node : FigmaNode) (bbox : FigmaBoundingBox) : FigmaComponent :=
  {| comp_id := node_id node;
     comp_name := Js.or_else (node_name node) "Unnamed";
     comp_type := node_type node;
     bounds := {| bounds_x := Js.Math_round (bbox_x bbox);
                  bounds_y := Js.Math_round (bbox_y bbox);
                  bounds_width := Js.Math_round (width bbox);
                  bounds_height := Js.Math_round (height bbox) |} |}.

(** ** Strings and bytes as the cipher sees them *)

(** A JavaScript string: its UTF-16 code units. *)
Definition JsString := list Z.

Module Bytes.

Definition to_Z (b : byte) : Z := Z.of_N (Byte.to_N b).

(** The byte of value [z mod 256]. *)
Definition b8 (z : Z) : byte :=
  match Byte.of_N (Z.to_N (z mod 256)) with
  | Some b => b
  | None => x00
  end.

End Bytes.

Module Utf.

Definition isHigh (u : Z) : bool := (0xD800 <=? u) && (u <=? 0xDBFF).
Definition isLow (u : Z) : bool := (0xDC00 <=? u) && (u <=? 0xDFFF).

(** The code points of a string as its UTF-8 conversion reads them: a
    surrogate pair is one code point, a surrogate that has no partner is
    replaced by U+FFFD. *)
Fixpoint toCodePoints (s : JsString) : list Z :=
  match s with
  | [] => []
  | u :: t =>
      match t with
      | lo :: rest =>
          if isHigh u && isLow lo
          then (0x10000 + (u - 0xD800) * 0x400 + (lo - 0xDC00)) :: toCodePoints rest
          else (if isHigh u || isLow u then 0xFFFD else u) :: toCodePoints t
      | [] => [if isHigh u || isLow u then 0xFFFD else u]
      end
  end.

Definition fromCodePoint (c : Z) : JsString :=
  if c <? 0x10000 then [c]
  else [0xD800 + (c - 0x10000) / 0x400; 0xDC00 + (c - 0x10000) mod 0x400].

(** A UTF-16 code unit. *)
Definition isCodeUnit (u : Z) : Prop := 0 <= u <= 0xFFFF.

(** [s.toWellFormed()]: the string with every surrogate that has no
    partner replaced by U+FFFD. *)
Fixpoint toWellFormed (s : JsString) : JsString :=
  match s with
  | [] => []
  | u :: t =>
      match t with
      | lo :: rest =>
          if isHigh u && isLow lo then u :: lo :: toWellFormed rest
          else (if isHigh u || isLow u then 0xFFFD else u) :: toWellFormed t
      | [] => [if isHigh u || isLow u then 0xFFFD else u]
      end
  end.

(** [s.isWellFormed()]: code units in range, every surrogate paired. *)
Fixpoint isWellFormed (s : JsString) : bool :=
  match s with
  | [] => true
  | u :: t =>
      (0 <=? u) && (u <=? 0xFFFF) &&
      if isHigh u then
        match t with
        | lo :: rest => isLow lo && isWellFormed rest
        | [] => false
        end
      else negb (isLow u) && isWellFormed t
  end.

Definition encodeCodePoint (c : Z) : list byte :=
  if c <? 0x80 then [Bytes.b8 c]
  else if c <? 0x800 then
    [Bytes.b8 (0xC0 + c / 64); Bytes.b8 (0x80 + c mod 64)]
  else if c <? 0x10000 then
    [Bytes.b8 (0xE0 + c / 4096); Bytes.b8 (0x80 + (c / 64) mod 64);
     Bytes.b8 (0x80 + c mod 64)]
  else
    [Bytes.b8 (0xF0 + c / 262144); Bytes.b8 (0x80 + (c / 4096) mod 64);
     Bytes.b8 (0x80 + (c / 64) mod 64); Bytes.b8 (0x80 + c mod 64)].

(** [Buffer.from(s, 'utf8')] *)
Definition utf8Encode (s : JsString) : list byte :=
  flat_map encodeCodePoint (toCodePoints s).

Definition cont (b : Z) : bool := (0x80 <=? b) && (b <=? 0xBF).

(** The range of the second byte after the lead byte [c0] of a sequence
    of three, and of four. *)
Definition second3 (c0 b1 : Z) : bool :=
  ((if c0 =? 0xE0 then 0xA0 else 0x80) <=? b1) &&
  (b1 <=? (if c0 =? 0xED then 0x9F else 0xBF)).
Definition second4 (c0 b1 : Z) : bool :=
  ((if c0 =? 0xF0 then 0x90 else 0x80) <=? b1) &&
  (b1 <=? (if c0 =? 0xF4 then 0x8F else 0xBF)).

(** The code points of a byte sequence; an ill-formed part gives U+FFFD. *)
Fixpoint decodeCodePoints (bs : list byte) : list Z :=
  match bs with
  | [] => []
  | b0 :: t0 =>
      let c0 := Bytes.to_Z b0 in
      if c0 <? 0x80 then c0 :: decodeCodePoints t0
      else if (0xC2 <=? c0) && (c0 <=? 0xDF) then
        match t0 with
        | b1 :: t1 =>
            let c1 := Bytes.to_Z b1 in
            if cont c1 then ((c0 - 0xC0) * 64 + (c1 - 0x80)) :: decodeCodePoints t1
            else 0xFFFD :: decodeCodePoints t0
        | [] => [0xFFFD]
        end
      else if (0xE0 <=? c0) && (c0 <=? 0xEF) then
        match t0 with
        | b1 :: t1 =>
            let c1 := Bytes.to_Z b1 in
            if second3 c0 c1 then
              match t1 with
              | b2 :: t2 =>
                  let c2 := Bytes.to_Z b2 in
                  if cont c2
                  then ((c0 - 0xE0) * 4096 + (c1 - 0x80) * 64 + (c2 - 0x80))
                         :: decodeCodePoints t2
                  else 0xFFFD :: decodeCodePoints t1
              | [] => [0xFFFD]
              end
            else 0xFFFD :: decodeCodePoints t0
        | [] => [0xFFFD]
        end
      else if (0xF0 <=? c0) && (c0 <=? 0xF4) then
        match t0 with
        | b1 :: t1 =>
            let c1 := Bytes.to_Z b1 in
            if second4 c0 c1 then
              match t1 with
              | b2 :: t2 =>
                  let c2 := Bytes.to_Z b2 in
                  if cont c2 then
                    match t2 with
                    | b3 :: t3 =>
                        let c3 := Bytes.to_Z b3 in
                        if cont c3
                        then ((c0 - 0xF0) * 262144 + (c1 - 0x80) * 4096 +
                              (c2 - 0x80) * 64 + (c3 - 0x80))
                               :: decodeCodePoints t3
                        else 0xFFFD :: decodeCodePoints t2
                    | [] => [0xFFFD]
                    end
                  else 0xFFFD :: decodeCodePoints t1
              | [] => [0xFFFD]
              end
            else 0xFFFD :: decodeCodePoints t0
        | [] => [0xFFFD]
        end
      else 0xFFFD :: decodeCodePoints t0
  end.

(** [buf.toString('utf8')] *)
Definition utf8Decode (bs : list byte) : JsString :=
  flat_map fromCodePoint (decodeCodePoints bs).

(** A Unicode scalar value. *)
Definition isScalar (c : Z) : Prop :=
  0 <= c < 0xD800 \/ 0xE000 <= c < 0x110000.

End Utf.

Module Hex.

(** The code unit of the hexadecimal digit of value [n], as
    [toString('hex')] writes it. *)
Definition digit (n : Z) : Z := if n <? 10 then 48 + n else 87 + n.

(** The value of a hexadecimal digit, in either case. *)
Definition value (u : Z) : option Z :=
  if (48 <=? u) && (u <=? 57) then Some (u - 48)
  else if (97 <=? u) && (u <=? 102) then Some (u - 87)
  else if (65 <=? u) && (u <=? 70) then Some (u - 55)
  else None.

(** [buf.toString('hex')] *)
Definition encode (bs : list byte) : JsString :=
  flat_map (fun b => [digit (Bytes.to_Z b / 16); digit (Bytes.to_Z b mod 16)]) bs.

(** [Buffer.from(s, 'hex')]: whole pairs of digits, up to the first pair
    that is not hexadecimal. *)
Fixpoint decode (s : JsString) : list byte :=
  match s with
  | hi :: t =>
      match t with
      | lo :: rest =>
          match value hi, value lo with
          | Some h, Some l => Bytes.b8 (h * 16 + l) :: decode rest
          | _, _ => []
          end
      | [] => []
      end
  | [] => []
  end.

End Hex.

(** [s.split(sep)] for a separator of one code unit. *)
Fixpoint split (sep : Z) (s : JsString) : list JsString :=
  match s with
  | [] => [[]]
  | u :: rest =>
      if u =? sep then [] :: split sep rest
      else match split sep rest with
           | part :: parts => (u :: part) :: parts
           | [] => [[u]]
           end
  end.

(** ** The host: configuration, peers, database *)

(** AES-256-GCM of [node:crypto]: sealing gives the ciphertext and the
    16-byte authentication tag; opening gives the plaintext when the tag
    is the tag of the ciphertext under that key and initialization vector. *)
Record Aes256Gcm := mkAes256Gcm {
  gcm_seal : list byte -> list byte -> list byte -> list byte * list byte;
  gcm_open : list byte -> list byte -> list byte -> list byte -> option (list byte)
}.

(** [l'] is [l] with one byte replaced by a different byte. *)
Definition changedByte (l l' : list byte) : Prop :=
  exists pre b b' post, b <> b' /\ l = pre ++ b :: post /\ l' = pre ++ b' :: post.

(** What GCM guarantees under a key: opening what was sealed gives the
    plaintext; the tag has 16 bytes; it is the only tag accepted for the
    sealed ciphertext (the tag is recomputed and compared); and it is not
    accepted for a ciphertext that differs in one byte (the GHASH values
    differ as soon as the hash subkey is not zero). *)
Record LawfulCipher (c : Aes256Gcm) (key : list byte) : Prop := {
  open_sealed : forall iv plaintext,
    gcm_open c key iv (snd (gcm_seal c key iv plaintext))
                      (fst (gcm_seal c key iv plaintext)) = Some plaintext;
  tag_length : forall iv plaintext,
    length (snd (gcm_seal c key iv plaintext)) = 16%nat;
  open_other_tag : forall iv plaintext authTag,
    authTag <> snd (gcm_seal c key iv plaintext) ->
    gcm_open c key iv authTag (fst (gcm_seal c key iv plaintext)) = None;
  open_changed_ciphertext : forall iv plaintext ciphertext,
    changedByte (fst (gcm_seal c key iv plaintext)) ciphertext ->
    gcm_open c key iv (snd (gcm_seal c key iv plaintext)) ciphertext = None
}.

(** [process.env] *)
Record Env := mkEnv {
  ENCRYPTION_KEY : option JsString;
  FIGMA_CLIENT_ID : option string;
  FIGMA_CLIENT_SECRET : option string
}.

(** Thrown values: [Error] and its subclass [FigmaApiError]. *)
Inductive Exn :=
| JsError (message : string)
| FigmaApiError (message : string) (statusCode : Z) (endpoint : string).

Definition exn_message (e : Exn) : string :=
  match e with
  | JsError m => m
  | FigmaApiError m _ _ => m
  end.

Inductive Result (A : Type) :=
| Ok (a : A)
| Throw (e : Exn).
Arguments Ok {A} a.
Arguments Throw {A} e.

(** An HTTP response; [body] is [None] when it is not JSON of the
    declared shape, so that [response.json()] throws. *)
Record HttpResponse (A : Type) := mkHttpResponse {
  status : Z;
  statusText : string;
  body : option A
}.
Arguments mkHttpResponse {A}.
Arguments status {A}.
Arguments statusText {A}.
Arguments body {A}.

(** [response.ok] *)
Definition ok {A} (response : HttpResponse A) : bool :=
  (200 <=? status response) && (status response <=? 299).

(** What a peer does with a request: after [latency] milliseconds, a
    response, or a failure of [fetch] itself. *)
Record Reply (A : Type) := mkReply {
  latency : N;
  reply : Result (HttpResponse A)
}.
Arguments mkReply {A}.
Arguments latency {A}.
Arguments reply {A}.

(** The fields of the Figma file read by the program. *)
Record FigmaFile := mkFigmaFile {
  file_name : string;
  lastModified : string;
  version : string;
  document : FigmaNode;
  styles : list (string * FigmaStyle)   (* in the order of [Object.entries] *)
}.

(** [FigmaVariablesResponse]: [meta.variables], in the order of
    [Object.entries]. *)
Record FigmaVariablesResponse := mkFigmaVariablesResponse {
  meta_variables : list (string * FigmaVariable)
}.

(** [expires_in] is a whole number of seconds (RFC 6749). *)
Record FigmaTokenRefreshResponse := mkFigmaTokenRefreshResponse {
  access_token : JsString;
  refresh_token : JsString;
  expires_in : Z
}.

Inductive HttpCall :=
| PostToken (client_id client_secret : string) (refresh_token : JsString)
| GetFile (bearer : JsString) (fileKey : string)
| GetVariables (bearer : JsString) (fileKey : string).

(** The peers answer from the calls made so far, the present one first. *)
Record Peers := mkPeers {
  tokenEndpoint : list HttpCall -> Reply FigmaTokenRefreshResponse;
  filesEndpoint : list HttpCall -> Reply FigmaFile;
  variablesEndpoint : list HttpCall -> Reply FigmaVariablesResponse
}.

(** *** Tables *)

(** [Project], keyed by [id]. *)
Record Project := mkProject {
  project_name : string;
  figmaFileKey : option string;
  figmaFrameId : option string
}.

(** [FigmaCredential]; timestamps in milliseconds. *)
Record FigmaCredential := mkFigmaCredential {
  cred_id : string;
  cred_projectId : string;
  accessToken : JsString;
  refreshToken : JsString;
  accessTokenExpiresAt : Z;
  updatedAt : Z
}.

Record Metadata := mkMetadata {
  fileName : string; frameName : string; meta_lastModified : string }.

Record FigmaBaselineData := mkFigmaBaselineData {
  tokens : ExtractedTokens;
  components : list FigmaComponent;
  data_version : string;
  capturedAt : Z;
  metadata : Metadata
}.

(** [BaselineSnapshot], keyed by [id] (the primary key). *)
Record BaselineSnapshot := mkBaselineSnapshot {
  snap_projectId : string;
  snap_figmaFileKey : string;
  snap_figmaFrameId : option string;
  snap_data : FigmaBaselineData;
  snap_createdAt : Z
}.

Record Db := mkDb {
  projects : gmap string Project;
  figmaCredentials : list FigmaCredential;
  baselineSnapshots : gmap string BaselineSnapshot
}.

(** What happens around one database call: nothing, a write by another
    request that lands first, or an outage that makes the call fail. *)
Inductive Ambient :=
| Quiet
| OtherWrite (f : Db -> Db)
| Outage (message : string).

(** The state the program runs in. *)
Record World := mkWorld {
  db : Db;
  now : Z;                    (* the clock, in milliseconds *)
  ambient : list Ambient;     (* one per database call to come *)
  entropyUsed : nat;          (* bytes drawn from [crypto.randomBytes] *)
  idsUsed : nat;              (* ids drawn from [cuid()] *)
  httpLog : list HttpCall     (* requests sent, the latest first *)
}.

(** What the program is given and does not change. *)
Record Host := mkHost {
  ToNumber : Json -> Js.JsNumber;   (* ECMAScript ToNumber on strings, arrays, objects *)
  isCuid : string -> bool;          (* [z.string().cuid()] *)
  aes : Aes256Gcm;
  env : Env;
  entropy : nat -> byte;
  newId : nat -> string;
  peers : Peers;
  spreadLimit : nat -> N            (* arguments a call takes, by depth of recursion *)
}.

Definition set_db (d : Db) (w : World) : World :=
  {| db := d; now := now w; ambient := ambient w; entropyUsed := entropyUsed w;
     idsUsed := idsUsed w; httpLog := httpLog w |}.

Definition set_ambient (a : list Ambient) (w : World) : World :=
  {| db := db w; now := now w; ambient := a; entropyUsed := entropyUsed w;
     idsUsed := idsUsed w; httpLog := httpLog w |}.

(** *** The monad of asynchronous code *)

Definition M (A : Type) : Type := World -> Result A * World.

Definition ret {A} (a : A) : M A := fun w => (Ok a, w).

Definition throw {A} (e : Exn) : M A := fun w => (Throw e, w).

Definition bind {A B} (m : M A) (k : A -> M B) : M B :=
  fun w => match m w with
           | (Ok a, w') => k a w'
           | (Throw e, w') => (Throw e, w')
           end.

(** [try { m } catch (e) { handler e }] *)
Definition try_catch {A} (m : M A) (handler : Exn -> M A) : M A :=
  fun w => match m w with
           | (Ok a, w') => (Ok a, w')
           | (Throw e, w') => handler e w'
           end.

Definition lift {A} (r : Result A) : M A := fun w => (r, w).

Notation "'let*' x ':=' m 'in' k" := (bind m (fun x => k))
  (at level 10, x name, m at level 100, k at level 200).
Notation "'run' m 'in' k" := (bind m (fun _ => k))
  (at level 10, m at level 100, k at level 200).

(** [Date.now()] *)
Definition Date_now : M Z := fun w => (Ok (now w), w).

(** The event around the next database call. *)
Definition ambientStep : M unit :=
  fun w => match ambient w with
           | [] => (Ok tt, w)
           | Quiet :: rest => (Ok tt, set_ambient rest w)
           | OtherWrite f :: rest => (Ok tt, set_ambient rest (set_db (f (db w)) w))
           | Outage message :: rest => (Throw (JsError message), set_ambient rest w)
           end.

(** A statement run on the tables. *)
Definition statement {A} (op : Db -> Result A * Db) : M A :=
  fun w => let '(r, d) := op (db w) in (r, set_db d w).

(** [await prisma.table.operation(...)] *)
Definition prisma {A} (op : Db -> Result A * Db) : M A :=
  run ambientStep in statement op.

(** The writes of other requests among [events], in their order. *)
Fixpoint othersWrites (events : list Ambient) (d : Db) : Db :=
  match events with
  | [] => d
  | OtherWrite f :: rest => othersWrites rest (f d)
  | _ :: rest => othersWrites rest d
  end.

(** [await prisma.$transaction(async (tx) => body)].  The statements of
    [body] are database calls like the others: what another request
    commits lands between them, and is seen by the next one.  When [body]
    throws, its own writes are undone; those of the others stay. *)
Definition transaction {A} (body : M A) : M A :=
  run ambientStep in
  (fun w => match body w with
            | (Ok a, w') => (Ok a, w')
            | (Throw e, w') =>
                let landed :=
                  firstn (length (ambient w) - length (ambient w')) (ambient w) in
                (Throw e, set_db (othersWrites landed (db w)) w')
            end).

(** [await fetch(...)] *)
Definition fetch {A} (call : HttpCall) (endpoint : list HttpCall -> Reply A)
    : M (HttpResponse A) :=
  fun w =>
    let log := call :: httpLog w in
    let answer := endpoint log in
    (reply answer,
     {| db := db w; now := now w + Z.of_N (latency answer); ambient := ambient w;
        entropyUsed := entropyUsed w; idsUsed := idsUsed w; httpLog := log |}).

(** [await response.json()] *)
Definition json {A} (response : HttpResponse A) : M A :=
  match body response with
  | Some data => ret data
  | None => throw (JsError "Unexpected end of JSON input")
  end.

(** [!s] on an optional string: absent or empty. *)
Definition falsy (s : option string) : bool :=
  match s with
  | None => true
  | Some s => String.eqb s ""
  end.

Definition falsyUnits (s : option JsString) : bool :=
  match s with
  | None | Some [] => true
  | Some (_ :: _) => false
  end.

Definition quote : string := String (ascii_of_nat 34) EmptyString.

(** [`${n}`] for a length. *)
Definition decimal (n : nat) : string := NilEmpty.string_of_uint (Nat.to_uint n).

(** *** What a computation leaves alone *)

(** [m] takes every world to a world related to it by [R], whether it
    returns or throws. *)
Definition respects (R : World -> World -> Prop) {A} (m : M A) : Prop :=
  forall w, R w (snd (m w)).

(** No request is sent and no time passes. *)
Definition offline (w w' : World) : Prop :=
  httpLog w' = httpLog w /\ now w' = now w.

(** While no other request interferes, the projects and the snapshots
    stay as they are, and so does the source of ids. *)
Definition calm (w w' : World) : Prop :=
  ambient w = [] ->
  ambient w' = [] /\ projects (db w') = projects (db w) /\
  baselineSnapshots (db w') = baselineSnapshots (db w) /\
  idsUsed w' = idsUsed w.

(** A statement that leaves the projects and the snapshots alone. *)
Definition credentialsOnly {A} (op : Db -> Result A * Db) : Prop :=
  forall d, projects (snd (op d)) = projects d /\
            baselineSnapshots (snd (op d)) = baselineSnapshots d.

(** ** The program *)

Existing Class Host.

Section Program.

Context {host : Host}.

(** *** The token extractors of [lib/baseline.ts] *)

(** [(v || 0) * 255] *)
Definition channel255 (v : option Json) : Js.JsNumber :=
  if truthy v then
    match v with
    | Some (JNumber q) => Js.binary64 (q * 255)
    | Some (JBool _) => Js.Finite (1 * 255)
    | Some other => Js.times (ToNumber host other) 255
    | None => Js.Finite (0 * 255)
    end
  else Js.Finite (0 * 255).

(** The token built from a first-mode value that is an object (lines 303-313). *)
Definition colorTokenOf (color : Json) : ColorToken :=
  let r := Js.Math_round_num (channel255 (property color "r")) in
  let g := Js.Math_round_num (channel255 (property color "g")) in
  let b := Js.Math_round_num (channel255 (property color "b")) in
  let a := match property color "a" with      (* color.a ?? 1 *)
           | None | Some JNull => JNumber 1
           | Some v => v
           end in
  {| hex := rgbToHex r g b; rgb := {| rgb_r := r; rgb_g := g; rgb_b := b |};
     opacity := a |}.

(** One turn of the loop of [extractColorTokens]. *)
Definition colorStep (colors : gmap string ColorToken)
    (entry : string * FigmaVariable) : gmap string ColorToken :=
  let '(id, variable) := entry in
  match resolvedType variable with
  | COLOR =>
      let name := Js.or_else (var_name variable) ("color-" ++ id) in
      match firstModeValue variable with
      | Some (JObject fields) => Js.obj_set colors name (colorTokenOf (JObject fields))
      | Some (JArray items) => Js.obj_set colors name (colorTokenOf (JArray items))
      | _ => colors
      end
  | _ => colors
  end.

(** [extractColorTokens(variables)]; [variables] in the order of
    [Object.entries]. *)
Definition extractColorTokens (variables : list (string * FigmaVariable))
    : gmap string ColorToken :=
  fold_left colorStep variables ∅.

Definition isSpacing (name : string) : bool :=
  Js.includes (Js.toLowerCase name) "spacing" ||
  Js.includes (Js.toLowerCase name) "space" ||
  Js.includes (Js.toLowerCase name) "gap" ||
  Js.includes (Js.toLowerCase name) "margin" ||
  Js.includes (Js.toLowerCase name) "padding".

Definition spacingStep (spacing : gmap string Q)
    (entry : string * FigmaVariable) : gmap string Q :=
  let '(id, variable) := entry in
  match resolvedType variable with
  | FLOAT =>
      let name := Js.or_else (var_name variable) ("spacing-" ++ id) in
      if negb (isSpacing name) then spacing
      else match firstModeValue variable with
           | Some (JNumber value) => Js.obj_set spacing name value
           | _ => spacing
           end
  | _ => spacing
  end.

(** [extractSpacingTokens(variables)] *)
Definition extractSpacingTokens (variables : list (string * FigmaVariable))
    : gmap string Q :=
  fold_left spacingStep variables ∅.

Definition isRadius (name : string) : bool :=
  Js.includes (Js.toLowerCase name) "radius" ||
  Js.includes (Js.toLowerCase name) "corner" ||
  Js.includes (Js.toLowerCase name) "rounded".

Definition radiiStep (radii : gmap string Q)
    (entry : string * FigmaVariable) : gmap string Q :=
  let '(id, variable) := entry in
  match resolvedType variable with
  | FLOAT =>
      let name := Js.or_else (var_name variable) ("radius-" ++ id) in
      if negb (isRadius name) then radii
      else match firstModeValue variable with
           | Some (JNumber value) => Js.obj_set radii name value
           | _ => radii
           end
  | _ => radii
  end.

(** [extractRadiiTokens(variables)] *)
Definition extractRadiiTokens (variables : list (string * FigmaVariable))
    : gmap string Q :=
  fold_left radiiStep variables ∅.

Definition typographyStep (typography : gmap string TypographyToken)
    (entry : string * FigmaStyle) : gmap string TypographyToken :=
  let '(id, style) := entry in
  match styleType style with
  | TEXT =>
      Js.obj_set typography (Js.or_else (style_name style) ("text-" ++ id))
        {| fontFamily := "Unknown"; fontSize := 16; fontWeight := 400;
           lineHeight := 3 # 2 |}
  | _ => typography
  end.

(** [extractTypographyTokens(styles)] *)
Definition extractTypographyTokens (styles : list (string * FigmaStyle))
    : gmap string TypographyToken :=
  fold_left typographyStep styles ∅.

Definition shadowStep (shadows : gmap string ShadowToken)
    (entry : string * FigmaStyle) : gmap string ShadowToken :=
  let '(id, style) := entry in
  match styleType style with
  | EFFECT =>
      Js.obj_set shadows (Js.or_else (style_name style) ("shadow-" ++ id))
        {| shadow_type := "DROP_SHADOW";
           shadow_color := {| hex := "#000000";
                              rgb := mkRgb (Js.IntVal 0) (Js.IntVal 0) (Js.IntVal 0);
                              opacity := JNumber (1 # 4) |};
           shadow_offset := (0, 4)%Q; blur := 8; spread := 0 |}
  | _ => shadows
  end.

(** [extractShadowTokens(styles)] *)
Definition extractShadowTokens (styles : list (string * FigmaStyle))
    : gmap string ShadowToken :=
  fold_left shadowStep styles ∅.

(** *** The components of [lib/baseline.ts] *)

(** Whether [components.push(...childComponents)] goes through.  The
    entries are passed as arguments of one call, and the engine throws a
    RangeError when they are more than a call takes; how many it takes
    depends on the engine and on the stack left, hence on the depth of the
    recursion. *)
Definition spreads (depth : nat) (childComponents : list FigmaComponent) : bool :=
  (N.of_nat (length childComponents) <=? spreadLimit host depth)%N.

(** [extractComponentsFromNode(node, depth)], with [MAX_DEPTH = 10].  In
    the loop, a [push] that throws is caught: the entries of that child
    are lost and the loop goes on. *)
Fixpoint extractComponentsFromNode (node : FigmaNode) (depth : nat)
    : list FigmaComponent :=
  if (10 <? depth)%nat then []
  else
    let components :=
      if isComponentType (node_type node) then
        match absoluteBoundingBox node with
        | Some bbox =>
            if Js.Qltb 0 (width bbox) && Js.Qltb 0 (height bbox)
            then [componentOf node bbox] else []
        | None => []
        end
      else [] in
    match children node with
    | Some cs =>
        (fix loop (cs : list FigmaNode) (components : list FigmaComponent) :=
           match cs with
           | [] => components
           | child :: rest =>
               let childComponents := extractComponentsFromNode child (depth + 1) in
               loop rest (if spreads depth childComponents
                          then components ++ childComponents
                          else components)
           end) cs components
    | None => components
    end.

(** ** The cipher: [lib/crypto.ts] *)

Definition IV_LENGTH : nat := 16.
Definition AUTH_TAG_LENGTH : nat := 16.
Definition KEY_LENGTH : nat := 32.

(** [getEncryptionKey()] *)
Definition getEncryptionKey : Result (list byte) :=
  if falsyUnits (ENCRYPTION_KEY (env host)) then
    Throw (JsError ("ENCRYPTION_KEY not configured. Generate one with: node -e " ++
                    quote ++ "console.log(crypto.randomBytes(32).toString('hex'))" ++ quote))
  else
    let keyBuffer := Hex.decode (default [] (ENCRYPTION_KEY (env host))) in
    if negb (length keyBuffer =? KEY_LENGTH)%nat then
      Throw (JsError ("ENCRYPTION_KEY must be " ++ decimal KEY_LENGTH ++ " bytes (" ++
                      decimal (KEY_LENGTH * 2) ++ " hex characters). Got " ++
                      decimal (length keyBuffer) ++ " bytes."))
    else Ok keyBuffer.

(** [crypto.randomBytes(n)] *)
Definition randomBytes (n : nat) : M (list byte) :=
  fun w =>
    (Ok (map (entropy host) (seq (entropyUsed w) n)),
     {| db := db w; now := now w; ambient := ambient w;
        entropyUsed := (entropyUsed w + n)%nat; idsUsed := idsUsed w;
        httpLog := httpLog w |}).

(** The envelope [iv:authTag:ciphertext], all in hexadecimal. *)
Definition envelope (iv authTag ciphertext : list byte) : JsString :=
  Hex.encode iv ++ [58] ++ Hex.encode authTag ++ [58] ++ Hex.encode ciphertext.

(** [encrypt(plaintext)] *)
Definition encrypt (plaintext : JsString) : M JsString :=
  try_catch
    (let* key := lift getEncryptionKey in
     let* iv := randomBytes IV_LENGTH in
     let '(ciphertext, authTag) := gcm_seal (aes host) key iv (Utf.utf8Encode plaintext) in
     ret (envelope iv authTag ciphertext))
    (fun error => throw (JsError ("Encryption failed: " ++ exn_message error))).

(** The body of the [try] of [decrypt]. *)
Definition decryptParts (encryptedData : JsString) : Result JsString :=
  match getEncryptionKey with
  | Throw e => Throw e
  | Ok key =>
      match split 58 encryptedData with
      | [ivHex; authTagHex; ciphertext] =>
          let iv := Hex.decode ivHex in
          let authTag := Hex.decode authTagHex in
          if negb (length iv =? IV_LENGTH)%nat then
            Throw (JsError ("Invalid IV length: expected " ++ decimal IV_LENGTH ++
                            " bytes, got " ++ decimal (length iv)))
          else if negb (length authTag =? AUTH_TAG_LENGTH)%nat then
            Throw (JsError ("Invalid auth tag length: expected " ++
                            decimal AUTH_TAG_LENGTH ++ " bytes, got " ++
                            decimal (length authTag)))
          else if Nat.odd (length ciphertext) then
            (* [decipher.update(ciphertext, 'hex', 'utf8')] refuses a
               hexadecimal text of odd length *)
            Throw (JsError ("The argument 'encoding' is invalid for data of length " ++
                            decimal (length ciphertext) ++ ". Received 'hex'"))
          else
            match gcm_open (aes host) key iv authTag (Hex.decode ciphertext) with
            | Some plaintext => Ok (Utf.utf8Decode plaintext)
            | None => Throw (JsError "Unsupported state or unable to authenticate data")
            end
      | _ => Throw (JsError "Invalid encrypted data format. Expected: iv:authTag:ciphertext")
      end
  end.

(** [decrypt(encryptedData)] *)
Definition decrypt (encryptedData : JsString) : Result JsString :=
  match decryptParts encryptedData with
  | Ok plaintext => Ok plaintext
  | Throw error => Throw (JsError ("Decryption failed: " ++ exn_message error))
  end.

(** [generateEncryptionKey()] *)
Definition generateEncryptionKey : M JsString :=
  let* bytes := randomBytes KEY_LENGTH in
  ret (Hex.encode bytes).

(** ** The Figma client: [lib/figma.ts] *)

(** [getFigmaCredentialForProject(projectId)] *)
Definition getFigmaCredentialForProject (projectId : string)
    : M (option FigmaCredential) :=
  try_catch
    (prisma (fun d =>
       (Ok (find (fun c => String.eqb (cred_projectId c) projectId)
                 (figmaCredentials d)), d)))
    (fun error =>
       throw (JsError ("Failed to fetch Figma credentials: " ++ exn_message error))).

(** [process.env.ENCRYPTION_KEY ? decrypt(token) : token], with the
    fallback to the stored value when decryption throws. *)
Definition decryptIfEnabled (token : JsString) : JsString :=
  if falsyUnits (ENCRYPTION_KEY (env host)) then token
  else match decrypt token with
       | Ok plaintext => plaintext
       | Throw _ => token
       end.

(** The [data] of [prisma.figmaCredential.update] in the refresh. *)
Definition refreshed (accessToken refreshToken : JsString) (expiresAt updatedAt : Z)
    (c : FigmaCredential) : FigmaCredential :=
  {| cred_id := cred_id c; cred_projectId := cred_projectId c;
     accessToken := accessToken; refreshToken := refreshToken;
     accessTokenExpiresAt := expiresAt; updatedAt := updatedAt |}.

(** [prisma.figmaCredential.update({ where: { id }, data })] *)
Definition updateCredential (id : string) (change : FigmaCredential -> FigmaCredential)
    (d : Db) : Result FigmaCredential * Db :=
  match find (fun c => String.eqb (cred_id c) id) (figmaCredentials d) with
  | None => (Throw (JsError "Record to update not found."), d)
  | Some c =>
      (Ok (change c),
       {| projects := projects d;
          figmaCredentials :=
            map (fun c => if String.eqb (cred_id c) id then change c else c)
                (figmaCredentials d);
          baselineSnapshots := baselineSnapshots d |})
  end.

(** A time value that a [Date] holds: at most 8.64e15 milliseconds from
    the epoch.  [new Date(t)] is an invalid date for any other. *)
Definition validTime (t : Z) : bool :=
  (-8640000000000000 <=? t) && (t <=? 8640000000000000).

(** [prisma.figmaCredential.update] refuses an invalid date before it
    sends anything; the message ends with this line. *)
Definition invalidDate : Exn :=
  JsError ("Invalid value for argument `accessTokenExpiresAt`: " ++
           "Provided Date object is invalid. Expected Date.").

(** [refreshAccessTokenIfNeeded(credential)] *)
Definition refreshAccessTokenIfNeeded (credential : FigmaCredential)
    : M FigmaCredential :=
  let expiryBuffer := 2 * 60 * 1000 in
  let* t0 := Date_now in
  let isExpiringSoon := accessTokenExpiresAt credential - t0 <? expiryBuffer in
  if negb isExpiringSoon then ret credential
  else
    if falsy (FIGMA_CLIENT_ID (env host)) || falsy (FIGMA_CLIENT_SECRET (env host)) then
      throw (FigmaApiError "Figma OAuth credentials not configured" 500 "/api/oauth/token")
    else
      let clientId := default "" (FIGMA_CLIENT_ID (env host)) in
      let clientSecret := default "" (FIGMA_CLIENT_SECRET (env host)) in
      let refreshToken := decryptIfEnabled (refreshToken credential) in
      let* response := fetch (PostToken clientId clientSecret refreshToken)
                             (tokenEndpoint (peers host)) in
      if negb (ok response) then
        throw (FigmaApiError "Failed to refresh Figma access token" (status response)
                             "/api/oauth/token")
      else
        let* data := json response in
        let* t1 := Date_now in
        let newExpiresAt := t1 + expires_in data * 1000 in
        let* encrypted :=
          if falsyUnits (ENCRYPTION_KEY (env host))
          then ret (access_token data, refresh_token data)
          else
            try_catch
              (let* encryptedAccessToken := encrypt (access_token data) in
               try_catch
                 (let* encryptedRefreshToken := encrypt (refresh_token data) in
                  ret (encryptedAccessToken, encryptedRefreshToken))
                 (fun _ => ret (encryptedAccessToken, refresh_token data)))
              (fun _ => ret (access_token data, refresh_token data)) in
        let* t2 := Date_now in
        if negb (validTime newExpiresAt) then throw invalidDate
        else prisma (updateCredential (cred_id credential)
                       (refreshed (fst encrypted) (snd encrypted) newExpiresAt t2)).

(** [getFigmaAccessToken(projectId)] *)
Definition getFigmaAccessToken (projectId : string) : M JsString :=
  let* credential := getFigmaCredentialForProject projectId in
  match credential with
  | None => throw (JsError ("Figma credentials not found for project " ++ projectId))
  | Some credential =>
      let* freshCredential := refreshAccessTokenIfNeeded credential in
      ret (decryptIfEnabled (accessToken freshCredential))
  end.

(** [fetchFigmaFile(projectId, fileKey)] *)
Definition fetchFigmaFile (projectId fileKey : string) : M FigmaFile :=
  let* accessToken := getFigmaAccessToken projectId in
  let endpoint := ("/v1/files/" ++ fileKey)%string in
  let* response := fetch (GetFile accessToken fileKey) (filesEndpoint (peers host)) in
  if negb (ok response) then
    throw (FigmaApiError ("Failed to fetch Figma file: " ++ statusText response)
                         (status response) endpoint)
  else json response.

(** [fetchFigmaVariables(projectId, fileKey)] *)
Definition fetchFigmaVariables (projectId fileKey : string)
    : M FigmaVariablesResponse :=
  let* accessToken := getFigmaAccessToken projectId in
  let endpoint := ("/v1/files/" ++ fileKey ++ "/variables/local")%string in
  let* response := fetch (GetVariables accessToken fileKey)
                         (variablesEndpoint (peers host)) in
  if negb (ok response) then
    throw (FigmaApiError ("Failed to fetch Figma variables: " ++ statusText response)
                         (status response) endpoint)
  else json response.

(** [fetchFigmaVariablesAndStyles(projectId, fileKey)].  The two requests
    of [Promise.all] are run one after the other; the first failure is the
    failure of the whole. *)
Definition fetchFigmaVariablesAndStyles (projectId fileKey : string)
    : M (FigmaFile * FigmaVariablesResponse) :=
  let* file := fetchFigmaFile projectId fileKey in
  let* variables := fetchFigmaVariables projectId fileKey in
  ret (file, variables).

(** ** [GET /api/figma/frames] *)

Record FramesMeta := mkFramesMeta {
  total : nat;
  meta_fileName : string;
  fileVersion : string;
  truncated : bool
}.

Inductive Details :=
| NoDetails
| DetailsText (text : string)
| DetailsIssues.               (* the issues reported by the validator *)

Inductive ResponseBody :=
| ErrorBody (error : string) (details : Details) (needsOAuth : bool)
| FramesBody (frames : list FrameSummary) (meta : FramesMeta).

Record NextResponse := mkNextResponse {
  res_status : Z;
  res_body : ResponseBody
}.

(** The response of step 5. *)
Definition framesResponse (figmaFile : FigmaFile) : NextResponse :=
  let frames := extractFramesFromDocument (document figmaFile) in
  {| res_status := 200;
     res_body := FramesBody frames
       {| total := length frames;
          meta_fileName := file_name figmaFile;
          fileVersion := version figmaFile;
          truncated := (MAX_FRAMES <=? length frames)%nat |} |}.

(** [NextResponse.json(body, { status })] for a status that is not a
    constant of the program: the status code of an HTTP response.  The
    [Response] constructor behind it throws a RangeError for a status
    outside 200..599 and a TypeError for a status that allows no body;
    the messages are those of Node's [Response]. *)
Definition NextResponse_json (body : ResponseBody) (status : Z) : M NextResponse :=
  if (status <? 200) || (599 <? status) then
    throw (JsError ("init[" ++ quote ++ "status" ++ quote ++
                    "] must be in the range of 200 to 599, inclusive."))
  else if (status =? 204) || (status =? 205) || (status =? 304) then
    throw (JsError ("Response constructor: Invalid response status code " ++
                    decimal (Z.to_nat status)))
  else ret {| res_status := status; res_body := body |}.

(** The [catch] around [fetchFigmaFile] (lines 258-300): the response it
    returns, or the error thrown again, or the error that building the
    response throws. *)
Definition onFetchError (error : Exn) : M NextResponse :=
  match error with
  | FigmaApiError _ statusCode _ =>
      if statusCode =? 404 then
        ret {| res_status := 404;
               res_body := ErrorBody
                 "Figma file not found. The file may have been deleted or moved."
                 NoDetails false |}
      else if statusCode =? 403 then
        ret {| res_status := 403;
               res_body := ErrorBody
                 "Access denied to Figma file. Please reconnect Figma integration."
                 NoDetails false |}
      else
        NextResponse_json
          (ErrorBody "Failed to fetch Figma file. Please try again later."
                     NoDetails false)
          statusCode
  | JsError message =>
      if Js.includes message "No Figma credentials" then
        ret {| res_status := 400;
               res_body := ErrorBody "Figma not connected"
                 (DetailsText "Please connect your Figma account first.") true |}
      else throw error
  end.

(** [GET(request)]; [projectIdParam] is [searchParams.get('projectId')]. *)
Definition GET (projectIdParam : option string) : M NextResponse :=
  try_catch
    (match projectIdParam with
     | None =>
         ret {| res_status := 400;
                res_body := ErrorBody "Invalid query parameters" DetailsIssues false |}
     | Some projectId =>
         if negb (isCuid host projectId) then
           ret {| res_status := 400;
                  res_body := ErrorBody "Invalid query parameters" DetailsIssues false |}
         else
           let* project := prisma (fun d => (Ok (projects d !! projectId), d)) in
           match project with
           | None =>
               ret {| res_status := 404;
                      res_body := ErrorBody "Project not found" NoDetails false |}
           | Some project =>
               if falsy (figmaFileKey project) then
                 ret {| res_status := 400;
                        res_body := ErrorBody "Missing figmaFileKey for project"
                          (DetailsText "This project is not linked to a Figma file. Please configure Figma integration first.")
                          false |}
               else
                 let fileKey := default "" (figmaFileKey project) in
                 let* hasCredentials :=
                   prisma (fun d =>
                     (Ok (find (fun c => String.eqb (cred_projectId c) projectId)
                               (figmaCredentials d)), d)) in
                 match hasCredentials with
                 | None =>
                     ret {| res_status := 400;
                            res_body := ErrorBody "Figma not connected"
                              (DetailsText ("Please connect your Figma account first by clicking " ++
                                            quote ++ "Connect Figma" ++ quote ++
                                            " on the project page."))
                              true |}
                 | Some _ =>
                     let* outcome :=
                       try_catch
                         (let* figmaFile := fetchFigmaFile projectId fileKey in
                          ret (inl figmaFile))
                         (fun error =>
                            let* response := onFetchError error in
                            ret (inr response)) in
                     match outcome with
                     | inr response => ret response
                     | inl figmaFile => ret (framesResponse figmaFile)
                     end
                 end
           end
     end)
    (fun error =>
       ret {| res_status := 500;
              res_body := ErrorBody "An unexpected error occurred"
                            (DetailsText (exn_message error)) false |}).

(** ** The baseline snapshot builder: [lib/baseline.ts] *)

(** The [where] of the lookup: this project and this frame. *)
Definition forFrame (projectId figmaFrameId : string) (row : BaselineSnapshot) : bool :=
  String.eqb (snap_projectId row) projectId &&
  match snap_figmaFrameId row with
  | Some f => String.eqb f figmaFrameId
  | None => false
  end.

(** The row created last among [rows]. *)
Fixpoint newest (rows : list (string * BaselineSnapshot))
    : option (string * BaselineSnapshot) :=
  match rows with
  | [] => None
  | row :: rest =>
      match newest rest with
      | Some best =>
          if snap_createdAt (snd best) <? snap_createdAt (snd row)
          then Some row else Some best
      | None => Some row
      end
  end.

(** [tx.baselineSnapshot.findFirst({ where: { projectId, figmaFrameId },
    orderBy: { createdAt: 'desc' } })] *)
Definition findFirstSnapshot (projectId figmaFrameId : string) (d : Db)
    : option (string * BaselineSnapshot) :=
  newest (List.filter (fun row => forFrame projectId figmaFrameId (snd row))
                      (map_to_list (baselineSnapshots d))).

(** [tx.baselineSnapshot.update({ where: { id }, data: { data,
    figmaFileKey, figmaFrameId } })] *)
Definition updateSnapshot (id : string) (baselineData : FigmaBaselineData)
    (figmaFileKey figmaFrameId : string) (d : Db)
    : Result (string * BaselineSnapshot) * Db :=
  match baselineSnapshots d !! id with
  | None => (Throw (JsError "Record to update not found."), d)
  | Some row =>
      let row' := {| snap_projectId := snap_projectId row;
                     snap_figmaFileKey := figmaFileKey;
                     snap_figmaFrameId := Some figmaFrameId;
                     snap_data := baselineData;
                     snap_createdAt := snap_createdAt row |} in
      (Ok (id, row'),
       {| projects := projects d; figmaCredentials := figmaCredentials d;
          baselineSnapshots := <[id := row']> (baselineSnapshots d) |})
  end.

(** [tx.baselineSnapshot.create({ data })]: the id is drawn by [cuid()],
    [createdAt] is the time of the insertion, and the primary key rejects
    an id that is taken. *)
Definition createSnapshot (projectId figmaFileKey figmaFrameId : string)
    (baselineData : FigmaBaselineData) : M (string * BaselineSnapshot) :=
  fun w =>
    let id := newId host (idsUsed w) in
    let w := {| db := db w; now := now w; ambient := ambient w;
                entropyUsed := entropyUsed w; idsUsed := S (idsUsed w);
                httpLog := httpLog w |} in
    match baselineSnapshots (db w) !! id with
    | Some _ =>
        (Throw (JsError "Unique constraint failed on the fields: (`id`)"), w)
    | None =>
        let row := {| snap_projectId := projectId;
                      snap_figmaFileKey := figmaFileKey;
                      snap_figmaFrameId := Some figmaFrameId;
                      snap_data := baselineData;
                      snap_createdAt := now w |} in
        (Ok (id, row),
         set_db {| projects := projects (db w);
                   figmaCredentials := figmaCredentials (db w);
                   baselineSnapshots := <[id := row]> (baselineSnapshots (db w)) |} w)
    end.

(** Step 7: the upsert, in one transaction. *)
Definition upsertSnapshot (projectId figmaFileKey figmaFrameId : string)
    (baselineData : FigmaBaselineData) : M (string * BaselineSnapshot) :=
  transaction
    (let* existing :=
       prisma (fun d => (Ok (findFirstSnapshot projectId figmaFrameId d), d)) in
     match existing with
     | Some existing =>
         prisma (updateSnapshot (fst existing) baselineData figmaFileKey figmaFrameId)
     | None =>
         run ambientStep in
         createSnapshot projectId figmaFileKey figmaFrameId baselineData
     end).

(** Steps 4 to 6: the payload built from the fetched data and the
    selected frame, captured at [capturedAt]. *)
Definition baselineDataOf (file : FigmaFile) (variables : FigmaVariablesResponse)
    (selectedFrame : FigmaNode) (capturedAt : Z) : FigmaBaselineData :=
  {| tokens := {| typography := extractTypographyTokens (styles file);
                  colors := extractColorTokens (meta_variables variables);
                  spacing := extractSpacingTokens (meta_variables variables);
                  radii := extractRadiiTokens (meta_variables variables);
                  shadows := extractShadowTokens (styles file) |};
     components := extractComponentsFromNode selectedFrame 0;
     data_version := version file;
     capturedAt := capturedAt;
     metadata := {| fileName := file_name file;
                    frameName := node_name selectedFrame;
                    meta_lastModified := lastModified file |} |}.

(** [createBaselineSnapshotForProject(projectId)] *)
Definition createBaselineSnapshotForProject (projectId : string)
    : M (string * BaselineSnapshot) :=
  let* project := prisma (fun d => (Ok (projects d !! projectId), d)) in
  match project with
  | None => throw (JsError ("Project not found: " ++ projectId))
  | Some project =>
      if falsy (figmaFileKey project) then
        throw (JsError ("Project " ++ projectId ++ " is not linked to a Figma file"))
      else if falsy (figmaFrameId project) then
        throw (JsError ("Project " ++ projectId ++ " has no Figma frame selected"))
      else
        let figmaFileKey := default "" (figmaFileKey project) in
        let figmaFrameId := default "" (figmaFrameId project) in
        let* figmaData :=
          try_catch (fetchFigmaVariablesAndStyles projectId figmaFileKey)
            (fun error =>
               match error with
               | FigmaApiError message _ _ =>
                   throw (JsError ("Failed to fetch Figma data: " ++ message))
               | _ => throw error
               end) in
        let '(file, variables) := figmaData in
        match findNodeById (document file) figmaFrameId with
        | None => throw (JsError ("Frame " ++ figmaFrameId ++ " not found in Figma file"))
        | Some selectedFrame =>
            let* capturedAt := Date_now in
            upsertSnapshot projectId figmaFileKey figmaFrameId
              (baselineDataOf file variables selectedFrame capturedAt)
        end
  end.

(** The [where: { projectId }] of the two lookups below. *)
Definition ofProject (projectId : string) (row : string * BaselineSnapshot) : bool :=
  String.eqb (snap_projectId (snd row)) projectId.

(** [hasBaselineSnapshot(projectId)].  [findFirst] has no [orderBy] here:
    which row comes back is left to the database, and the function only
    looks at whether there is one. *)
Definition hasBaselineSnapshot (projectId : string) : M bool :=
  let* snapshot :=
    prisma (fun d =>
      (Ok (hd_error (List.filter (ofProject projectId)
                                 (map_to_list (baselineSnapshots d)))), d)) in
  ret (match snapshot with Some _ => true | None => false end).

(** [getLatestBaselineSnapshot(projectId)] *)
Definition getLatestBaselineSnapshot (projectId : string)
    : M (option (string * BaselineSnapshot)) :=
  prisma (fun d =>
    (Ok (newest (List.filter (ofProject projectId)
                             (map_to_list (baselineSnapshots d)))), d)).

(** ** [PUT /api/projects/[id]/figma] *)

(** What the handler reads of the request: the user id of the session,
    the [id] of the route, and the outcome of [request.json()]: the parsed
    body, or what the parser throws. *)
Record PutRequest := mkPutRequest {
  session_user_id : option string;
  params_id : string;
  request_json : Result Json
}.

Inductive PutBody :=
| PutError (error : string) (details : Details)
| PutSuccess (project_id : string) (project : Project) (message : string).

Record PutResponse := mkPutResponse {
  put_status : Z;
  put_body : PutBody
}.

(** [updateFigmaConfigSchema.safeParse(body)]: [figmaFrameId] a string of
    at least one character, [createBaseline] a boolean or absent (then
    false); other keys are dropped. *)
Definition updateFigmaConfigSchema (body : Json) : option (string * bool) :=
  match body with
  | JObject fields =>
      match assoc "figmaFrameId" fields with
      | Some (JString figmaFrameId) =>
          if String.eqb figmaFrameId "" then None
          else match assoc "createBaseline" fields with
               | None => Some (figmaFrameId, false)
               | Some (JBool createBaseline) => Some (figmaFrameId, createBaseline)
               | Some _ => None
               end
      | _ => None
      end
  | _ => None
  end.

(** [prisma.project.update({ where: { id }, data: { figmaFrameId, ... } })] *)
Definition updateProjectFrame (projectId figmaFrameId : string) (d : Db)
    : Result Project * Db :=
  match projects d !! projectId with
  | None => (Throw (JsError "Record to update not found."), d)
  | Some project =>
      let updatedProject :=
        {| project_name := project_name project;
           figmaFileKey := figmaFileKey project;
           figmaFrameId := Some figmaFrameId |} in
      (Ok updatedProject,
       {| projects := <[projectId := updatedProject]> (projects d);
          figmaCredentials := figmaCredentials d;
          baselineSnapshots := baselineSnapshots d |})
  end.

(** The build started by the handler and left to run: its outcome is
    logged, a failure is swallowed by [.catch]. *)
Definition baselineInBackground (projectId : string) : M unit :=
  try_catch
    (let* snapshot := createBaselineSnapshotForProject projectId in ret tt)
    (fun _ => ret tt).

(** [PUT(request, { params })]: the response, and the build left running
    in the background when there is one.  [memberships userId projectId]
    is the number of memberships that the [include] of the project lookup
    returns for the user: the organisations and their members are tables
    that the code modelled here only reads. *)
Definition PUT (memberships : string -> string -> nat) (request : PutRequest)
    : M (PutResponse * option (M unit)) :=
  try_catch
    (if falsy (session_user_id request) then
       ret ({| put_status := 401;
               put_body := PutError "Unauthorized - Please sign in" NoDetails |}, None)
     else
       let userId := default "" (session_user_id request) in
       let projectId := params_id request in
       match request_json request with
       | Throw error => throw error
       | Ok body =>
           match updateFigmaConfigSchema body with
           | None =>
               ret ({| put_status := 400;
                       put_body := PutError "Invalid request data" DetailsIssues |}, None)
           | Some (figmaFrameId, createBaseline) =>
               let* project := prisma (fun d => (Ok (projects d !! projectId), d)) in
               match project with
               | None =>
                   ret ({| put_status := 404;
                           put_body := PutError "Project not found" NoDetails |}, None)
               | Some project =>
                   if (memberships userId projectId =? 0)%nat then
                     ret ({| put_status := 403;
                             put_body := PutError "You do not have access to this project"
                                           NoDetails |}, None)
                   else if falsy (figmaFileKey project) then
                     ret ({| put_status := 400;
                             put_body := PutError "Project is not linked to a Figma file"
                               (DetailsText "Please connect Figma integration first") |},
                          None)
                   else
                     let* updatedProject :=
                       prisma (updateProjectFrame projectId figmaFrameId) in
                     ret ({| put_status := 200;
                             put_body := PutSuccess projectId updatedProject
                               "Figma frame configuration updated successfully" |},
                          if createBaseline
                          then Some (baselineInBackground projectId) else None)
               end
           end
       end)
    (fun error =>
       ret ({| put_status := 500;
               put_body := PutError "Failed to update Figma configuration"
                             (DetailsText (exn_message error)) |}, None)).

(** ** Notions used by the statements *)

(** Two hexadecimal digits for a channel value, as the specification
    describes the rendering. *)
Definition hexDigitChar (n : Z) : ascii := ascii_of_nat (Z.to_nat (Hex.digit n)).
Definition twoHexDigits (z : Z) : string :=
  String (hexDigitChar (z / 16)) (String (hexDigitChar (z mod 16)) EmptyString).

(** The name under which the spacing extractor files a variable. *)
Definition spacingName (id : string) (variable : FigmaVariable) : string :=
  Js.or_else (var_name variable) ("spacing-" ++ id).

(** A variable that the spacing extractor files: resolved to FLOAT, filed
    under a name with a spacing word, first mode a number. *)
Definition spacingEntry (id : string) (variable : FigmaVariable) (key : string)
    (value : Q) : Prop :=
  resolvedType variable = FLOAT /\ spacingName id variable = key /\
  isSpacing key = true /\ firstModeValue variable = Some (JNumber value).

(** The tokens as [refreshAccessTokenIfNeeded] stores them (lines 278-291). *)
Definition tokensToStore (data : FigmaTokenRefreshResponse) : M (JsString * JsString) :=
  if falsyUnits (ENCRYPTION_KEY (env host))
  then ret (access_token data, refresh_token data)
  else
    try_catch
      (let* encryptedAccessToken := encrypt (access_token data) in
       try_catch
         (let* encryptedRefreshToken := encrypt (refresh_token data) in
          ret (encryptedAccessToken, encryptedRefreshToken))
         (fun _ => ret (encryptedAccessToken, refresh_token data)))
      (fun _ => ret (access_token data, refresh_token data)).

(** What follows the answer of the token endpoint when it is a success
    carrying [data] (lines 273-309). *)
Definition storeRefreshed (credential : FigmaCredential)
    (data : FigmaTokenRefreshResponse) : M FigmaCredential :=
  let* t1 := Date_now in
  let newExpiresAt := t1 + expires_in data * 1000 in
  let* encrypted := tokensToStore data in
  let* t2 := Date_now in
  if negb (validTime newExpiresAt) then throw invalidDate
  else prisma (updateCredential (cred_id credential)
                 (refreshed (fst encrypted) (snd encrypted) newExpiresAt t2)).

(** The lookup of the credential of a project. *)
Definition credentialOf (projectId : string) (d : Db) : option FigmaCredential :=
  find (fun c => String.eqb (cred_projectId c) projectId) (figmaCredentials d).

(** The message of the failure raised for a project without credential. *)
Definition notConnected (projectId : string) : string :=
  "Figma credentials not found for project " ++ projectId.

(** The stored snapshots of a project and a frame. *)
Definition snapshotsFor (projectId frameId : string)
    (table : gmap string BaselineSnapshot) : gmap string BaselineSnapshot :=
  filter (fun entry => forFrame projectId frameId (snd entry) = true) table.

(** At most one stored snapshot for the project and the frame. *)
Definition atMostOne (projectId frameId : string)
    (table : gmap string BaselineSnapshot) : Prop :=
  forall i i' r r', table !! i = Some r -> table !! i' = Some r' ->
    forFrame projectId frameId r = true -> forFrame projectId frameId r' = true ->
    i = i'.

(** The children loop of [extractComponentsFromNode] in the call made at
    [depth], named. *)
Fixpoint componentsOfChildren (depth : nat) (cs : list FigmaNode)
    (components : list FigmaComponent) : list FigmaComponent :=
  match cs with
  | [] => components
  | child :: rest =>
      let childComponents := extractComponentsFromNode child (depth + 1) in
      componentsOfChildren depth rest
        (if spreads depth childComponents
         then components ++ childComponents
         else components)
  end.

(** What a node adds for itself: nothing, or its entry. *)
Definition ownComponent (node : FigmaNode) : list FigmaComponent :=
  if isComponentType (node_type node) then
    match absoluteBoundingBox node with
    | Some bbox =>
        if Js.Qltb 0 (width bbox) && Js.Qltb 0 (height bbox)
        then [componentOf node bbox] else []
    | None => []
    end
  else [].

(** What the loop keeps of a child in the call made at [depth]: its
    entries, or nothing when there are too many of them for one [push]. *)
Definition keptOfChild (depth : nat) (child : FigmaNode) : list FigmaComponent :=
  let childComponents := extractComponentsFromNode child (depth + 1) in
  if spreads depth childComponents then childComponents else [].

(** [m] is a node [d] levels below [root] whose entries reach the list
    of the call made on [root] at [depth]: every [push] on the way up goes
    through. *)
Inductive keptAt : nat -> FigmaNode -> nat -> FigmaNode -> Prop :=
| keptAt_here depth root : keptAt depth root 0 root
| keptAt_below depth root cs c d m :
    children root = Some cs -> In c cs ->
    spreads depth (extractComponentsFromNode c (depth + 1)) = true ->
    keptAt (depth + 1) c d m -> keptAt depth root (S d) m.

(** No list that the traversal started on [node] at [depth] spreads is
    too long for the engine. *)
Fixpoint spreadsFit (node : FigmaNode) (depth : nat) : bool :=
  match children node with
  | Some cs =>
      (fix all (cs : list FigmaNode) : bool :=
         match cs with
         | [] => true
         | child :: rest =>
             spreads depth (extractComponentsFromNode child (depth + 1)) &&
             spreadsFit child (depth + 1) && all rest
         end) cs
  | None => true
  end.

(** The condition of lines 434-444 of [baseline.ts]: a node of a
    component-like type with a bounding box of strictly positive width and
    height. *)
Definition componentLike (node : FigmaNode) (bbox : FigmaBoundingBox) : Prop :=
  isComponentType (node_type node) = true /\
  absoluteBoundingBox node = Some bbox /\ (0 < width bbox)%Q /\ (0 < height bbox)%Q.

(** [Math.max(0, Math.min(255, n))] *)
Definition clamp255 (z : Z) : Z := Z.max 0 (Z.min 255 z).

(** [typeof v === 'object' && v !== null] *)
Definition isObject (v : Json) : bool :=
  match v with
  | JObject _ | JArray _ => true
  | _ => false
  end.

(** The name under which the colour extractor files a variable. *)
Definition colorName (id : string) (variable : FigmaVariable) : string :=
  Js.or_else (var_name variable) ("color-" ++ id)%string.

(** A variable that the colour extractor files under [key] with [token]:
    resolved to COLOR, first mode an object. *)
Definition colorEntry (id : string) (variable : FigmaVariable) (key : string)
    (token : ColorToken) : Prop :=
  resolvedType variable = COLOR /\ colorName id variable = key /\
  key <> "__proto__" /\
  exists v, firstModeValue variable = Some v /\ isObject v = true /\
            token = colorTokenOf v.

(** The name under which the radius extractor files a variable. *)
Definition radiusName (id : string) (variable : FigmaVariable) : string :=
  Js.or_else (var_name variable) ("radius-" ++ id)%string.

Definition radiusEntry (id : string) (variable : FigmaVariable) (key : string)
    (value : Q) : Prop :=
  resolvedType variable = FLOAT /\ radiusName id variable = key /\
  isRadius key = true /\ firstModeValue variable = Some (JNumber value).

(** The values stored for every text style, and for every effect style. *)
Definition typographyPlaceholder : TypographyToken :=
  {| fontFamily := "Unknown"; fontSize := 16; fontWeight := 400; lineHeight := 3 # 2 |}.

Definition shadowPlaceholder : ShadowToken :=
  {| shadow_type := "DROP_SHADOW";
     shadow_color := {| hex := "#000000";
                        rgb := mkRgb (Js.IntVal 0) (Js.IntVal 0) (Js.IntVal 0);
                        opacity := JNumber (1 # 4) |};
     shadow_offset := (0, 4)%Q; blur := 8; spread := 0 |}.

(** A digit of lower-case hexadecimal: 0-9 or a-f. *)
Definition lowerHex (u : Z) : Prop := 48 <= u <= 57 \/ 97 <= u <= 102.

(** The world after [n] more random bytes were drawn. *)
Definition drawn (n : nat) (w : World) : World :=
  {| db := db w; now := now w; ambient := ambient w;
     entropyUsed := (entropyUsed w + n)%nat; idsUsed := idsUsed w;
     httpLog := httpLog w |}.

(** The tables and the events to come are as they were. *)
Definition sameStore (w w' : World) : Prop :=
  db w' = db w /\ ambient w' = ambient w.

(** The request sent to the token endpoint for [credential]. *)
Definition refreshCall (credential : FigmaCredential) : HttpCall :=
  PostToken (default "" (FIGMA_CLIENT_ID (env host)))
            (default "" (FIGMA_CLIENT_SECRET (env host)))
            (decryptIfEnabled (refreshToken credential)).

(** [s'] is [s] with one code unit replaced by a different one. *)
Definition changedUnit (s s' : JsString) : Prop :=
  exists pre u u' post, u <> u' /\ s = pre ++ u :: post /\ s' = pre ++ u' :: post.

(** The text [ivHex:authTagHex:ciphertext] that [decrypt] takes apart. *)
Definition envelopeText (ivHex authTagHex ciphertext : JsString) : JsString :=
  ivHex ++ [58] ++ authTagHex ++ [58] ++ ciphertext.

(** What [encrypt] returns for [plaintext] when it draws [iv]. *)
Definition sealedEnvelope (key iv : list byte) (plaintext : JsString) : JsString :=
  let sealed := gcm_seal (aes host) key iv (Utf.utf8Encode plaintext) in
  envelope iv (snd sealed) (fst sealed).

(** The answers of [GET /api/figma/frames] that are not the frames. *)
Definition errorResponse (status : Z) (error : string) (details : Details)
    (needsOAuth : bool) : NextResponse :=
  {| res_status := status; res_body := ErrorBody error details needsOAuth |}.

(** A status with which [NextResponse.json] builds a response: one from
    200 to 599 that allows a body. *)
Definition carriesBody (status : Z) : bool :=
  (200 <=? status) && (status <=? 599) &&
  negb ((status =? 204) || (status =? 205) || (status =? 304)).

(** The message of the answer to a [FigmaApiError] of status [statusCode]. *)
Definition figmaErrorText (statusCode : Z) : string :=
  if statusCode =? 404
  then "Figma file not found. The file may have been deleted or moved."
  else if statusCode =? 403
  then "Access denied to Figma file. Please reconnect Figma integration."
  else "Failed to fetch Figma file. Please try again later.".

End Program.

(** ** A concrete host and store *)

(** The code units of an ASCII text. *)
Definition units (s : string) : JsString :=
  map (fun a => Z.of_nat (nat_of_ascii a)) (list_ascii_of_string s).

(** A cipher with the laws of [LawfulCipher] and no secrecy: the
    ciphertext is the plaintext and the tag is a checksum of it.  It
    stands for AES-GCM where a property is run on a concrete input. *)
Definition checksum (bs : list byte) : Z :=
  fold_right (fun b acc => Bytes.to_Z b + acc) 0 bs.

Definition checksumTag (ciphertext : list byte) : list byte :=
  Bytes.b8 (checksum ciphertext) :: repeat x00 15.

Definition checksumCipher : Aes256Gcm :=
  {| gcm_seal := fun key iv plaintext => (plaintext, checksumTag plaintext);
     gcm_open := fun key iv authTag ciphertext =>
       if List.list_eq_dec Byte.byte_eq_dec authTag (checksumTag ciphertext)
       then Some ciphertext else None |}.

Definition demoKey : JsString :=
  units "000102030405060708090a0b0c0d0e0f101112131415161718191a1b1c1d1e1f".

Definition demoEnv : Env :=
  {| ENCRYPTION_KEY := Some demoKey;
     FIGMA_CLIENT_ID := Some "client-id";
     FIGMA_CLIENT_SECRET := Some "client-secret" |}.

Definition box (w h : Q) : option FigmaBoundingBox := Some (mkBBox 0 0 w h).

Definition button : FigmaNode :=
  {| node_id := "1:3"; node_name := "Button"; node_type := "INSTANCE";
     children := None; absoluteBoundingBox := box 120 40 |}.

Definition hero : FigmaNode :=
  {| node_id := "1:2"; node_name := "Hero"; node_type := "FRAME";
     children := Some [button]; absoluteBoundingBox := box 1440 900 |}.

Definition demoDocument : FigmaNode :=
  {| node_id := "0:0"; node_name := "Document"; node_type := "DOCUMENT";
     children := Some [ {| node_id := "0:1"; node_name := "Page 1";
                           node_type := "CANVAS"; children := Some [hero];
                           absoluteBoundingBox := None |} ];
     absoluteBoundingBox := None |}.

(** A page with [n] sibling frames. *)
Definition siblingFrames (n : nat) : FigmaNode :=
  {| node_id := "0:0"; node_name := "Document"; node_type := "DOCUMENT";
     children := Some [ {| node_id := "0:1"; node_name := "Page 1";
                           node_type := "CANVAS";
                           children := Some (map (fun i =>
                             {| node_id := "2:" ++ decimal i; node_name := "Frame";
                                node_type := "FRAME"; children := None;
                                absoluteBoundingBox := box 100 100 |}) (seq 0 n));
                           absoluteBoundingBox := None |} ];
     absoluteBoundingBox := None |}.

(** A frame without area. *)
Definition emptyFrame : FigmaNode :=
  {| node_id := "1:2"; node_name := "Hero"; node_type := "FRAME";
     children := Some [];
     absoluteBoundingBox := Some (mkBBox 0 0 0 (100 # 1)) |}.

Definition spacingLarge : FigmaVariable :=
  {| var_id := "VariableID:1:10"; var_name := "Spacing/Large"; var_key := "a1";
     variableCollectionId := "VariableCollectionId:1:1"; resolvedType := FLOAT;
     valuesByMode := [("1:0", JNumber 24)] |}.

Definition iconSize : FigmaVariable :=
  {| var_id := "VariableID:1:11"; var_name := "Icon Size"; var_key := "a2";
     variableCollectionId := "VariableCollectionId:1:1"; resolvedType := FLOAT;
     valuesByMode := [("1:0", JNumber 16)] |}.

Definition brandRed : FigmaVariable :=
  {| var_id := "VariableID:1:2"; var_name := "Brand/Red"; var_key := "k1";
     variableCollectionId := "VariableCollectionId:1:1"; resolvedType := COLOR;
     valuesByMode := [("1:0", JObject [("r", JNumber 1); ("g", JNumber 0);
                                       ("b", JNumber 0); ("a", JNumber (1 # 2))])] |}.

Definition fileOf (fileKey : string) : FigmaFile :=
  {| file_name := "Design"; lastModified := "2025-11-13T15:22:39Z"; version := "42";
     document := if String.eqb fileKey "wide" then siblingFrames 500 else demoDocument;
     styles := [] |}.

(** Peers that grant every request; the token endpoint grants a lifetime
    of [lifetime] seconds. *)
Definition demoPeers (lifetime : Z) : Peers :=
  {| tokenEndpoint := fun _ =>
       mkReply 250%N (Ok (mkHttpResponse 200 "OK"
         (Some {| access_token := units "figu_new"; refresh_token := units "figur_new";
                  expires_in := lifetime |})));
     filesEndpoint := fun log =>
       mkReply 300%N (Ok (mkHttpResponse 200 "OK"
         (Some (fileOf match log with
                       | GetFile _ fileKey :: _ => fileKey
                       | _ => ""
                       end))));
     variablesEndpoint := fun _ =>
       mkReply 200%N (Ok (mkHttpResponse 200 "OK"
         (Some {| meta_variables := [("VariableID:1:2", brandRed);
                                     ("VariableID:1:10", spacingLarge);
                                     ("VariableID:1:11", iconSize)] |}))) |}.

Definition demoHostWith (lifetime : Z) : Host :=
  {| ToNumber := fun _ => Js.NaN;
     isCuid := fun s => String.prefix "c" s && (8 <? String.length s)%nat &&
                        negb (Js.includes s " ");
     aes := checksumCipher;
     env := demoEnv;
     entropy := fun n => Bytes.b8 (Z.of_nat n * 37 + 11);
     newId := fun n => ("snap" ++ decimal n)%string;
     peers := demoPeers lifetime;
     spreadLimit := fun _ => 125000%N |}.

(** The provider grants 90 days. *)
Definition demoHost : Host := demoHostWith 7776000.

Definition demoProject : string := "cjld2cjxh0000qzrmn831i7rn".
Definition wideProject : string := "cjld2cjxh0001qzrmn831i7rn".

(** A store with two linked projects, a credential for each, the first
    expiring in one minute, and no snapshot; the clock shows [1000000]. *)
Definition demoDb : Db :=
  {| projects :=
       {[ demoProject := {| project_name := "Shop"; figmaFileKey := Some "file1";
                            figmaFrameId := Some "1:2" |};
          wideProject := {| project_name := "Wide"; figmaFileKey := Some "wide";
                            figmaFrameId := Some "2:0" |} ]};
     figmaCredentials :=
       [ {| cred_id := "cred1"; cred_projectId := demoProject;
            accessToken := units "figu_old"; refreshToken := units "figur_old";
            accessTokenExpiresAt := 1060000; updatedAt := 0 |};
         {| cred_id := "cred2"; cred_projectId := wideProject;
            accessToken := units "figu_wide"; refreshToken := units "figur_wide";
            accessTokenExpiresAt := 9000000; updatedAt := 0 |} ];
     baselineSnapshots := ∅ |}.

Definition demoWorld : World :=
  {| db := demoDb; now := 1000000; ambient := []; entropyUsed := 0;
     idsUsed := 0; httpLog := [] |}.

Definition demoCredential : FigmaCredential :=
  {| cred_id := "cred1"; cred_projectId := demoProject;
     accessToken := units "figu_old"; refreshToken := units "figur_old";
     accessTokenExpiresAt := 1060000; updatedAt := 0 |}.

(** Another request disconnects Figma from the project: the credential
    row is deleted. *)
Definition disconnect (projectId : string) (d : Db) : Db :=
  {| projects := projects d;
     figmaCredentials :=
       List.filter (fun c => negb (String.eqb (cred_projectId c) projectId))
                   (figmaCredentials d);
     baselineSnapshots := baselineSnapshots d |}.

(** The disconnection lands between the check of the route and the
    lookup of [getFigmaAccessToken]. *)
Definition racingWorld : World :=
  {| db := demoDb; now := 1000000;
     ambient := [Quiet; Quiet; OtherWrite (disconnect demoProject)];
     entropyUsed := 0; idsUsed := 0; httpLog := [] |}.

(** A FLOAT variable without a name. *)
Definition unnamedFloat : FigmaVariable :=
  {| var_id := "VariableID:7:1"; var_name := ""; var_key := "k7";
     variableCollectionId := "VariableCollectionId:1:1"; resolvedType := FLOAT;
     valuesByMode := [("1:0", JNumber 8)] |}.

Definition wideFrames : list FrameSummary :=
  map (fun i => {| fs_id := "2:" ++ decimal i; fs_name := "Frame";
                   fs_pageName := "Page 1"; fs_width := 100; fs_height := 100;
                   fs_depth := 1 |}) (seq 0 500).

Definition wideMeta : FramesMeta :=
  {| total := 500; meta_fileName := "Design"; fileVersion := "42"; truncated := true |}.

(** Two builds of the baseline of the project, one after the other. *)
Definition firstRun :=
  createBaselineSnapshotForProject (host := demoHost) demoProject demoWorld.
Definition secondRun :=
  createBaselineSnapshotForProject (host := demoHost) demoProject (snd firstRun).

(** A snapshot of the project and its frame stored by another request. *)
Definition otherSnapshot : BaselineSnapshot :=
  {| snap_projectId := demoProject; snap_figmaFileKey := "file1";
     snap_figmaFrameId := Some "1:2";
     snap_data := {| tokens := {| typography := ∅; colors := ∅; spacing := ∅;
                                  radii := ∅; shadows := ∅ |};
                     components := []; data_version := "41"; capturedAt := 1000100;
                     metadata := {| fileName := "Design"; frameName := "Hero";
                                    meta_lastModified := "2025-11-12T09:00:00Z" |} |};
     snap_createdAt := 1000100 |}.

Definition storeOther (d : Db) : Db :=
  {| projects := projects d; figmaCredentials := figmaCredentials d;
     baselineSnapshots := <["other" := otherSnapshot]> (baselineSnapshots d) |}.

(** A build raced by the other request: its snapshot lands after the
    lookup of the upsert, which found none, and before the insertion. *)
Definition racedWorld : World :=
  {| db := demoDb; now := 1000000;
     ambient := [Quiet; Quiet; Quiet; Quiet; Quiet; Quiet; OtherWrite storeOther];
     entropyUsed := 0; idsUsed := 0; httpLog := [] |}.

Definition racedRun :=
  createBaselineSnapshotForProject (host := demoHost) demoProject racedWorld.
Definition thirdRun :=
  createBaselineSnapshotForProject (host := demoHost) demoProject (snd racedRun).
Definition fourthRun :=
  createBaselineSnapshotForProject (host := demoHost) demoProject (snd thirdRun).

(** The summary of the frame of the demonstration document. *)
Definition heroSummary : FrameSummary :=
  {| fs_id := "1:2"; fs_name := "Hero"; fs_pageName := "Page 1";
     fs_width := 1440; fs_height := 900; fs_depth := 1 |}.

(** A second variable filed under the name of [spacingLarge]. *)
Definition spacingLargeAgain : FigmaVariable :=
  {| var_id := "VariableID:1:12"; var_name := "Spacing/Large"; var_key := "a3";
     variableCollectionId := "VariableCollectionId:1:1"; resolvedType := FLOAT;
     valuesByMode := [("1:0", JNumber 32)] |}.

(** Peers that refuse: the token endpoint answers 400, the file endpoint
    404. *)
Definition refusingPeers : Peers :=
  {| tokenEndpoint := fun _ => mkReply 250%N (Ok (mkHttpResponse 400 "Bad Request" None));
     filesEndpoint := fun _ => mkReply 300%N (Ok (mkHttpResponse 404 "Not Found" None));
     variablesEndpoint := variablesEndpoint (demoPeers 7776000) |}.

Definition refusingHost : Host :=
  {| ToNumber := ToNumber demoHost; isCuid := isCuid demoHost; aes := aes demoHost;
     env := env demoHost; entropy := entropy demoHost; newId := newId demoHost;
     peers := refusingPeers; spreadLimit := spreadLimit demoHost |}.

(** Peers whose file endpoint answers 304. *)
Definition notModifiedPeers : Peers :=
  {| tokenEndpoint := tokenEndpoint (demoPeers 7776000);
     filesEndpoint := fun _ => mkReply 300%N (Ok (mkHttpResponse 304 "Not Modified" None));
     variablesEndpoint := variablesEndpoint (demoPeers 7776000) |}.

Definition notModifiedHost : Host :=
  {| ToNumber := ToNumber demoHost; isCuid := isCuid demoHost; aes := aes demoHost;
     env := env demoHost; entropy := entropy demoHost; newId := newId demoHost;
     peers := notModifiedPeers; spreadLimit := spreadLimit demoHost |}.

(** An engine whose calls take no argument at all: every [push] of a
    list that is not empty throws. *)
Definition tightHost : Host :=
  {| ToNumber := ToNumber demoHost; isCuid := isCuid demoHost; aes := aes demoHost;
     env := env demoHost; entropy := entropy demoHost; newId := newId demoHost;
     peers := peers demoHost; spreadLimit := fun _ => 0%N |}.

(** The binary64 number nearest to 1/30, written [0.03333333333333333]. *)
Definition thirtieth : Q := 4803839602528529 # 144115188075855872.

Definition nearBlack : FigmaVariable :=
  {| var_id := "VariableID:1:3"; var_name := "Near Black"; var_key := "k2";
     variableCollectionId := "VariableCollectionId:1:1"; resolvedType := COLOR;
     valuesByMode := [("1:0", JObject [("r", JNumber thirtieth); ("g", JNumber 0);
                                       ("b", JNumber 0); ("a", JNumber 1)])] |}.

(** The host with no [ENCRYPTION_KEY]. *)
Definition plainHost : Host :=
  {| ToNumber := ToNumber demoHost; isCuid := isCuid demoHost; aes := aes demoHost;
     env := {| ENCRYPTION_KEY := None; FIGMA_CLIENT_ID := Some "client-id";
               FIGMA_CLIENT_SECRET := Some "client-secret" |};
     entropy := entropy demoHost; newId := newId demoHost; peers := peers demoHost;
     spreadLimit := spreadLimit demoHost |}.

Definition wideCredential : FigmaCredential :=
  {| cred_id := "cred2"; cred_projectId := wideProject;
     accessToken := units "figu_wide"; refreshToken := units "figur_wide";
     accessTokenExpiresAt := 9000000; updatedAt := 0 |}.

(** A member of the organisation selects the button and asks for a
    baseline. *)
Definition selectButton : PutRequest :=
  {| session_user_id := Some "user1"; params_id := demoProject;
     request_json := Ok (JObject [("figmaFrameId", JString "1:3");
                                    ("createBaseline", JBool true)]) |}.

Definition everyoneIsMember (userId projectId : string) : nat := 1%nat.

(** * Properties *)

(** ** Primitives and the traversal of the document *)

Module JsFacts.

Import Js.

Lemma Qltb_lt a b : Qltb a b = true <-> (a < b)%Q.
Proof.
  unfold Qltb. rewrite negb_true_iff. split.
  - intros H. apply Qnot_le_lt. intros Hle.
    apply Qle_bool_iff in Hle. congruence.
  - intros H. destruct (Qle_bool b a) eqn:E; [|reflexivity].
    apply Qle_bool_iff in E. exfalso. exact (Qlt_not_le _ _ H E).
Qed.

Lemma roundHalfEven_le q N : (q <= inject_Z N)%Q -> roundHalfEven q <= N.
Proof.
  intros Hq. unfold roundHalfEven.
  pose proof (Qfloor_resp_le _ _ Hq) as Hf. rewrite Qfloor_Z in Hf.
  pose proof (Qfloor_le q) as Hle.
  destruct (Qcompare_spec (q - inject_Z (Qfloor q)) (1 # 2)) as [H|H|H].
  - destruct (Z.eq_dec (Qfloor q) N) as [E|E]; [rewrite E in H; lra|].
    destruct (Z.even _); lia.
  - lia.
  - destruct (Z.eq_dec (Qfloor q) N) as [E|E]; [rewrite E in H; lra | lia].
Qed.

Lemma roundHalfEven_nonneg q : (0 <= q)%Q -> 0 <= roundHalfEven q.
Proof.
  intros Hq. unfold roundHalfEven.
  pose proof (Qfloor_resp_le _ _ Hq) as Hf. change (Qfloor 0) with 0 in Hf.
  destruct (Qcompare (q - inject_Z (Qfloor q)) (1 # 2));
    [destruct (Z.even _)| |]; lia.
Qed.

Lemma lastDigit_small q : (0 < q)%Q -> (q <= 255)%Q -> lastDigit q <= 0.
Proof.
  intros Hpos Hq. unfold lastDigit. apply Z.max_lub; [|lia].
  enough (Qlog2 q <= 8) by lia. unfold Qlog2.
  set (l := Z.log2 (Qnum q) - Z.log2 (Z.pos (Qden q))).
  assert (Hl : l <= 8); [|destruct (Qle_bool _ _); lia].
  destruct q as [n d]. unfold Qlt, Qle in Hpos, Hq. cbn in Hpos, Hq.
  cbn [Qnum Qden] in l. subst l.
  assert (Hn : n <= Z.pos d * 2 ^ 8) by lia.
  apply Z.log2_le_mono in Hn. rewrite Z.log2_mul_pow2 in Hn by lia. lia.
Qed.

Lemma Qabs_nonneg_eq q : (0 <= q)%Q -> Qabs q = q.
Proof.
  destruct q as [n d]. unfold Qle. cbn. intros H. f_equal. apply Z.abs_eq. lia.
Qed.

(** Rounding to binary64 keeps a number between 0 and 255 there: both
    bounds are binary64 numbers. *)
Lemma round64_channel x : (0 <= x <= 255)%Q -> (0 <= round64 x <= 255)%Q.
Proof.
  intros [H0 H1]. unfold round64.
  destruct (Qeq_bool x 0) eqn:E; [lra|].
  apply Qeq_bool_neq in E. rewrite Qabs_nonneg_eq by exact H0.
  assert (Hpos : (0 < x)%Q) by lra.
  pose proof (lastDigit_small x Hpos H1) as He.
  set (e := lastDigit x) in *.
  assert (HP : (0 < 2 ^ e)%Q) by (apply Qpower_0_lt; lra).
  assert (HK : (inject_Z (2 ^ (- e)) * 2 ^ e == 1)%Q).
  { rewrite Zpower_Qpower by lia. rewrite Qpower_opp.
    change (inject_Z 2) with 2%Q. field. lra. }
  set (P := (2 ^ e)%Q) in *. set (K := (2 ^ (- e))%Z) in *.
  assert (Hdiv : (x / P <= inject_Z (255 * K))%Q).
  { rewrite inject_Z_mult. apply Qle_shift_div_r; [exact HP|].
    change (inject_Z 255) with 255%Q. nra. }
  pose proof (roundHalfEven_le _ _ Hdiv) as Hm.
  assert (Hm0 : 0 <= roundHalfEven (x / P)).
  { apply roundHalfEven_nonneg. apply Qle_shift_div_l; [exact HP | lra]. }
  set (m := roundHalfEven (x / P)) in *.
  assert (HmQ : (inject_Z m <= inject_Z 255 * inject_Z K)%Q).
  { rewrite <- (inject_Z_mult 255 K). rewrite <- Zle_Qle. exact Hm. }
  change (inject_Z 255) with 255%Q in HmQ.
  assert (Hm0Q : (0 <= inject_Z m)%Q)
    by (change 0%Q with (inject_Z 0); now rewrite <- Zle_Qle).
  split; nra.
Qed.

Lemma binary64_channel x :
  (0 <= x <= 255)%Q -> binary64 x = Finite (round64 x).
Proof.
  intros Hx. pose proof (round64_channel x Hx) as [H0 H1]. unfold binary64.
  assert (Hbig : (255 < 2 ^ 1024)%Q) by reflexivity.
  destruct (Qle_bool (2 ^ 1024) (round64 x)) eqn:E1.
  { apply Qle_bool_iff in E1. lra. }
  destruct (Qle_bool (round64 x) (- 2 ^ 1024)) eqn:E2.
  { apply Qle_bool_iff in E2. lra. }
  reflexivity.
Qed.

Lemma Math_round_channel (x : Q) :
  (0 <= x <= 255)%Q -> 0 <= Math_round x <= 255.
Proof.
  intros [H0 H1]. unfold Math_round. split.
  - apply Z.le_trans with (Qfloor 0); [discriminate|].
    apply Qfloor_resp_le. lra.
  - apply Z.le_trans with (Qfloor (255 + (1 # 2))); [|discriminate].
    apply Qfloor_resp_le. lra.
Qed.

End JsFacts.

(** Induction over a node and all the nodes below it. *)
Lemma FigmaNode_tree_ind (P : FigmaNode -> Prop)
    (step : forall i n t cs b,
        (forall l, cs = Some l -> Forall P l) -> P (mkFigmaNode i n t cs b)) :
  forall node, P node.
Proof.
  fix IH 1. intros [i n t cs b]. apply step. destruct cs as [l0|].
  - assert (HF : Forall P l0).
    { induction l0 as [|c l0 IHl]; constructor; [apply IH | exact IHl]. }
    intros l E. injection E as <-. exact HF.
  - intros l E. discriminate E.
Qed.

Lemma collectFrames_eq node pageName depth frames :
  collectFrames node pageName depth frames =
  if (MAX_TRAVERSAL_DEPTH <? depth)%nat then frames
  else if (MAX_FRAMES <=? length frames)%nat then frames
  else match children node with
       | Some cs => collectChildren pageName (depth + 1) cs
                      (frames ++ ownFrame node pageName depth)
       | None => frames ++ ownFrame node pageName depth
       end.
Proof.
  destruct node as [i n t cs b]. unfold ownFrame, summaryOf. cbn [collectFrames
    node_type absoluteBoundingBox children node_id node_name].
  destruct (MAX_TRAVERSAL_DEPTH <? depth)%nat; [reflexivity|].
  destruct (MAX_FRAMES <=? length frames)%nat; [reflexivity|].
  set (fr := if String.eqb t "FRAME" then _ else _).
  set (fr' := frames ++ (if String.eqb t "FRAME" then _ else _)).
  assert (Hfr : fr = fr').
  { subst fr fr'. destruct (String.eqb t "FRAME"); [|now rewrite app_nil_r].
    destruct b as [b|]; [|now rewrite app_nil_r].
    destruct (Js.Qltb 0 (width b) && Js.Qltb 0 (height b));
      [reflexivity | now rewrite app_nil_r]. }
  rewrite Hfr. clear Hfr fr. destruct cs as [cs|]; [|reflexivity].
  generalize fr'. clear fr'. induction cs as [|c cs IH]; intros acc; [reflexivity|].
  cbn [collectChildren]. destruct (MAX_FRAMES <=? length acc)%nat; [reflexivity|].
  apply IH.
Qed.

Lemma take_app_budget {A} (k : nat) (acc xs ys : list A) :
  k = (MAX_FRAMES - length acc)%nat ->
  (acc ++ firstn k xs) ++ firstn (MAX_FRAMES - length (acc ++ firstn k xs)) ys
  = acc ++ firstn k (xs ++ ys).
Proof.
  intros ->. rewrite <- app_assoc. f_equal. rewrite firstn_app. f_equal.
  rewrite length_app, length_firstn. f_equal. lia.
Qed.

(** [collectFrames] appends to what was collected the first frames of the
    subtree, in document order, as many as the count ceiling leaves room for. *)
Lemma collectFrames_prefix node : forall pageName depth frames,
  collectFrames node pageName depth frames =
  frames ++ firstn (MAX_FRAMES - length frames) (framesInOrder node pageName depth).
Proof.
  induction node as [i n t cs b IH] using FigmaNode_tree_ind.
  intros pageName depth frames. rewrite collectFrames_eq.
  cbn [framesInOrder children].
  destruct (MAX_TRAVERSAL_DEPTH <? depth)%nat.
  { now rewrite firstn_nil, app_nil_r. }
  destruct (MAX_FRAMES <=? length frames)%nat eqn:Efull.
  { apply Nat.leb_le in Efull.
    replace (MAX_FRAMES - length frames)%nat with 0%nat by lia.
    now rewrite app_nil_r. }
  apply Nat.leb_gt in Efull.
  set (own := ownFrame _ pageName depth).
  assert (Hown : (length own <= 1)%nat).
  { subst own. unfold ownFrame. repeat (case_match; cbn; try lia). }
  assert (Hstart : frames ++ own =
            frames ++ firstn (MAX_FRAMES - length frames) own).
  { rewrite firstn_all2; [reflexivity | lia]. }
  destruct cs as [cs|].
  2:{ rewrite app_nil_r. exact Hstart. }
  specialize (IH cs eq_refl).
  rewrite Hstart. clear Hstart Hown.
  generalize own. clear own. intros own.
  revert own. induction cs as [|c cs IHcs]; intros own.
  - cbn. now rewrite app_nil_r.
  - inversion IH as [|? ? Hc Hcs]; subst. cbn [collectChildren flat_map].
    set (acc := frames ++ firstn _ own).
    destruct (MAX_FRAMES <=? length acc)%nat eqn:Efull'.
    + apply Nat.leb_le in Efull'. subst acc.
      rewrite firstn_app. rewrite length_app, length_firstn in Efull'.
      replace (MAX_FRAMES - length frames - length own)%nat with 0%nat by lia.
      now rewrite firstn_O, app_nil_r.
    + rewrite Hc. subst acc.
      rewrite (take_app_budget _ frames own _ eq_refl).
      rewrite (IHcs Hcs). now rewrite <- app_assoc.
Qed.

Lemma ownFrame_origin node pageName depth f :
  In f (ownFrame node pageName depth) ->
  qualifies node /\ f = summaryOf node pageName depth.
Proof.
  unfold ownFrame, qualifies.
  destruct (String.eqb (node_type node) "FRAME") eqn:Et; [|intros []].
  apply String.eqb_eq in Et.
  destruct (absoluteBoundingBox node) as [b|] eqn:Eb; [|intros []].
  destruct (Js.Qltb 0 (width b) && Js.Qltb 0 (height b)) eqn:Epos; [|intros []].
  apply andb_true_iff in Epos as [Hw Hh].
  apply JsFacts.Qltb_lt in Hw, Hh.
  intros [<-|[]]. split; [|reflexivity].
  split; [exact Et|]. exists b. auto.
Qed.

(** Every frame of the listing is the summary of a qualifying node of the
    subtree, found no deeper than the depth ceiling. *)
Lemma framesInOrder_origin node : forall pageName depth f,
  In f (framesInOrder node pageName depth) ->
  exists n d, nodeAt node d n /\ (depth + d <= MAX_TRAVERSAL_DEPTH)%nat /\
              qualifies n /\ f = summaryOf n pageName (depth + d).
Proof.
  induction node as [i n t cs b IH] using FigmaNode_tree_ind.
  intros pageName depth f. cbn [framesInOrder children].
  destruct (MAX_TRAVERSAL_DEPTH <? depth)%nat eqn:Ed; [intros []|].
  apply Nat.ltb_ge in Ed. rewrite in_app_iff. intros [Hown|Hsub].
  - apply ownFrame_origin in Hown as [Hq ->].
    exists (mkFigmaNode i n t cs b), 0%nat. rewrite Nat.add_0_r.
    repeat split; try assumption; try apply Hq. constructor.
  - destruct cs as [cs|]; [|destruct Hsub].
    specialize (IH cs eq_refl). apply in_flat_map in Hsub as (c & Hc & Hf).
    rewrite List.Forall_forall in IH.
    destruct (IH c Hc _ _ _ Hf) as (m & d & Hat & Hd & Hq & ->).
    exists m, (S d). repeat split; try apply Hq; try lia.
    + econstructor; [reflexivity | exact Hc | exact Hat].
    + f_equal. lia.
Qed.

Lemma extractPages_prefix pages : forall frames,
  extractPages pages frames =
  frames ++ firstn (MAX_FRAMES - length frames) (flat_map pageFrames pages).
Proof.
  induction pages as [|page rest IH]; intros frames; cbn [extractPages flat_map].
  - now rewrite firstn_nil, app_nil_r.
  - destruct (MAX_FRAMES <=? length frames)%nat eqn:Efull.
    { apply Nat.leb_le in Efull.
      replace (MAX_FRAMES - length frames)%nat with 0%nat by lia.
      now rewrite app_nil_r. }
    unfold pageFrames at 1.
    destruct (negb (String.eqb (node_type page) "CANVAS")); [apply IH|].
    rewrite IH, collectFrames_prefix.
    apply take_app_budget. reflexivity.
Qed.

Lemma extractFramesFromDocument_prefix document :
  extractFramesFromDocument document = firstn MAX_FRAMES (documentFrames document).
Proof.
  unfold extractFramesFromDocument, documentFrames.
  destruct (children document) as [pages|]; [|reflexivity].
  rewrite extractPages_prefix. reflexivity.
Qed.

Lemma documentFrames_origin document f :
  In f (documentFrames document) ->
  exists pages page n d,
    children document = Some pages /\ In page pages /\
    node_type page = "CANVAS" /\ nodeAt page d n /\
    (d <= MAX_TRAVERSAL_DEPTH)%nat /\ qualifies n /\
    f = summaryOf n (Js.or_else (node_name page) "Unnamed Page") d.
Proof.
  unfold documentFrames. destruct (children document) as [pages|]; [|intros []].
  intros Hf. apply in_flat_map in Hf as (page & Hpage & Hf).
  unfold pageFrames in Hf.
  destruct (String.eqb (node_type page) "CANVAS") eqn:Et; [|destruct Hf].
  apply String.eqb_eq in Et. cbn [negb] in Hf.
  apply framesInOrder_origin in Hf as (n & d & Hat & Hd & Hq & ->).
  exists pages, page, n, d. repeat split; try assumption; apply Hq.
Qed.

Lemma In_firstn {A} (k : nat) (l : list A) x : In x (firstn k l) -> In x l.
Proof.
  revert k; induction l as [|a l IH]; intros [|k]; cbn; try tauto.
  intros [->|H]; [now left | right; eauto].
Qed.

(** *** The traversal ceilings *)

(** C1.  Whatever the tree, [collectFrames(node, pageName)] returns at most
    500 summaries, each of them the summary of a node of the tree that lies
    no deeper than level 10 and carrying that level as its depth; a call
    made past the depth ceiling, or with the count ceiling already reached,
    returns at once what was collected; and in every case what was collected
    before is the beginning of the result.  The same bounds hold for the
    whole document walked by [extractFramesFromDocument]. *)
Theorem collectFrames_ceilings (node : FigmaNode) (pageName : string) :
  (length (collectFrames node pageName 0 []) <= MAX_FRAMES)%nat /\
  (forall f, In f (collectFrames node pageName 0 []) ->
     exists n d, nodeAt node d n /\ (d <= MAX_TRAVERSAL_DEPTH)%nat /\
                 f = summaryOf n pageName d /\ fs_depth f = d) /\
  (forall depth frames, (MAX_TRAVERSAL_DEPTH < depth)%nat ->
     collectFrames node pageName depth frames = frames) /\
  (forall depth frames, (MAX_FRAMES <= length frames)%nat ->
     collectFrames node pageName depth frames = frames) /\
  (forall depth frames, exists more,
     collectFrames node pageName depth frames = frames ++ more /\
     (length more <= MAX_FRAMES - length frames)%nat) /\
  (length (extractFramesFromDocument node) <= MAX_FRAMES)%nat /\
  (forall f, In f (extractFramesFromDocument node) ->
     (fs_depth f <= MAX_TRAVERSAL_DEPTH)%nat).
Proof.
  repeat split.
  - rewrite collectFrames_prefix. cbn [length app]. rewrite length_firstn. lia.
  - intros f Hf. rewrite collectFrames_prefix in Hf. cbn [app] in Hf.
    apply In_firstn, framesInOrder_origin in Hf as (n & d & Hat & Hd & _ & ->).
    exists n, d. cbn in Hd |- *. auto.
  - intros depth frames Hd. rewrite collectFrames_eq.
    apply Nat.ltb_lt in Hd. now rewrite Hd.
  - intros depth frames Hfull. rewrite collectFrames_eq.
    apply Nat.leb_le in Hfull. rewrite Hfull. now destruct (_ <? _)%nat.
  - intros depth frames. eexists. split; [apply collectFrames_prefix|].
    rewrite length_firstn. lia.
  - rewrite extractFramesFromDocument_prefix, length_firstn. lia.
  - intros f Hf. rewrite extractFramesFromDocument_prefix in Hf.
    apply In_firstn, documentFrames_origin in Hf
      as (pages & page & n & d & _ & _ & _ & _ & Hd & _ & ->).
    exact Hd.
Qed.

(** *** Frames without a positive area *)

(** C6.  A node of type FRAME whose bounding box is missing, or has width
    0, or has height 0, adds nothing itself: the call returns what the loop
    over its children alone returns (or what was collected, when a ceiling
    stops the call), and raises nothing.  And every summary in a result is
    the summary of a FRAME node carrying a bounding box of strictly
    positive width and height. *)
Theorem collectFrames_skips_empty_frames
    (node : FigmaNode) (pageName : string) (depth : nat)
    (frames : list FrameSummary) :
  node_type node = "FRAME" ->
  (absoluteBoundingBox node = None \/
   exists b, absoluteBoundingBox node = Some b /\
             ((width b == 0)%Q \/ (height b == 0)%Q)) ->
  collectFrames node pageName depth frames =
    (if (MAX_TRAVERSAL_DEPTH <? depth)%nat then frames
     else if (MAX_FRAMES <=? length frames)%nat then frames
     else match children node with
          | Some cs => collectChildren pageName (depth + 1) cs frames
          | None => frames
          end) /\
  (forall root page f, In f (collectFrames root page 0 []) ->
     exists n d, nodeAt root d n /\ qualifies n /\ f = summaryOf n page d).
Proof.
  intros Ht Hbox. split.
  - rewrite collectFrames_eq.
    assert (Hown : ownFrame node pageName depth = []).
    { unfold ownFrame. rewrite Ht. cbn.
      destruct Hbox as [->|(b & -> & Hz)]; [reflexivity|].
      assert (Hneg : Js.Qltb 0 (width b) && Js.Qltb 0 (height b) = false).
      { apply andb_false_iff.
        destruct Hz as [Hz|Hz]; [left|right];
          (apply not_true_is_false; intros Hlt; apply JsFacts.Qltb_lt in Hlt;
           rewrite Hz in Hlt; exact (Qlt_irrefl 0 Hlt)). }
      now rewrite Hneg. }
    rewrite Hown, app_nil_r. reflexivity.
  - intros root page f Hf. rewrite collectFrames_prefix in Hf. cbn [app] in Hf.
    apply In_firstn, framesInOrder_origin in Hf as (n & d & Hat & _ & Hq & ->).
    exists n, d. auto.
Qed.

Lemma collectFrames_skips_empty_frames_witness :
  node_type emptyFrame = "FRAME" /\
  (exists b, absoluteBoundingBox emptyFrame = Some b /\ (width b == 0)%Q) /\
  collectFrames emptyFrame "Page 1" 0 [] = [].
Proof.
  split; [reflexivity|]. split.
  - exists (mkBBox 0 0 0 (100 # 1)). split; reflexivity.
  - apply (collectFrames_skips_empty_frames emptyFrame "Page 1" 0 []).
    + reflexivity.
    + right. exists (mkBBox 0 0 0 (100 # 1)). split; [reflexivity|].
      left. reflexivity.
Defined.

(** ** Bytes, UTF-8 and hexadecimal text *)

Module BytesFacts.

Import Bytes.

Lemma to_Z_range b : 0 <= to_Z b < 256.
Proof.
  unfold to_Z. pose proof (Byte.to_N_bounded b). lia.
Qed.

Lemma to_Z_b8 z : 0 <= z < 256 -> to_Z (b8 z) = z.
Proof.
  intros Hz. unfold b8, to_Z. rewrite Z.mod_small by lia.
  destruct (Byte.of_N (Z.to_N z)) as [b|] eqn:E.
  - apply Byte.to_of_N in E. rewrite E. lia.
  - apply Byte.of_N_None_iff in E. lia.
Qed.

Lemma b8_to_Z b : b8 (to_Z b) = b.
Proof.
  unfold b8, to_Z. pose proof (Byte.to_N_bounded b).
  rewrite Z.mod_small by lia. rewrite N2Z.id, Byte.of_to_N. reflexivity.
Qed.

Lemma to_Z_inj a b : to_Z a = to_Z b -> a = b.
Proof. intros H. rewrite <- (b8_to_Z a), <- (b8_to_Z b). now rewrite H. Qed.

End BytesFacts.

Module UtfFacts.

Import Utf.

Lemma decode_one b0 t0 :
  Bytes.to_Z b0 < 0x80 ->
  decodeCodePoints (b0 :: t0) = Bytes.to_Z b0 :: decodeCodePoints t0.
Proof.
  intros H. cbn [decodeCodePoints]. apply Z.ltb_lt in H. now rewrite H.
Qed.

Lemma decode_two b0 b1 t1 :
  0xC2 <= Bytes.to_Z b0 <= 0xDF -> cont (Bytes.to_Z b1) = true ->
  decodeCodePoints (b0 :: b1 :: t1) =
  ((Bytes.to_Z b0 - 0xC0) * 64 + (Bytes.to_Z b1 - 0x80)) :: decodeCodePoints t1.
Proof.
  intros [H0 H1] Hc. cbn [decodeCodePoints].
  replace (Bytes.to_Z b0 <? 0x80) with false by (symmetry; apply Z.ltb_ge; lia).
  apply Z.leb_le in H0, H1. now rewrite H0, H1, Hc.
Qed.

Lemma decode_three b0 b1 b2 t2 :
  0xE0 <= Bytes.to_Z b0 <= 0xEF ->
  second3 (Bytes.to_Z b0) (Bytes.to_Z b1) = true ->
  cont (Bytes.to_Z b2) = true ->
  decodeCodePoints (b0 :: b1 :: b2 :: t2) =
  ((Bytes.to_Z b0 - 0xE0) * 4096 + (Bytes.to_Z b1 - 0x80) * 64 +
   (Bytes.to_Z b2 - 0x80)) :: decodeCodePoints t2.
Proof.
  intros [H0 H1] Hs Hc. cbn [decodeCodePoints].
  replace (Bytes.to_Z b0 <? 0x80) with false by (symmetry; apply Z.ltb_ge; lia).
  replace (0xC2 <=? Bytes.to_Z b0) with true by (symmetry; apply Z.leb_le; lia).
  replace (Bytes.to_Z b0 <=? 0xDF) with false by (symmetry; apply Z.leb_gt; lia).
  apply Z.leb_le in H0, H1. cbn [andb]. now rewrite H0, H1, Hs, Hc.
Qed.

Lemma decode_four b0 b1 b2 b3 t3 :
  0xF0 <= Bytes.to_Z b0 <= 0xF4 ->
  second4 (Bytes.to_Z b0) (Bytes.to_Z b1) = true ->
  cont (Bytes.to_Z b2) = true -> cont (Bytes.to_Z b3) = true ->
  decodeCodePoints (b0 :: b1 :: b2 :: b3 :: t3) =
  ((Bytes.to_Z b0 - 0xF0) * 262144 + (Bytes.to_Z b1 - 0x80) * 4096 +
   (Bytes.to_Z b2 - 0x80) * 64 + (Bytes.to_Z b3 - 0x80)) :: decodeCodePoints t3.
Proof.
  intros [H0 H1] Hs Hc2 Hc3. cbn [decodeCodePoints].
  replace (Bytes.to_Z b0 <? 0x80) with false by (symmetry; apply Z.ltb_ge; lia).
  replace (0xC2 <=? Bytes.to_Z b0) with true by (symmetry; apply Z.leb_le; lia).
  replace (Bytes.to_Z b0 <=? 0xDF) with false by (symmetry; apply Z.leb_gt; lia).
  replace (0xE0 <=? Bytes.to_Z b0) with true by (symmetry; apply Z.leb_le; lia).
  replace (Bytes.to_Z b0 <=? 0xEF) with false by (symmetry; apply Z.leb_gt; lia).
  apply Z.leb_le in H0, H1. cbn [andb]. now rewrite H0, H1, Hs, Hc2, Hc3.
Qed.

Lemma cont_low6 z : 0 <= z < 64 -> cont (Bytes.to_Z (Bytes.b8 (0x80 + z))) = true.
Proof.
  intros Hz. rewrite BytesFacts.to_Z_b8 by lia. unfold cont.
  apply andb_true_iff; split; apply Z.leb_le; lia.
Qed.

Lemma decode_encodeCodePoint c rest :
  isScalar c ->
  decodeCodePoints (encodeCodePoint c ++ rest) = c :: decodeCodePoints rest.
Proof.
  intros Hc. unfold encodeCodePoint, isScalar in *.
  destruct (Z.ltb_spec c 0x80); [|destruct (Z.ltb_spec c 0x800);
    [|destruct (Z.ltb_spec c 0x10000)]]; cbn [app].
  - rewrite decode_one; rewrite BytesFacts.to_Z_b8 by lia; [reflexivity | lia].
  - assert (0 <= c / 64 < 32) by (split; [apply Z.div_pos | apply Z.div_lt_upper_bound]; lia).
    assert (2 <= c / 64) by (apply Z.div_le_lower_bound; lia).
    pose proof (Z.mod_pos_bound c 64 ltac:(lia)).
    rewrite decode_two.
    + rewrite !BytesFacts.to_Z_b8 by lia. f_equal.
      pose proof (Z.div_mod c 64 ltac:(lia)). lia.
    + rewrite BytesFacts.to_Z_b8 by lia. lia.
    + apply cont_low6. lia.
  - assert (0 <= c / 4096 < 16) by (split; [apply Z.div_pos | apply Z.div_lt_upper_bound]; lia).
    pose proof (Z.mod_pos_bound c 64 ltac:(lia)).
    pose proof (Z.mod_pos_bound (c / 64) 64 ltac:(lia)).
    pose proof (Z.div_mod c 64 ltac:(lia)).
    pose proof (Z.div_mod (c / 64) 64 ltac:(lia)).
    assert (Hdd : c / 64 / 64 = c / 4096) by (rewrite Z.div_div by lia; reflexivity).
    rewrite decode_three.
    + rewrite !BytesFacts.to_Z_b8 by lia. f_equal. lia.
    + rewrite BytesFacts.to_Z_b8 by lia. lia.
    + rewrite !BytesFacts.to_Z_b8 by lia. unfold second3.
      apply andb_true_iff; split; apply Z.leb_le.
      * destruct (Z.eqb_spec (0xE0 + c / 4096) 0xE0); lia.
      * destruct (Z.eqb_spec (0xE0 + c / 4096) 0xED); lia.
    + apply cont_low6. lia.
  - assert (0 <= c / 262144 < 5) by (split; [apply Z.div_pos | apply Z.div_lt_upper_bound]; lia).
    pose proof (Z.mod_pos_bound c 64 ltac:(lia)).
    pose proof (Z.mod_pos_bound (c / 64) 64 ltac:(lia)).
    pose proof (Z.mod_pos_bound (c / 4096) 64 ltac:(lia)).
    pose proof (Z.div_mod c 64 ltac:(lia)).
    pose proof (Z.div_mod (c / 64) 64 ltac:(lia)).
    pose proof (Z.div_mod (c / 4096) 64 ltac:(lia)).
    assert (Hdd : c / 64 / 64 = c / 4096) by (rewrite Z.div_div by lia; reflexivity).
    assert (Hddd : c / 4096 / 64 = c / 262144) by (rewrite Z.div_div by lia; reflexivity).
    rewrite decode_four.
    + rewrite !BytesFacts.to_Z_b8 by lia. f_equal. lia.
    + rewrite BytesFacts.to_Z_b8 by lia. lia.
    + rewrite !BytesFacts.to_Z_b8 by lia. unfold second4.
      apply andb_true_iff; split; apply Z.leb_le.
      * destruct (Z.eqb_spec (0xF0 + c / 262144) 0xF0); lia.
      * destruct (Z.eqb_spec (0xF0 + c / 262144) 0xF4); lia.
    + apply cont_low6. lia.
    + apply cont_low6. lia.
Qed.

Lemma decode_encode_all cps :
  Forall isScalar cps ->
  decodeCodePoints (flat_map encodeCodePoint cps) = cps.
Proof.
  induction 1 as [|c cps Hc _ IH]; [reflexivity|].
  cbn [flat_map]. rewrite decode_encodeCodePoint by exact Hc. now rewrite IH.
Qed.

Lemma surrogate_bools u :
  isHigh u = true -> isLow u = false.
Proof.
  unfold isHigh, isLow. intros H. apply andb_true_iff in H as [H1 H2].
  apply Z.leb_le in H1, H2. apply andb_false_iff. left. apply Z.leb_gt. lia.
Qed.

(** On a well-formed string the code points are scalar values and give the
    string back. *)
Lemma toCodePoints_wellFormed (n : nat) : forall s,
  (length s <= n)%nat -> isWellFormed s = true ->
  Forall isScalar (toCodePoints s) /\
  flat_map fromCodePoint (toCodePoints s) = s.
Proof.
  induction n as [|n IH]; intros s Hn Hwf.
  { destruct s; [split; [constructor | reflexivity] | cbn in Hn; lia]. }
  destruct s as [|u t]; [split; [constructor | reflexivity]|].
  cbn [isWellFormed] in Hwf. cbn [length] in Hn.
  apply andb_true_iff in Hwf as [Hrange Hrest].
  apply andb_true_iff in Hrange as [Hr0 Hr1]. apply Z.leb_le in Hr0, Hr1.
  destruct (isHigh u) eqn:Ehi.
  - destruct t as [|lo rest]; [discriminate|].
    apply andb_true_iff in Hrest as [Hlo Hrest].
    cbn [toCodePoints]. rewrite Ehi, Hlo. cbn [andb flat_map].
    destruct (IH rest ltac:(cbn [length] in Hn; lia) Hrest) as [IHs IHr].
    unfold isHigh, isLow in Ehi, Hlo.
    apply andb_true_iff in Ehi as [E1 E2], Hlo as [L1 L2].
    apply Z.leb_le in E1, E2, L1, L2. split.
    + constructor; [|exact IHs]. right. lia.
    + rewrite IHr. unfold fromCodePoint.
      replace (_ <? 0x10000) with false by (symmetry; apply Z.ltb_ge; lia).
      cbn [app]. f_equal; [|f_equal].
      * replace (0x10000 + (u - 0xD800) * 0x400 + (lo - 0xDC00) - 0x10000)
          with ((lo - 0xDC00) + (u - 0xD800) * 0x400) by lia.
        rewrite Z.div_add by lia. rewrite Z.div_small by lia. lia.
      * replace (0x10000 + (u - 0xD800) * 0x400 + (lo - 0xDC00) - 0x10000)
          with ((lo - 0xDC00) + (u - 0xD800) * 0x400) by lia.
        rewrite Z.mod_add by lia. rewrite Z.mod_small by lia. lia.
  - apply andb_true_iff in Hrest as [Hnl Hrest]. apply negb_true_iff in Hnl.
    destruct (IH t ltac:(lia) Hrest) as [IHs IHr].
    assert (Hsc : isScalar u).
    { unfold isHigh, isLow in Ehi, Hnl. unfold isScalar.
      apply andb_false_iff in Ehi, Hnl.
      destruct Ehi as [E|E], Hnl as [L|L];
        try apply Z.leb_gt in E; try apply Z.leb_gt in L; lia. }
    assert (Hone : fromCodePoint u = [u]).
    { unfold fromCodePoint.
      replace (u <? 0x10000) with true by (symmetry; apply Z.ltb_lt; lia).
      reflexivity. }
    destruct t as [|lo rest].
    + cbn [toCodePoints]. rewrite Ehi, Hnl. cbn [orb flat_map].
      rewrite Hone. split; [constructor; [exact Hsc | constructor] | reflexivity].
    + assert (Hstep : toCodePoints (u :: lo :: rest) = u :: toCodePoints (lo :: rest)).
      { change (toCodePoints (u :: lo :: rest)) with
          (if isHigh u && isLow lo
           then (0x10000 + (u - 0xD800) * 0x400 + (lo - 0xDC00)) :: toCodePoints rest
           else (if isHigh u || isLow u then 0xFFFD else u) :: toCodePoints (lo :: rest)).
        rewrite Ehi, Hnl. reflexivity. }
      rewrite Hstep. cbn [flat_map]. rewrite Hone, IHr.
      split; [constructor; assumption | reflexivity].
Qed.

(** Converting a well-formed string to UTF-8 and back gives the string. *)
Lemma utf8Decode_utf8Encode s :
  isWellFormed s = true -> utf8Decode (utf8Encode s) = s.
Proof.
  intros Hwf. unfold utf8Decode, utf8Encode.
  destruct (toCodePoints_wellFormed (length s) s (le_n _) Hwf) as [Hs Hr].
  rewrite decode_encode_all by exact Hs. exact Hr.
Qed.

(** On any string the code points are scalar values, and written back in
    UTF-16 they give the string with its lone surrogates replaced. *)
Lemma replaced_scalar u :
  isCodeUnit u ->
  let c := if isHigh u || isLow u then 0xFFFD else u in
  isScalar c /\ fromCodePoint c = [c].
Proof.
  intros Hu c. subst c. unfold isCodeUnit in Hu.
  destruct (isHigh u || isLow u) eqn:E.
  - split; [right; lia | reflexivity].
  - apply orb_false_iff in E as [Ehi Elo]. unfold isHigh, isLow in Ehi, Elo.
    apply andb_false_iff in Ehi, Elo. split.
    + unfold isScalar.
      destruct Ehi as [E|E], Elo as [L|L];
        try apply Z.leb_gt in E; try apply Z.leb_gt in L; lia.
    + unfold fromCodePoint.
      replace (u <? 0x10000) with true by (symmetry; apply Z.ltb_lt; lia).
      reflexivity.
Qed.

Lemma toCodePoints_any (n : nat) : forall s,
  (length s <= n)%nat -> Forall isCodeUnit s ->
  Forall isScalar (toCodePoints s) /\
  flat_map fromCodePoint (toCodePoints s) = toWellFormed s.
Proof.
  induction n as [|n IH]; intros s Hn Hs.
  { destruct s; [split; [constructor | reflexivity] | cbn in Hn; lia]. }
  destruct s as [|u t]; [split; [constructor | reflexivity]|].
  cbn [length] in Hn. inversion Hs as [|? ? Hu Ht]; subst.
  destruct (replaced_scalar u Hu) as [Hsc Hone].
  destruct t as [|lo rest].
  { cbn [toCodePoints toWellFormed flat_map]. rewrite Hone.
    split; [constructor; [exact Hsc | constructor] | reflexivity]. }
  change (toCodePoints (u :: lo :: rest)) with
    (if isHigh u && isLow lo
     then (0x10000 + (u - 0xD800) * 0x400 + (lo - 0xDC00)) :: toCodePoints rest
     else (if isHigh u || isLow u then 0xFFFD else u) :: toCodePoints (lo :: rest)).
  change (toWellFormed (u :: lo :: rest)) with
    (if isHigh u && isLow lo then u :: lo :: toWellFormed rest
     else (if isHigh u || isLow u then 0xFFFD else u) :: toWellFormed (lo :: rest)).
  destruct (isHigh u && isLow lo) eqn:Epair.
  - apply andb_true_iff in Epair as [Ehi Elo].
    inversion Ht as [|? ? _ Hrest]; subst.
    destruct (IH rest ltac:(cbn [length] in Hn; lia) Hrest) as [IHs IHr].
    unfold isHigh, isLow in Ehi, Elo.
    apply andb_true_iff in Ehi as [E1 E2], Elo as [L1 L2].
    apply Z.leb_le in E1, E2, L1, L2. split.
    + constructor; [|exact IHs]. right. lia.
    + cbn [flat_map]. rewrite IHr. unfold fromCodePoint.
      replace (_ <? 0x10000) with false by (symmetry; apply Z.ltb_ge; lia).
      cbn [app]. f_equal; [|f_equal].
      * replace (0x10000 + (u - 0xD800) * 0x400 + (lo - 0xDC00) - 0x10000)
          with ((lo - 0xDC00) + (u - 0xD800) * 0x400) by lia.
        rewrite Z.div_add by lia. rewrite Z.div_small by lia. lia.
      * replace (0x10000 + (u - 0xD800) * 0x400 + (lo - 0xDC00) - 0x10000)
          with ((lo - 0xDC00) + (u - 0xD800) * 0x400) by lia.
        rewrite Z.mod_add by lia. rewrite Z.mod_small by lia. lia.
  - destruct (IH (lo :: rest) ltac:(lia) Ht) as [IHs IHr].
    cbn [flat_map]. rewrite Hone, IHr.
    split; [constructor; assumption | reflexivity].
Qed.

(** Converting any string to UTF-8 and back replaces its lone surrogates. *)
Lemma utf8Decode_utf8Encode_any s :
  Forall isCodeUnit s -> utf8Decode (utf8Encode s) = toWellFormed s.
Proof.
  intros Hs. unfold utf8Decode, utf8Encode.
  destruct (toCodePoints_any (length s) s (le_n _) Hs) as [Hsc Hr].
  rewrite decode_encode_all by exact Hsc. exact Hr.
Qed.

Lemma wellFormed_codeUnits (n : nat) : forall s,
  (length s <= n)%nat -> isWellFormed s = true -> Forall isCodeUnit s.
Proof.
  induction n as [|n IH]; intros s Hn Hwf.
  { destruct s; [constructor | cbn in Hn; lia]. }
  destruct s as [|u t]; [constructor|].
  cbn [isWellFormed] in Hwf. cbn [length] in Hn.
  apply andb_true_iff in Hwf as [Hrange Hrest].
  apply andb_true_iff in Hrange as [Hr0 Hr1]. apply Z.leb_le in Hr0, Hr1.
  assert (Hu : isCodeUnit u) by (unfold isCodeUnit; lia).
  destruct (isHigh u).
  - destruct t as [|lo rest]; [discriminate|].
    apply andb_true_iff in Hrest as [Hlo Hrest].
    constructor; [exact Hu|]. constructor.
    + unfold isLow in Hlo. apply andb_true_iff in Hlo as [L1 L2].
      apply Z.leb_le in L1, L2. unfold isCodeUnit. lia.
    + apply IH; [cbn [length] in Hn; lia | exact Hrest].
  - apply andb_true_iff in Hrest as [_ Hrest].
    constructor; [exact Hu | apply IH; [lia | exact Hrest]].
Qed.

(** A well-formed string has no surrogate to replace. *)
Lemma toWellFormed_wellFormed s : isWellFormed s = true -> toWellFormed s = s.
Proof.
  intros Hwf.
  rewrite <- (utf8Decode_utf8Encode_any s)
    by exact (wellFormed_codeUnits (length s) s (le_n _) Hwf).
  apply utf8Decode_utf8Encode. exact Hwf.
Qed.

End UtfFacts.

Module HexFacts.

Import Hex.

Lemma value_digit n : 0 <= n < 16 -> value (digit n) = Some n.
Proof.
  intros Hn. unfold value, digit.
  destruct (Z.ltb_spec n 10).
  - replace (48 <=? 48 + n) with true by (symmetry; apply Z.leb_le; lia).
    replace (48 + n <=? 57) with true by (symmetry; apply Z.leb_le; lia).
    cbn [andb]. f_equal. lia.
  - replace (87 + n <=? 57) with false by (symmetry; apply Z.leb_gt; lia).
    rewrite andb_false_r.
    replace (97 <=? 87 + n) with true by (symmetry; apply Z.leb_le; lia).
    replace (87 + n <=? 102) with true by (symmetry; apply Z.leb_le; lia).
    cbn [andb]. f_equal. lia.
Qed.

Lemma decode_encode bs : decode (encode bs) = bs.
Proof.
  induction bs as [|b bs IH]; [reflexivity|].
  cbn [encode flat_map app]. fold (encode bs). cbn [decode].
  pose proof (BytesFacts.to_Z_range b) as Hb.
  rewrite !value_digit.
  - rewrite IH. f_equal.
    transitivity (Bytes.b8 (Bytes.to_Z b)); [|apply BytesFacts.b8_to_Z]. f_equal.
    pose proof (Z.div_mod (Bytes.to_Z b) 16 ltac:(lia)). lia.
  - apply Z.mod_pos_bound. lia.
  - split; [apply Z.div_pos | apply Z.div_lt_upper_bound]; lia.
Qed.

Lemma length_encode bs : length (encode bs) = (2 * length bs)%nat.
Proof.
  induction bs as [|b bs IH]; [reflexivity|].
  cbn [encode flat_map app length]. fold (encode bs). rewrite IH. lia.
Qed.

Lemma encode_no_colon bs : Forall (fun u => u <> 58) (encode bs).
Proof.
  induction bs as [|b bs IH]; [constructor|].
  cbn [encode flat_map app]. fold (encode bs).
  pose proof (BytesFacts.to_Z_range b) as Hb.
  assert (Hd : forall n, 0 <= n < 16 -> digit n <> 58).
  { intros n Hn. unfold digit. destruct (Z.ltb_spec n 10); lia. }
  constructor; [|constructor; [|exact IH]]; apply Hd.
  - split; [apply Z.div_pos | apply Z.div_lt_upper_bound]; lia.
  - apply Z.mod_pos_bound. lia.
Qed.

End HexFacts.

Lemma split_no_sep sep s : Forall (fun u => u <> sep) s -> split sep s = [s].
Proof.
  induction 1 as [|u s Hu _ IH]; [reflexivity|].
  cbn [split]. destruct (Z.eqb_spec u sep); [contradiction|]. now rewrite IH.
Qed.

Lemma split_app sep a b :
  Forall (fun u => u <> sep) a -> split sep (a ++ sep :: b) = a :: split sep b.
Proof.
  induction 1 as [|u s Hu _ IH]; cbn [app split].
  - now rewrite Z.eqb_refl.
  - destruct (Z.eqb_spec u sep); [contradiction|]. now rewrite IH.
Qed.

(** ** Relations kept by every step of a computation *)

Section Respects.

Variable R : World -> World -> Prop.
Hypothesis R_refl : forall w, R w w.
Hypothesis R_trans : forall a b c, R a b -> R b c -> R a c.

Lemma respects_ret {A} (a : A) : respects R (ret a).
Proof. intros w. apply R_refl. Qed.

Lemma respects_throw {A} (e : Exn) : respects R (@throw A e).
Proof. intros w. apply R_refl. Qed.

Lemma respects_lift {A} (r : Result A) : respects R (lift r).
Proof. intros w. apply R_refl. Qed.

Lemma respects_Date_now : respects R Date_now.
Proof. intros w. apply R_refl. Qed.

Lemma respects_bind {A B} (m : M A) (k : A -> M B) :
  respects R m -> (forall a, respects R (k a)) -> respects R (bind m k).
Proof.
  intros Hm Hk w. unfold bind. specialize (Hm w).
  destruct (m w) as [[a|e] w1]; cbn [snd] in *.
  - eapply R_trans; [exact Hm | apply Hk].
  - exact Hm.
Qed.

Lemma respects_try_catch {A} (m : M A) (handler : Exn -> M A) :
  respects R m -> (forall e, respects R (handler e)) -> respects R (try_catch m handler).
Proof.
  intros Hm Hh w. unfold try_catch. specialize (Hm w).
  destruct (m w) as [[a|e] w1]; cbn [snd] in *.
  - exact Hm.
  - eapply R_trans; [exact Hm | apply Hh].
Qed.

Lemma respects_json {A} (response : HttpResponse A) : respects R (json response).
Proof.
  unfold json. destruct (body response); [apply respects_ret | apply respects_throw].
Qed.

End Respects.

Lemma offline_refl w : offline w w.
Proof. split; reflexivity. Qed.

Lemma offline_trans a b c : offline a b -> offline b c -> offline a c.
Proof. intros [H1 H2] [H3 H4]. split; congruence. Qed.

Lemma calm_refl w : calm w w.
Proof. intros H. auto. Qed.

Lemma calm_trans a b c : calm a b -> calm b c -> calm a c.
Proof.
  intros H1 H2 Ha. destruct (H1 Ha) as (Hb & P1 & S1 & I1).
  destruct (H2 Hb) as (Hc & P2 & S2 & I2). repeat split; congruence.
Qed.

Lemma offline_ambientStep : respects offline ambientStep.
Proof.
  intros w. unfold ambientStep.
  destruct (ambient w) as [|[|f|message] rest]; split; reflexivity.
Qed.

Lemma offline_statement {A} (op : Db -> Result A * Db) : respects offline (statement op).
Proof. intros w. unfold statement. destruct (op (db w)). split; reflexivity. Qed.

Lemma offline_prisma {A} (op : Db -> Result A * Db) : respects offline (prisma op).
Proof.
  apply (respects_bind offline offline_trans);
    [apply offline_ambientStep | intros; apply offline_statement].
Qed.

Lemma calm_ambientStep : respects calm ambientStep.
Proof.
  intros w Ha. unfold ambientStep. rewrite Ha. cbn. auto.
Qed.

Lemma calm_statement {A} (op : Db -> Result A * Db) :
  credentialsOnly op -> respects calm (statement op).
Proof.
  intros Hop w Ha. unfold statement. specialize (Hop (db w)).
  destruct (op (db w)) as [r d]. cbn in *. tauto.
Qed.

Lemma calm_prisma {A} (op : Db -> Result A * Db) :
  credentialsOnly op -> respects calm (prisma op).
Proof.
  intros Hop. apply (respects_bind calm calm_trans);
    [apply calm_ambientStep | intros; now apply calm_statement].
Qed.

Lemma calm_fetch {A} (call : HttpCall) (endpoint : list HttpCall -> Reply A) :
  respects calm (fetch call endpoint).
Proof. intros w Ha. cbn. auto. Qed.

(** ** Properties of the program *)

Section Properties.

Context {host : Host}.

(** *** The token extractors *)

Lemma toHex_two_digits z :
  0 <= z <= 255 -> toHex (Js.IntVal z) = twoHexDigits z.
Proof.
  intros Hz.
  assert (Hall : forallb (fun n => String.eqb (toHex (Js.IntVal (Z.of_nat n)))
                                               (twoHexDigits (Z.of_nat n)))
                         (seq 0 256) = true) by (vm_compute; reflexivity).
  rewrite forallb_forall in Hall.
  specialize (Hall (Z.to_nat z)). rewrite Z2Nat.id in Hall by lia.
  apply String.eqb_eq, Hall, in_seq. lia.
Qed.

(** [(v || 0) * 255] rounded, for a numeric channel [v] between 0 and 1:
    the product is a binary64 number before [Math.round] sees it. *)
Lemma channel_of_number (q : Q) :
  (0 <= q <= 1)%Q ->
  Js.Math_round_num (channel255 (Some (JNumber q))) =
    Js.IntVal (Js.Math_round (Js.round64 (q * 255))) /\
  0 <= Js.Math_round (Js.round64 (q * 255)) <= 255.
Proof.
  intros Hq. assert (Hx : (0 <= q * 255 <= 255)%Q) by lra.
  split; [|apply JsFacts.Math_round_channel, JsFacts.round64_channel, Hx].
  unfold channel255, truthy. destruct (Qeq_bool q 0) eqn:E; cbn [negb].
  - apply Qeq_bool_eq in E. unfold Js.round64.
    replace (Qeq_bool (q * 255) 0) with true; [reflexivity|].
    symmetry. apply Qeq_bool_iff. rewrite E. reflexivity.
  - rewrite JsFacts.binary64_channel by exact Hx. reflexivity.
Qed.

Lemma extractColorTokens_snoc earlier entry :
  extractColorTokens (earlier ++ [entry]) = colorStep (extractColorTokens earlier) entry.
Proof. unfold extractColorTokens. now rewrite fold_left_app. Qed.

(** C7.  For a variable resolved to COLOR whose first mode holds the
    channels r, g, b, a as numbers in [0,1], the loop of
    [extractColorTokens] stores under the variable's name the token made
    from that first mode: each channel is [Math.round] of the product of
    the float and 255, a product that binary64 arithmetic has rounded
    first, and is an integer from 0 to 255; the opacity is a; the hex string is
    [#] followed by two hexadecimal digits for each of r, g, b and nothing
    for a.  The first mode {r:1, g:0, b:0, a:0.5} gives
    {hex: "#ff0000", rgb: {r:255, g:0, b:0}, opacity: 0.5}. *)
Theorem color_token_of_first_mode
    (id : string) (variable : FigmaVariable) (modeId : string)
    (fields : list (string * Json)) (otherModes : list (string * Json))
    (r g b a : Q) (earlier : list (string * FigmaVariable)) :
  resolvedType variable = COLOR ->
  valuesByMode variable = (modeId, JObject fields) :: otherModes ->
  assoc "r" fields = Some (JNumber r) ->
  assoc "g" fields = Some (JNumber g) ->
  assoc "b" fields = Some (JNumber b) ->
  assoc "a" fields = Some (JNumber a) ->
  (0 <= r <= 1)%Q -> (0 <= g <= 1)%Q -> (0 <= b <= 1)%Q -> (0 <= a <= 1)%Q ->
  let R := Js.Math_round (Js.round64 (r * 255)) in
  let G := Js.Math_round (Js.round64 (g * 255)) in
  let B := Js.Math_round (Js.round64 (b * 255)) in
  (0 <= R <= 255 /\ 0 <= G <= 255 /\ 0 <= B <= 255) /\
  extractColorTokens (earlier ++ [(id, variable)]) =
    Js.obj_set (extractColorTokens earlier)
      (Js.or_else (var_name variable) ("color-" ++ id))
      {| hex := "#" ++ twoHexDigits R ++ twoHexDigits G ++ twoHexDigits B;
         rgb := {| rgb_r := Js.IntVal R; rgb_g := Js.IntVal G; rgb_b := Js.IntVal B |};
         opacity := JNumber a |} /\
  colorTokenOf (JObject [("r", JNumber 1); ("g", JNumber 0); ("b", JNumber 0);
                         ("a", JNumber (1 # 2))]) =
    {| hex := "#ff0000";
       rgb := {| rgb_r := Js.IntVal 255; rgb_g := Js.IntVal 0; rgb_b := Js.IntVal 0 |};
       opacity := JNumber (1 # 2) |}.
Proof.
  intros Ht Hmodes Hr Hg Hb Ha Rr Rg Rb Ra R G B.
  destruct (channel_of_number r Rr) as [Er HR].
  destruct (channel_of_number g Rg) as [Eg HG].
  destruct (channel_of_number b Rb) as [Eb HB].
  split; [auto|]. split.
  - rewrite extractColorTokens_snoc. unfold colorStep, firstModeValue.
    rewrite Ht, Hmodes. f_equal. unfold colorTokenOf, property.
    rewrite Hr, Hg, Hb, Ha, Er, Eg, Eb. fold R G B.
    unfold rgbToHex. rewrite !toHex_two_digits by assumption. reflexivity.
  - vm_compute. reflexivity.
Qed.

Lemma isSpacing_not_proto name : isSpacing name = true -> String.eqb name "__proto__" = false.
Proof.
  intros H. destruct (String.eqb name "__proto__") eqn:E; [|reflexivity].
  apply String.eqb_eq in E. subst name. vm_compute in H. discriminate.
Qed.

Lemma spacingStep_lookup spacing id variable key :
  spacingStep spacing (id, variable) !! key =
  match resolvedType variable, firstModeValue variable with
  | FLOAT, Some (JNumber value) =>
      if isSpacing (spacingName id variable) && String.eqb (spacingName id variable) key
      then Some value else spacing !! key
  | _, _ => spacing !! key
  end.
Proof.
  unfold spacingStep. fold (spacingName id variable).
  destruct (resolvedType variable); try reflexivity.
  destruct (isSpacing (spacingName id variable)) eqn:Es; cbn [negb andb].
  2:{ destruct (firstModeValue variable) as [[]|]; reflexivity. }
  destruct (firstModeValue variable) as [[]|]; try reflexivity.
  unfold Js.obj_set. rewrite (isSpacing_not_proto _ Es).
  destruct (String.eqb (spacingName id variable) key) eqn:Ek.
  - apply String.eqb_eq in Ek. subst key. apply lookup_insert_eq.
  - apply String.eqb_neq in Ek. now apply lookup_insert_ne.
Qed.

Lemma spacing_fold_sound variables : forall spacing key value,
  fold_left spacingStep variables spacing !! key = Some value ->
  spacing !! key = Some value \/
  exists id variable, In (id, variable) variables /\ spacingEntry id variable key value.
Proof.
  induction variables as [|[id variable] rest IH]; intros spacing key value H.
  { now left. }
  cbn [fold_left] in H. apply IH in H as [H|(id' & v' & Hin & He)].
  - rewrite spacingStep_lookup in H.
    destruct (resolvedType variable) eqn:Et; try (now left).
    destruct (firstModeValue variable) as [[| | q | | |]|] eqn:Ev; try (now left).
    destruct (isSpacing (spacingName id variable)) eqn:Es; [|now left].
    destruct (String.eqb (spacingName id variable) key) eqn:Ek; [|now left].
    cbn [andb] in H. injection H as <-. apply String.eqb_eq in Ek.
    right. exists id, variable. split; [now left|].
    unfold spacingEntry. rewrite <- Ek. auto.
  - right. exists id', v'. split; [now right | exact He].
Qed.

Lemma spacing_fold_keeps variables : forall spacing key,
  is_Some (spacing !! key) -> is_Some (fold_left spacingStep variables spacing !! key).
Proof.
  induction variables as [|[id variable] rest IH]; intros spacing key H; [exact H|].
  cbn [fold_left]. apply IH. rewrite spacingStep_lookup.
  repeat case_match; eauto.
Qed.

Lemma spacing_fold_complete variables : forall spacing id variable key value,
  In (id, variable) variables -> spacingEntry id variable key value ->
  is_Some (fold_left spacingStep variables spacing !! key).
Proof.
  induction variables as [|[id0 v0] rest IH]; intros spacing id variable key value Hin He.
  { destruct Hin. }
  cbn [fold_left]. destruct Hin as [Heq|Hin].
  - injection Heq as -> ->. apply spacing_fold_keeps.
    destruct He as (Et & En & Es & Ev).
    rewrite spacingStep_lookup, Et, Ev, En, Es, String.eqb_refl. cbn. eauto.
  - eapply IH; eassumption.
Qed.

(** C8, as the code has it.  The spacing map has an entry under a key
    exactly when some variable resolved to FLOAT is filed under that key
    (its name, or [spacing-<id>] when the name is empty), the key contains
    one of spacing, space, gap, margin, padding whatever the case, and the
    first mode of the variable is a number; the entry holds the number of
    such a variable.  "Spacing/Large" with value 24 gives
    {"Spacing/Large": 24} and "Icon Size" is left out. *)
Theorem spacing_tokens_selection
    (variables : list (string * FigmaVariable)) (key : string) :
  (forall value, extractSpacingTokens variables !! key = Some value ->
     exists id variable, In (id, variable) variables /\
                         spacingEntry id variable key value) /\
  (forall id variable value, In (id, variable) variables ->
     spacingEntry id variable key value ->
     is_Some (extractSpacingTokens variables !! key)) /\
  extractSpacingTokens [("VariableID:1:10", spacingLarge); ("VariableID:1:11", iconSize)]
    = {[ "Spacing/Large" := 24%Q ]}.
Proof.
  split; [|split].
  - intros value H. apply spacing_fold_sound in H as [H|H]; [|exact H].
    rewrite lookup_empty in H. discriminate.
  - intros id variable value Hin He. eapply spacing_fold_complete; eassumption.
  - vm_compute. reflexivity.
Qed.

(** *** The cipher *)

Lemma length_split sep s : length (split sep s) = S (count_occ Z.eq_dec s sep).
Proof.
  induction s as [|u s IH]; [reflexivity|]. cbn [split count_occ].
  destruct (Z.eqb_spec u sep) as [->|Hne].
  - destruct (Z.eq_dec sep sep); [|contradiction]. cbn [length]. now rewrite IH.
  - destruct (Z.eq_dec u sep); [contradiction|].
    destruct (split sep s) as [|part parts] eqn:E; [discriminate IH|].
    cbn [length] in *. exact IH.
Qed.

Lemma decrypt_needs_two_colons encryptedData :
  count_occ Z.eq_dec encryptedData 58 <> 2%nat ->
  exists message, decrypt encryptedData = Throw (JsError message).
Proof.
  intros Hcount. unfold decrypt, decryptParts.
  destruct getEncryptionKey as [key|e]; [|eexists; reflexivity].
  pose proof (length_split 58 encryptedData) as Hlen.
  destruct (split 58 encryptedData) as [|a [|b [|c [|d rest]]]];
    try (eexists; reflexivity).
  cbn [length] in Hlen. congruence.
Qed.

Lemma no_colon s : count_occ Z.eq_dec s 58 = 0%nat -> Forall (fun u => u <> 58) s.
Proof.
  intros Hcount. apply List.Forall_forall. intros u Hin ->.
  apply (count_occ_not_In Z.eq_dec) in Hcount. contradiction.
Qed.

Lemma colons_envelopeText ivHex authTagHex ciphertext :
  count_occ Z.eq_dec (envelopeText ivHex authTagHex ciphertext) 58 =
  (2 + count_occ Z.eq_dec ivHex 58%Z + count_occ Z.eq_dec authTagHex 58%Z +
   count_occ Z.eq_dec ciphertext 58%Z)%nat.
Proof.
  unfold envelopeText. rewrite !count_occ_app. cbn [count_occ].
  destruct (Z.eq_dec 58 58); [lia | contradiction].
Qed.

Lemma split_envelopeText ivHex authTagHex ciphertext :
  Forall (fun u => u <> 58) ivHex -> Forall (fun u => u <> 58) authTagHex ->
  Forall (fun u => u <> 58) ciphertext ->
  split 58 (envelopeText ivHex authTagHex ciphertext) = [ivHex; authTagHex; ciphertext].
Proof.
  intros Ha Hb Hc. unfold envelopeText. cbn [app].
  rewrite split_app by exact Ha. rewrite split_app by exact Hb.
  now rewrite split_no_sep by exact Hc.
Qed.

Lemma split_envelope iv authTag ciphertext :
  split 58 (envelope iv authTag ciphertext) =
  [Hex.encode iv; Hex.encode authTag; Hex.encode ciphertext].
Proof.
  apply split_envelopeText; apply HexFacts.encode_no_colon.
Qed.

(** [decrypt] on a text of three fields, for a configured key: when the
    vector and the tag read as 16 bytes and the ciphertext field has an
    even length, the outcome is that of opening. *)
Lemma decrypt_envelopeText key ivHex authTagHex ciphertext :
  getEncryptionKey = Ok key ->
  Forall (fun u => u <> 58) ivHex -> Forall (fun u => u <> 58) authTagHex ->
  Forall (fun u => u <> 58) ciphertext ->
  length (Hex.decode ivHex) = IV_LENGTH ->
  length (Hex.decode authTagHex) = AUTH_TAG_LENGTH ->
  Nat.odd (length ciphertext) = false ->
  decrypt (envelopeText ivHex authTagHex ciphertext) =
  match gcm_open (aes host) key (Hex.decode ivHex) (Hex.decode authTagHex)
                 (Hex.decode ciphertext) with
  | Some plaintext => Ok (Utf.utf8Decode plaintext)
  | None => Throw (JsError
      "Decryption failed: Unsupported state or unable to authenticate data")
  end.
Proof.
  intros Hkey Ha Hb Hc Hiv Htag Heven. unfold decrypt, decryptParts.
  rewrite Hkey, split_envelopeText, Hiv, Htag, Heven by assumption.
  rewrite !Nat.eqb_refl. cbn [negb].
  destruct (gcm_open _ _ _ _ _); reflexivity.
Qed.

(** Whatever stands in the three fields, [decrypt] throws unless the tag
    field reads as 16 bytes and opening succeeds. *)
Lemma decrypt_envelopeText_throws key ivHex authTagHex ciphertext :
  getEncryptionKey = Ok key ->
  (length (Hex.decode authTagHex) = AUTH_TAG_LENGTH ->
   Nat.odd (length ciphertext) = false ->
   gcm_open (aes host) key (Hex.decode ivHex) (Hex.decode authTagHex)
            (Hex.decode ciphertext) = None) ->
  exists message,
    decrypt (envelopeText ivHex authTagHex ciphertext) = Throw (JsError message).
Proof.
  intros Hkey Hopen.
  destruct (Nat.eq_dec
              (count_occ Z.eq_dec (envelopeText ivHex authTagHex ciphertext) 58) 2%nat)
    as [Hcount|Hcount]; [|exact (decrypt_needs_two_colons _ Hcount)].
  rewrite colons_envelopeText in Hcount.
  unfold decrypt, decryptParts.
  rewrite Hkey, split_envelopeText by (apply no_colon; lia).
  destruct (negb (length (Hex.decode ivHex) =? IV_LENGTH)%nat);
    [eexists; reflexivity|].
  destruct (Nat.eqb_spec (length (Hex.decode authTagHex)) AUTH_TAG_LENGTH)
    as [Htag|_]; cbn [negb]; [|eexists; reflexivity].
  destruct (Nat.odd (length ciphertext)) eqn:Heven; [eexists; reflexivity|].
  rewrite (Hopen Htag eq_refl). eexists; reflexivity.
Qed.

Lemma odd_length_encode bs : Nat.odd (length (Hex.encode bs)) = false.
Proof.
  rewrite HexFacts.length_encode, Nat.odd_mul. reflexivity.
Qed.

(** [decrypt] on an envelope, for a configured key: the checks on the
    shape pass when the vector and the tag have 16 bytes, and the outcome
    is that of opening. *)
Lemma decrypt_envelope key iv authTag ciphertext :
  getEncryptionKey = Ok key ->
  length iv = IV_LENGTH -> length authTag = AUTH_TAG_LENGTH ->
  decrypt (envelope iv authTag ciphertext) =
  match gcm_open (aes host) key iv authTag ciphertext with
  | Some plaintext => Ok (Utf.utf8Decode plaintext)
  | None => Throw (JsError
      "Decryption failed: Unsupported state or unable to authenticate data")
  end.
Proof.
  intros Hkey Hiv Htag.
  change (envelope iv authTag ciphertext) with
    (envelopeText (Hex.encode iv) (Hex.encode authTag) (Hex.encode ciphertext)).
  rewrite (decrypt_envelopeText key);
    rewrite ?HexFacts.decode_encode;
    try apply HexFacts.encode_no_colon; try apply odd_length_encode;
    try assumption; reflexivity.
Qed.

Lemma encrypt_envelope key plaintext w :
  getEncryptionKey = Ok key ->
  let iv := map (entropy host) (seq (entropyUsed w) IV_LENGTH) in
  let sealed := gcm_seal (aes host) key iv (Utf.utf8Encode plaintext) in
  fst (encrypt plaintext w) = Ok (envelope iv (snd sealed) (fst sealed)).
Proof.
  intros Hkey iv sealed. unfold encrypt, try_catch, bind, lift, randomBytes.
  rewrite Hkey. fold iv. fold sealed. destruct sealed. reflexivity.
Qed.

(** C2, as the code has it.  With a valid 256-bit key configured,
    [encrypt(x)] returns the text [iv:authTag:ciphertext] of the vector it
    drew, and [decrypt] of that text is x with every unpaired surrogate
    replaced by U+FFFD: x itself when x is well formed.  Whatever text is
    put in place of the tag field, [decrypt] throws when the text does not
    read as the bytes of the tag; whatever text is put in place of the
    ciphertext field, [decrypt] throws when it reads as the ciphertext
    with one byte replaced by a different byte.  But a field is read as
    hexadecimal: a text that reads as the same bytes, such as the same
    digits in the other case, is accepted and decrypts to the same
    string. *)
Theorem decrypt_encrypt_roundtrip
    (plaintext : JsString) (key : list byte) (w : World) :
  getEncryptionKey = Ok key ->
  LawfulCipher (aes host) key ->
  Forall Utf.isCodeUnit plaintext ->
  let iv := map (entropy host) (seq (entropyUsed w) IV_LENGTH) in
  let sealed := gcm_seal (aes host) key iv (Utf.utf8Encode plaintext) in
  let ivHex := Hex.encode iv in
  let authTagHex := Hex.encode (snd sealed) in
  let ciphertext := Hex.encode (fst sealed) in
  fst (encrypt plaintext w) = Ok (envelopeText ivHex authTagHex ciphertext) /\
  decrypt (envelopeText ivHex authTagHex ciphertext) =
    Ok (Utf.toWellFormed plaintext) /\
  (Utf.isWellFormed plaintext = true -> Utf.toWellFormed plaintext = plaintext) /\
  (forall authTagHex', Hex.decode authTagHex' <> snd sealed ->
     exists message,
       decrypt (envelopeText ivHex authTagHex' ciphertext) = Throw (JsError message)) /\
  (forall ciphertext', changedByte (fst sealed) (Hex.decode ciphertext') ->
     exists message,
       decrypt (envelopeText ivHex authTagHex ciphertext') = Throw (JsError message)) /\
  (forall authTagHex' ciphertext',
     Hex.decode authTagHex' = snd sealed -> Hex.decode ciphertext' = fst sealed ->
     Forall (fun u => u <> 58) authTagHex' -> Forall (fun u => u <> 58) ciphertext' ->
     Nat.odd (length ciphertext') = false ->
     decrypt (envelopeText ivHex authTagHex' ciphertext') =
       Ok (Utf.toWellFormed plaintext)).
Proof.
  intros Hkey Hlaw Hunits iv sealed ivHex authTagHex ciphertext.
  assert (Hiv : length (Hex.decode ivHex) = IV_LENGTH).
  { subst ivHex iv. now rewrite HexFacts.decode_encode, length_map, length_seq. }
  assert (Htag : length (snd sealed) = AUTH_TAG_LENGTH).
  { subst sealed. apply (tag_length _ _ Hlaw). }
  assert (Hsame : forall authTagHex' ciphertext',
            Hex.decode authTagHex' = snd sealed -> Hex.decode ciphertext' = fst sealed ->
            Forall (fun u => u <> 58) authTagHex' ->
            Forall (fun u => u <> 58) ciphertext' ->
            Nat.odd (length ciphertext') = false ->
            decrypt (envelopeText ivHex authTagHex' ciphertext') =
              Ok (Utf.toWellFormed plaintext)).
  { intros authTagHex' ciphertext' Ht Hc Hnt Hnc Heven.
    rewrite (decrypt_envelopeText key); try assumption.
    - rewrite Ht, Hc. subst ivHex sealed. rewrite HexFacts.decode_encode.
      rewrite (open_sealed _ _ Hlaw).
      now rewrite UtfFacts.utf8Decode_utf8Encode_any.
    - apply HexFacts.encode_no_colon.
    - now rewrite Ht. }
  split; [apply encrypt_envelope; exact Hkey|]. split; [|split; [|split; [|split]]].
  - apply Hsame; subst authTagHex ciphertext;
      try apply HexFacts.decode_encode; try apply HexFacts.encode_no_colon.
    apply odd_length_encode.
  - apply UtfFacts.toWellFormed_wellFormed.
  - intros authTagHex' Hother.
    apply (decrypt_envelopeText_throws key); [exact Hkey|]. intros _ _.
    subst ivHex ciphertext sealed. rewrite !HexFacts.decode_encode.
    apply (open_other_tag _ _ Hlaw). exact Hother.
  - intros ciphertext' Hchanged.
    apply (decrypt_envelopeText_throws key); [exact Hkey|]. intros _ _.
    subst ivHex authTagHex sealed. rewrite !HexFacts.decode_encode.
    apply (open_changed_ciphertext _ _ Hlaw). exact Hchanged.
  - exact Hsame.
Qed.

(** What [decrypt(encrypt(x))] is for any string: x with every unpaired
    surrogate replaced by U+FFFD. *)
Lemma decrypt_encrypt_any (plaintext : JsString) (key : list byte) (w : World) :
  getEncryptionKey = Ok key ->
  LawfulCipher (aes host) key ->
  exists e, fst (encrypt plaintext w) = Ok e /\
            decrypt e = Ok (Utf.utf8Decode (Utf.utf8Encode plaintext)).
Proof.
  intros Hkey Hlaw. eexists. split; [apply encrypt_envelope; exact Hkey|].
  rewrite (decrypt_envelope key).
  - now rewrite (open_sealed _ _ Hlaw).
  - exact Hkey.
  - now rewrite length_map, length_seq.
  - apply (tag_length _ _ Hlaw).
Qed.

(** *** The token refresh *)

Lemma offline_randomBytes n : respects offline (randomBytes n).
Proof. intros w. split; reflexivity. Qed.

Lemma offline_encrypt plaintext : respects offline (encrypt plaintext).
Proof.
  unfold encrypt. apply (respects_try_catch offline offline_trans).
  - apply (respects_bind offline offline_trans); [apply (respects_lift offline offline_refl)|].
    intros key. apply (respects_bind offline offline_trans); [apply offline_randomBytes|].
    intros iv. destruct (gcm_seal _ _ _ _). apply (respects_ret offline offline_refl).
  - intros e. apply (respects_throw offline offline_refl).
Qed.

Lemma offline_tokensToStore data : respects offline (tokensToStore data).
Proof.
  unfold tokensToStore. destruct (falsyUnits _); [apply (respects_ret offline offline_refl)|].
  apply (respects_try_catch offline offline_trans);
    [|intros; apply (respects_ret offline offline_refl)].
  apply (respects_bind offline offline_trans); [apply offline_encrypt|]. intros a.
  apply (respects_try_catch offline offline_trans);
    [|intros; apply (respects_ret offline offline_refl)].
  apply (respects_bind offline offline_trans); [apply offline_encrypt|]. intros r.
  apply (respects_ret offline offline_refl).
Qed.

Lemma refresh_unfold credential w :
  refreshAccessTokenIfNeeded credential w =
  if negb (accessTokenExpiresAt credential - now w <? 2 * 60 * 1000)
  then (Ok credential, w)
  else if falsy (FIGMA_CLIENT_ID (env host)) || falsy (FIGMA_CLIENT_SECRET (env host))
  then (Throw (FigmaApiError "Figma OAuth credentials not configured" 500
                             "/api/oauth/token"), w)
  else
    bind (fetch (PostToken (default "" (FIGMA_CLIENT_ID (env host)))
                           (default "" (FIGMA_CLIENT_SECRET (env host)))
                           (decryptIfEnabled (refreshToken credential)))
                (tokenEndpoint (peers host)))
         (fun response =>
            if negb (ok response) then
              throw (FigmaApiError "Failed to refresh Figma access token"
                                   (status response) "/api/oauth/token")
            else bind (json response) (storeRefreshed credential)) w.
Proof.
  unfold refreshAccessTokenIfNeeded. unfold bind at 1. unfold Date_now at 1.
  destruct (negb _); [reflexivity|].
  destruct (falsy _ || falsy _); reflexivity.
Qed.

Lemma offline_storeRefreshed credential data :
  respects offline (storeRefreshed credential data).
Proof.
  unfold storeRefreshed.
  apply (respects_bind offline offline_trans); [apply (respects_Date_now offline offline_refl)|].
  intros t1. apply (respects_bind offline offline_trans); [apply offline_tokensToStore|].
  intros enc. apply (respects_bind offline offline_trans);
    [apply (respects_Date_now offline offline_refl)|].
  intros t2. destruct (negb _); [apply (respects_throw offline offline_refl)|].
  apply offline_prisma.
Qed.

Lemma updateCredential_stored id change d fresh :
  fst (updateCredential id change d) = Ok fresh ->
  In fresh (figmaCredentials (snd (updateCredential id change d))) /\
  exists c, fresh = change c.
Proof.
  unfold updateCredential.
  destruct (find _ (figmaCredentials d)) as [c|] eqn:Ef; [|discriminate].
  cbn [fst snd figmaCredentials]. intros [= <-]. split; [|eauto].
  apply find_some in Ef as [Hin Hid].
  apply in_map_iff. exists c. rewrite Hid. auto.
Qed.

(** A successful [storeRefreshed] stores and returns a credential whose
    expiry is the time of the call plus the lifetime granted. *)
Lemma storeRefreshed_expiry credential data w fresh w' :
  storeRefreshed credential data w = (Ok fresh, w') ->
  accessTokenExpiresAt fresh = now w + expires_in data * 1000 /\
  In fresh (figmaCredentials (db w')).
Proof.
  unfold storeRefreshed, bind, Date_now.
  destruct (tokensToStore data w) as [[enc|e] w1] eqn:Et; [|discriminate].
  destruct (negb (validTime _)); [discriminate|].
  unfold prisma, bind, statement.
  destruct (ambientStep w1) as [[[]|e] w2]; [|discriminate].
  destruct (updateCredential _ _ (db w2)) as [r d] eqn:Eu.
  intros [= -> <-]. cbn [db set_db].
  match type of Eu with
  | updateCredential ?i ?c ?d0 = _ =>
      pose proof (updateCredential_stored i c d0 fresh) as Hs
  end.
  rewrite Eu in Hs. destruct (Hs eq_refl) as [Hin [c ->]].
  split; [reflexivity | exact Hin].
Qed.

(** C4, as the code has it.  When the recorded expiry is 2 minutes away
    or more, [refreshAccessTokenIfNeeded] returns the credential it was
    given and changes nothing: no request is sent, the store is the same.
    When it is less than 2 minutes away and the client id and secret are
    configured, the token endpoint is called once, with the refresh token;
    and if the call returns a credential, that credential is in the store
    and its expiry is the time at which the answer arrived plus
    [expires_in] seconds, which is strictly greater than now + 2 minutes
    (now being the time of the call, or the time of its return) whenever
    [expires_in] is more than 120. *)
Theorem refresh_policy (credential : FigmaCredential) (w : World) :
  (2 * 60 * 1000 <= accessTokenExpiresAt credential - now w ->
   refreshAccessTokenIfNeeded credential w = (Ok credential, w)) /\
  (accessTokenExpiresAt credential - now w < 2 * 60 * 1000 ->
   falsy (FIGMA_CLIENT_ID (env host)) = false ->
   falsy (FIGMA_CLIENT_SECRET (env host)) = false ->
   let call := PostToken (default "" (FIGMA_CLIENT_ID (env host)))
                         (default "" (FIGMA_CLIENT_SECRET (env host)))
                         (decryptIfEnabled (refreshToken credential)) in
   let answer := tokenEndpoint (peers host) (call :: httpLog w) in
   let after := refreshAccessTokenIfNeeded credential w in
   httpLog (snd after) = call :: httpLog w /\
   forall fresh, fst after = Ok fresh ->
     exists response data,
       reply answer = Ok response /\ ok response = true /\
       body response = Some data /\
       In fresh (figmaCredentials (db (snd after))) /\
       now (snd after) = now w + Z.of_N (latency answer) /\
       accessTokenExpiresAt fresh = now (snd after) + expires_in data * 1000 /\
       (120 < expires_in data ->
        now w + 2 * 60 * 1000 < accessTokenExpiresAt fresh /\
        now (snd after) + 2 * 60 * 1000 < accessTokenExpiresAt fresh)).
Proof.
  split.
  - intros Hfar. rewrite refresh_unfold.
    replace (_ <? _) with false by (symmetry; apply Z.ltb_ge; lia). reflexivity.
  - intros Hnear Hid Hsecret call answer after.
    assert (Eafter : after =
      match reply answer with
      | Ok response =>
          if negb (ok response) then
            (Throw (FigmaApiError "Failed to refresh Figma access token"
                                  (status response) "/api/oauth/token"),
             {| db := db w; now := now w + Z.of_N (latency answer);
                ambient := ambient w; entropyUsed := entropyUsed w;
                idsUsed := idsUsed w; httpLog := call :: httpLog w |})
          else
            bind (json response) (storeRefreshed credential)
              {| db := db w; now := now w + Z.of_N (latency answer);
                 ambient := ambient w; entropyUsed := entropyUsed w;
                 idsUsed := idsUsed w; httpLog := call :: httpLog w |}
      | Throw e =>
          (Throw e,
           {| db := db w; now := now w + Z.of_N (latency answer);
              ambient := ambient w; entropyUsed := entropyUsed w;
              idsUsed := idsUsed w; httpLog := call :: httpLog w |})
      end).
    { subst after. rewrite refresh_unfold.
      replace (_ <? _) with true by (symmetry; apply Z.ltb_lt; lia).
      rewrite Hid, Hsecret. cbn [negb orb]. unfold bind at 1, fetch.
      fold call. fold answer. destruct (reply answer) as [response|e]; [|reflexivity].
      destruct (negb (ok response)); reflexivity. }
    clearbody after.
    set (w1 := {| db := db w; now := now w + Z.of_N (latency answer);
                  ambient := ambient w; entropyUsed := entropyUsed w;
                  idsUsed := idsUsed w; httpLog := call :: httpLog w |}) in *.
    destruct (reply answer) as [response|e] eqn:Ereply.
    2:{ subst after. split; [reflexivity | intros ? Hf; discriminate Hf]. }
    destruct (ok response) eqn:Eok; cbn [negb] in Eafter.
    2:{ subst after. split; [reflexivity | intros ? Hf; discriminate Hf]. }
    unfold json, bind in Eafter. destruct (body response) as [data|] eqn:Ebody.
    2:{ subst after. split; [reflexivity | intros ? Hf; discriminate Hf]. }
    unfold ret in Eafter. subst after. split.
    + destruct (offline_storeRefreshed credential data w1) as [Hlog _].
      rewrite Hlog. reflexivity.
    + intros fresh Hfresh. exists response, data.
      destruct (offline_storeRefreshed credential data w1) as [_ Hnow].
      destruct (storeRefreshed credential data w1) as [r w2] eqn:Estore.
      cbn [fst snd] in *. subst r.
      destruct (storeRefreshed_expiry credential data w1 fresh w2 Estore) as [Hexp Hin].
      assert (Hlat : 0 <= Z.of_N (latency answer)) by lia.
      subst w1. cbn [now] in Hnow, Hexp.
      split; [reflexivity|]. split; [exact Eok|]. split; [exact Ebody|].
      split; [exact Hin|]. split; [exact Hnow|]. split; [lia|].
      intros Hlong. split; lia.
Qed.

(** *** The frames route *)

Lemma prisma_calm {A} (op : Db -> Result A * Db) w :
  ambient w = [] ->
  prisma op w = (fst (op (db w)), set_db (snd (op (db w))) w).
Proof.
  intros Ha. unfold prisma, bind, ambientStep, statement. rewrite Ha.
  destruct (op (db w)); reflexivity.
Qed.

Lemma set_db_same w : set_db (db w) w = w.
Proof. destruct w; reflexivity. Qed.

Lemma prisma_quiet {A} (op : Db -> Result A * Db) w rest :
  ambient w = Quiet :: rest ->
  prisma op w = (fst (op (db w)), set_db (snd (op (db w))) (set_ambient rest w)).
Proof.
  intros Ha. unfold prisma, bind, ambientStep, statement. rewrite Ha.
  cbn [db set_ambient]. destruct (op (db w)); reflexivity.
Qed.

Lemma prisma_other {A} (op : Db -> Result A * Db) w f rest :
  ambient w = OtherWrite f :: rest ->
  prisma op w = (fst (op (f (db w))),
                 set_db (snd (op (f (db w)))) (set_ambient rest w)).
Proof.
  intros Ha. unfold prisma, bind, ambientStep, statement. rewrite Ha.
  cbn [db set_ambient set_db]. destruct (op (f (db w))); reflexivity.
Qed.

Lemma prisma_outage {A} (op : Db -> Result A * Db) w message rest :
  ambient w = Outage message :: rest ->
  prisma op w = (Throw (JsError message), set_ambient rest w).
Proof.
  intros Ha. unfold prisma, bind, ambientStep. rewrite Ha. reflexivity.
Qed.

(** Without a stored credential [getFigmaAccessToken] throws a plain
    [Error] with the message [notConnected]: when the lookup runs
    undisturbed, and when another request removed the credential just
    before it. *)
Lemma getFigmaAccessToken_not_connected projectId w :
  (ambient w = [] -> credentialOf projectId (db w) = None ->
   getFigmaAccessToken projectId w = (Throw (JsError (notConnected projectId)), w)) /\
  (forall f rest, ambient w = OtherWrite f :: rest ->
   credentialOf projectId (f (db w)) = None ->
   fst (getFigmaAccessToken projectId w) = Throw (JsError (notConnected projectId))).
Proof.
  split.
  - intros Ha Hnone. unfold getFigmaAccessToken, getFigmaCredentialForProject.
    unfold bind, try_catch. rewrite (prisma_calm _ w Ha). cbn [fst snd].
    unfold credentialOf in Hnone. rewrite Hnone. destruct w; reflexivity.
  - intros f rest Ha Hnone. unfold getFigmaAccessToken, getFigmaCredentialForProject.
    unfold bind, try_catch. rewrite (prisma_other _ w f rest Ha). cbn [fst snd].
    unfold credentialOf in Hnone. rewrite Hnone. reflexivity.
Qed.

(** A failure of the database is reported with another message. *)
Lemma getFigmaAccessToken_outage projectId w message rest :
  ambient w = Outage message :: rest ->
  fst (getFigmaAccessToken projectId w) =
  Throw (JsError ("Failed to fetch Figma credentials: " ++ message)).
Proof.
  intros Ha. unfold getFigmaAccessToken, getFigmaCredentialForProject.
  unfold bind, try_catch. rewrite (prisma_outage _ w message rest Ha). reflexivity.
Qed.

Lemma prefix_needs_space s :
  String.prefix "No Figma credentials" s = true -> Js.includes s " " = true.
Proof.
  destruct s as [|a [|b [|c s]]]; cbn [String.prefix]; try discriminate.
  - destruct (Ascii.ascii_dec _ a); discriminate.
  - destruct (Ascii.ascii_dec _ a); [|discriminate].
    destruct (Ascii.ascii_dec _ b); discriminate.
  - destruct (Ascii.ascii_dec _ a) as [<-|]; [|discriminate].
    destruct (Ascii.ascii_dec _ b) as [<-|]; [|discriminate].
    destruct (Ascii.ascii_dec _ c) as [<-|]; [|discriminate].
    intros _. destruct s; reflexivity.
Qed.

Lemma includes_needs_space s :
  Js.includes s " " = false -> Js.includes s "No Figma credentials" = false.
Proof.
  induction s as [|a s IH]; intros Hs; [reflexivity|].
  cbn [Js.includes] in *. apply orb_false_iff in Hs as [Hp Hs].
  apply orb_false_iff. split; [|apply IH, Hs].
  apply not_true_is_false. intros Hpre. apply prefix_needs_space in Hpre.
  cbn [Js.includes] in Hpre. rewrite Hp, Hs in Hpre. discriminate.
Qed.

(** The test made by the route does not recognise the message, for any
    project id without a space (an id accepted as a cuid has none). *)
Lemma notConnected_not_recognised projectId :
  Js.includes projectId " " = false ->
  Js.includes (notConnected projectId) "No Figma credentials" = false.
Proof.
  intros Hs. unfold notConnected.
  simpl. apply includes_needs_space. exact Hs.
Qed.

Lemma getFigmaAccessToken_removed projectId w f rest :
  ambient w = OtherWrite f :: rest ->
  credentialOf projectId (f (db w)) = None ->
  getFigmaAccessToken projectId w =
  (Throw (JsError (notConnected projectId)), set_db (f (db w)) (set_ambient rest w)).
Proof.
  intros Ha Hnone. unfold getFigmaAccessToken, getFigmaCredentialForProject.
  unfold bind, try_catch. rewrite (prisma_other _ w f rest Ha). cbn [fst snd].
  unfold credentialOf in Hnone. rewrite Hnone. reflexivity.
Qed.

(** C5: where the code departs from the claim.  A request for the frames
    of a linked project, whose credential is there when the route looks
    for it and is removed by another request before [getFigmaAccessToken]
    looks for it: [getFigmaAccessToken] throws its failure for a missing
    credential, the route does not recognise the message, and the answer
    is the generic 500, not 400 with [needsOAuth]. *)
Theorem frames_route_misses_not_connected
    (projectId : string) (project : Project) (w : World)
    (removal : Db -> Db) (rest : list Ambient) :
  isCuid host projectId = true ->
  Js.includes projectId " " = false ->
  projects (db w) !! projectId = Some project ->
  falsy (figmaFileKey project) = false ->
  is_Some (credentialOf projectId (db w)) ->
  ambient w = Quiet :: Quiet :: OtherWrite removal :: rest ->
  credentialOf projectId (removal (db w)) = None ->
  Js.includes (notConnected projectId) "No Figma credentials" = false /\
  fst (GET (Some projectId) w) =
  Ok {| res_status := 500;
        res_body := ErrorBody "An unexpected error occurred"
                      (DetailsText (notConnected projectId)) false |}.
Proof.
  intros Hcuid Hspace Hproject Hkey [c Hc] Ha Hgone.
  pose proof (notConnected_not_recognised projectId Hspace) as Hmiss.
  split; [exact Hmiss|].
  unfold GET. rewrite Hcuid. cbn [negb].
  unfold try_catch at 1. unfold bind at 1.
  rewrite (prisma_quiet _ w _ Ha). cbn [fst snd]. rewrite Hproject, Hkey.
  set (w1 := set_db (db w) (set_ambient _ w)).
  unfold bind at 1.
  rewrite (prisma_quiet _ w1 (OtherWrite removal :: rest) eq_refl). cbn [fst snd].
  change (find _ (figmaCredentials (db w1))) with (credentialOf projectId (db w)).
  rewrite Hc.
  set (w2 := set_db (db w1) (set_ambient _ w1)).
  unfold bind at 1. unfold try_catch at 1. unfold bind at 1.
  unfold fetchFigmaFile. unfold bind at 1.
  rewrite (getFigmaAccessToken_removed projectId w2 removal rest eq_refl Hgone).
  unfold bind at 1. unfold onFetchError. fold (notConnected projectId).
  rewrite Hmiss. reflexivity.
Qed.

(** When nothing interferes, the check made by the route itself answers
    400 with [needsOAuth] for a project without credential. *)
Lemma frames_route_precheck (projectId : string) (project : Project) (w : World) :
  isCuid host projectId = true ->
  projects (db w) !! projectId = Some project ->
  falsy (figmaFileKey project) = false ->
  credentialOf projectId (db w) = None ->
  ambient w = [] ->
  exists details,
    GET (Some projectId) w =
    (Ok {| res_status := 400;
           res_body := ErrorBody "Figma not connected" details true |}, w).
Proof.
  intros Hcuid Hproject Hkey Hnone Ha. eexists.
  unfold GET. rewrite Hcuid. cbn [negb].
  unfold try_catch at 1. unfold bind at 1.
  rewrite (prisma_calm _ w Ha). cbn [fst snd]. rewrite Hproject, Hkey.
  assert (Hw : set_db (db w) w = w) by (destruct w; reflexivity).
  rewrite Hw. unfold bind at 1.
  rewrite (prisma_calm _ w Ha). cbn [fst snd]. rewrite Hw.
  change (find _ (figmaCredentials (db w))) with (credentialOf projectId (db w)).
  rewrite Hnone. reflexivity.
Qed.

Lemma onFetchError_body error w response w' :
  onFetchError error w = (Ok response, w') ->
  exists e d n, res_body response = ErrorBody e d n.
Proof.
  unfold onFetchError, NextResponse_json, ret, throw. intros H.
  repeat case_match; simplify_eq; cbn; eauto.
Qed.

(** The only answer of the route that carries frames is the response of
    step 5 for the file that was fetched. *)
Lemma GET_frames_inversion projectIdParam w response frames meta :
  fst (GET projectIdParam w) = Ok response ->
  res_body response = FramesBody frames meta ->
  exists figmaFile, response = framesResponse figmaFile.
Proof.
  unfold GET, try_catch at 1. intros H Hbody.
  set (inner := match projectIdParam with None => _ | Some _ => _ end) in H.
  destruct (inner w) as [[r|e] w0] eqn:Einner;
    unfold ret in H; cbn [fst] in H; simplify_eq;
    try (cbn in Hbody; discriminate Hbody).
  subst inner. unfold ret in Einner.
  destruct projectIdParam as [projectId|];
    cbv beta in Einner; simplify_eq; try (cbn in Hbody; discriminate Hbody).
  destruct (negb (isCuid host projectId));
    cbv beta in Einner; simplify_eq; try (cbn in Hbody; discriminate Hbody).
  unfold bind at 1 in Einner.
  destruct (prisma _ w) as [[[project|]|e] w1];
    cbv beta in Einner; simplify_eq; try (cbn in Hbody; discriminate Hbody).
  destruct (falsy (figmaFileKey project));
    cbv beta in Einner; simplify_eq; try (cbn in Hbody; discriminate Hbody).
  unfold bind at 1 in Einner.
  destruct (prisma _ w1) as [[[c|]|e] w2];
    cbv beta in Einner; simplify_eq; try (cbn in Hbody; discriminate Hbody).
  unfold bind at 1 in Einner. unfold try_catch at 1 in Einner.
  unfold bind at 1 in Einner.
  destruct (fetchFigmaFile _ _ w2) as [[figmaFile|e] w3].
  - cbv beta in Einner. simplify_eq. eauto.
  - unfold bind at 1 in Einner.
    destruct (onFetchError e w3) as [[r'|e'] w4] eqn:Eerr;
      cbv beta in Einner; simplify_eq.
    apply onFetchError_body in Eerr as (e1 & d1 & n1 & Hb). congruence.
Qed.

(** C9.  In a response of the route that carries frames, [meta.truncated]
    is true exactly when the array has 500 entries, the maximum, and
    [meta.total] is the length of the array; the array is what
    [extractFramesFromDocument] gives for the fetched file.  So when the
    document has exactly 500 qualifying frames, all of them are returned,
    none is dropped, and [truncated] is true all the same. *)
Theorem frames_truncated_flag
    (projectIdParam : option string) (w : World)
    (status : Z) (frames : list FrameSummary) (meta : FramesMeta) :
  fst (GET projectIdParam w) =
    Ok {| res_status := status; res_body := FramesBody frames meta |} ->
  (truncated meta = true <-> length frames = MAX_FRAMES) /\
  total meta = length frames /\
  exists figmaFile,
    frames = extractFramesFromDocument (document figmaFile) /\
    (length (documentFrames (document figmaFile)) = MAX_FRAMES ->
     frames = documentFrames (document figmaFile) /\ truncated meta = true).
Proof.
  intros H.
  destruct (GET_frames_inversion _ _ _ frames meta H eq_refl) as [figmaFile Hresp].
  pose proof (f_equal res_body Hresp) as Hb.
  unfold framesResponse in Hb. cbn [res_body] in Hb.
  set (found := extractFramesFromDocument (document figmaFile)) in *.
  assert (Hframes : frames = found) by congruence.
  assert (Hmeta : meta = {| total := length found;
                            meta_fileName := file_name figmaFile;
                            fileVersion := version figmaFile;
                            truncated := (MAX_FRAMES <=? length found)%nat |})
    by congruence.
  subst frames meta found. clear Hb Hresp. cbn [truncated total].
  assert (Hle : (length (extractFramesFromDocument (document figmaFile)) <= MAX_FRAMES)%nat).
  { rewrite extractFramesFromDocument_prefix, length_firstn. lia. }
  split; [|split; [reflexivity|]].
  - rewrite Nat.leb_le. lia.
  - exists figmaFile. split; [reflexivity|]. intros Hexact.
    rewrite extractFramesFromDocument_prefix.
    rewrite firstn_all2 by lia. split; [reflexivity|].
    apply Nat.leb_le. lia.
Qed.

(** *** The baseline builder *)

Lemma calm_randomBytes n : respects calm (randomBytes n).
Proof. intros w Ha. cbn. auto. Qed.

Ltac calm_steps :=
  repeat first
    [ apply (respects_ret calm calm_refl)
    | apply (respects_throw calm calm_refl)
    | apply (respects_lift calm calm_refl)
    | apply (respects_Date_now calm calm_refl)
    | apply (respects_json calm calm_refl)
    | apply calm_fetch
    | apply calm_randomBytes
    | match goal with
      | |- respects calm (prisma _) => apply calm_prisma
      | |- respects calm (bind _ _) => apply (respects_bind calm calm_trans)
      | |- respects calm (try_catch _ _) => apply (respects_try_catch calm calm_trans)
      | |- respects calm (if ?b then _ else _) => destruct b
      | |- respects calm (match ?x with _ => _ end) => destruct x
      | |- forall _, respects calm _ => intro
      end ].

Lemma calm_encrypt plaintext : respects calm (encrypt plaintext).
Proof. unfold encrypt. calm_steps. Qed.

Lemma credentialsOnly_lookup {A} (read : Db -> A) :
  credentialsOnly (fun d => (Ok (read d), d)).
Proof. intros d. split; reflexivity. Qed.

Lemma credentialsOnly_update id change : credentialsOnly (updateCredential id change).
Proof.
  intros d. unfold updateCredential. destruct (find _ _); split; reflexivity.
Qed.

Lemma calm_refresh credential : respects calm (refreshAccessTokenIfNeeded credential).
Proof.
  unfold refreshAccessTokenIfNeeded. calm_steps; try apply calm_encrypt.
  apply credentialsOnly_update.
Qed.

Lemma calm_getFigmaAccessToken projectId : respects calm (getFigmaAccessToken projectId).
Proof.
  unfold getFigmaAccessToken, getFigmaCredentialForProject. calm_steps.
  - apply (credentialsOnly_lookup (fun d => find _ (figmaCredentials d))).
  - apply calm_refresh.
Qed.

Lemma calm_fetchFigmaVariablesAndStyles projectId fileKey :
  respects calm (fetchFigmaVariablesAndStyles projectId fileKey).
Proof.
  unfold fetchFigmaVariablesAndStyles, fetchFigmaFile, fetchFigmaVariables.
  calm_steps; apply calm_getFigmaAccessToken.
Qed.

Lemma falsy_false s : falsy s = false -> exists v, s = Some v /\ default "" s = v.
Proof.
  destruct s as [v|]; [|discriminate]. intros _. exists v. auto.
Qed.

(** A build that returns a snapshot found the project with a file and a
    frame, fetched the file and the variables, found the frame in the
    document, and ended with the upsert of the payload built from them;
    up to the upsert the projects and the snapshots were not touched. *)
Lemma build_inversion projectId w snapshot w' :
  ambient w = [] ->
  createBaselineSnapshotForProject projectId w = (Ok snapshot, w') ->
  exists project fileKey frameId file variables selectedFrame before,
    projects (db w) !! projectId = Some project /\
    figmaFileKey project = Some fileKey /\
    figmaFrameId project = Some frameId /\
    fetchFigmaVariablesAndStyles projectId fileKey w = (Ok (file, variables), before) /\
    findNodeById (document file) frameId = Some selectedFrame /\
    ambient before = [] /\
    projects (db before) = projects (db w) /\
    baselineSnapshots (db before) = baselineSnapshots (db w) /\
    upsertSnapshot projectId fileKey frameId
      (baselineDataOf file variables selectedFrame (now before)) before
    = (Ok snapshot, w').
Proof.
  intros Ha. unfold createBaselineSnapshotForProject. unfold bind at 1.
  rewrite (prisma_calm _ w Ha). cbn [fst snd]. rewrite set_db_same.
  destruct (projects (db w) !! projectId) as [project|] eqn:Hproject; [|discriminate].
  destruct (falsy (figmaFileKey project)) eqn:Hkey; [discriminate|].
  destruct (falsy (figmaFrameId project)) eqn:Hframe; [discriminate|].
  apply falsy_false in Hkey as (fileKey & Hkey & ->).
  apply falsy_false in Hframe as (frameId & Hframe & ->).
  unfold bind at 1. unfold try_catch at 1.
  pose proof (calm_fetchFigmaVariablesAndStyles projectId fileKey w Ha) as Hcalm.
  destruct (fetchFigmaVariablesAndStyles projectId fileKey w)
    as [[[file variables]|e] w1] eqn:Efetch.
  2:{ destruct e; discriminate. }
  cbn [snd] in Hcalm. destruct Hcalm as (Ha1 & Hp1 & Hs1 & _).
  destruct (findNodeById (document file) frameId) as [selectedFrame|] eqn:Hfind;
    [|discriminate].
  unfold bind at 1. unfold Date_now at 1. intros Hup.
  exists project, fileKey, frameId, file, variables, selectedFrame, w1.
  repeat split; assumption.
Qed.

Lemma newest_In rows best : newest rows = Some best -> In best rows.
Proof.
  revert best. induction rows as [|row rest IH]; intros best; [discriminate|].
  cbn [newest]. destruct (newest rest) as [b|].
  - destruct (_ <? _); intros [= <-]; [now left | right; now apply IH].
  - intros [= <-]. now left.
Qed.

Lemma newest_None rows : newest rows = None -> rows = [].
Proof.
  destruct rows as [|row rest]; [reflexivity|]. cbn [newest].
  destruct (newest rest); [destruct (_ <? _)|]; discriminate.
Qed.

Lemma findFirstSnapshot_Some projectId frameId d id row :
  findFirstSnapshot projectId frameId d = Some (id, row) ->
  baselineSnapshots d !! id = Some row /\ forFrame projectId frameId row = true.
Proof.
  unfold findFirstSnapshot. intros H. apply newest_In, filter_In in H as [Hin Hf].
  split; [|exact Hf]. apply elem_of_map_to_list, list_elem_of_In. exact Hin.
Qed.

Lemma findFirstSnapshot_None projectId frameId d id row :
  findFirstSnapshot projectId frameId d = None ->
  baselineSnapshots d !! id = Some row -> forFrame projectId frameId row = false.
Proof.
  unfold findFirstSnapshot. intros H Hrow. apply newest_None in H.
  apply not_true_is_false. intros Hf.
  assert (Hin : In (id, row) (List.filter (fun r => forFrame projectId frameId (snd r))
                                          (map_to_list (baselineSnapshots d)))).
  { apply filter_In. split; [|exact Hf].
    apply list_elem_of_In, elem_of_map_to_list. exact Hrow. }
  rewrite H in Hin. destruct Hin.
Qed.

(** The upsert when nothing interferes: the lookup, then the update of
    the row found or the insertion of a new one. *)
Lemma upsertSnapshot_calm projectId fileKey frameId data w :
  ambient w = [] ->
  upsertSnapshot projectId fileKey frameId data w =
  match findFirstSnapshot projectId frameId (db w) with
  | Some existing =>
      match updateSnapshot (fst existing) data fileKey frameId (db w) with
      | (Ok a, d) => (Ok a, set_db d w)
      | (Throw e, _) => (Throw e, w)
      end
  | None =>
      match createSnapshot projectId fileKey frameId data w with
      | (Ok a, w') => (Ok a, w')
      | (Throw e, w') => (Throw e, set_db (db w) w')
      end
  end.
Proof.
  intros Ha. unfold upsertSnapshot, transaction. unfold bind at 1.
  unfold ambientStep at 1. rewrite Ha. unfold bind at 1.
  rewrite (prisma_calm _ w Ha). cbn [fst snd]. rewrite set_db_same.
  destruct (findFirstSnapshot projectId frameId (db w)) as [existing|].
  - rewrite (prisma_calm _ w Ha).
    destruct (updateSnapshot _ _ _ _ (db w)) as [[a|e] d]; cbn [fst snd];
      [reflexivity|].
    rewrite Ha. cbn [length firstn othersWrites Nat.sub ambient set_db].
    f_equal. destruct w; reflexivity.
  - unfold bind at 1. unfold ambientStep at 1. rewrite Ha.
    destruct (createSnapshot _ _ _ _ w) as [[a|e] w1]; reflexivity.
Qed.

(** What a successful upsert does when nothing interferes: the row it
    returns is stored under the id it returns, belongs to the project and
    the frame and holds the payload; it replaced the row that the lookup
    found for the frame, keeping the time of its creation, or, when none
    was found, it was inserted under a new id. *)
Lemma upsertSnapshot_spec projectId fileKey frameId data w id row w' :
  ambient w = [] ->
  upsertSnapshot projectId fileKey frameId data w = (Ok (id, row), w') ->
  ambient w' = [] /\ projects (db w') = projects (db w) /\
  baselineSnapshots (db w') = <[id := row]> (baselineSnapshots (db w)) /\
  snap_projectId row = projectId /\ snap_figmaFrameId row = Some frameId /\
  snap_data row = data /\
  ((exists old, baselineSnapshots (db w) !! id = Some old /\
                forFrame projectId frameId old = true /\
                findFirstSnapshot projectId frameId (db w) = Some (id, old) /\
                snap_createdAt row = snap_createdAt old) \/
   (baselineSnapshots (db w) !! id = None /\
    forall i r, baselineSnapshots (db w) !! i = Some r ->
                forFrame projectId frameId r = false)).
Proof.
  intros Ha. rewrite (upsertSnapshot_calm _ _ _ _ _ Ha).
  destruct (findFirstSnapshot projectId frameId (db w)) as [[id0 old]|] eqn:Efind.
  - unfold updateSnapshot. cbn [fst].
    pose proof Efind as Efound.
    apply findFirstSnapshot_Some in Efind as [Hold Hf]. rewrite Hold.
    intros [= <- <- <-]. cbn [db set_db ambient projects baselineSnapshots
      snap_projectId snap_figmaFrameId snap_data snap_createdAt].
    pose proof Hf as Hp. unfold forFrame in Hp.
    apply andb_true_iff in Hp as [Hp _]. apply String.eqb_eq in Hp.
    repeat split; try assumption; try reflexivity.
    left. exists old. auto.
  - unfold createSnapshot. cbn [db idsUsed now ambient entropyUsed httpLog].
    destruct (baselineSnapshots (db w) !! newId host (idsUsed w)) eqn:Efree;
      [discriminate|].
    intros [= <- <- <-]. cbn [db set_db ambient projects baselineSnapshots
      snap_projectId snap_figmaFrameId snap_data].
    repeat split; try assumption; try reflexivity.
    right. split; [exact Efree|].
    intros i r Hr. eapply findFirstSnapshot_None; eassumption.
Qed.

Lemma forFrame_of_fields projectId frameId row :
  snap_projectId row = projectId -> snap_figmaFrameId row = Some frameId ->
  forFrame projectId frameId row = true.
Proof.
  intros Hp Hf. unfold forFrame. rewrite Hp, Hf, !String.eqb_refl. reflexivity.
Qed.

Lemma snapshotsFor_only projectId frameId table id row :
  table !! id = Some row -> forFrame projectId frameId row = true ->
  (forall i r, table !! i = Some r -> forFrame projectId frameId r = true -> i = id) ->
  snapshotsFor projectId frameId table = {[ id := row ]}.
Proof.
  intros Hrow Hf Honly. unfold snapshotsFor. apply map_eq. intros i.
  apply option_eq. intros r. rewrite map_lookup_filter_Some. cbn [snd].
  rewrite lookup_singleton_Some. split.
  - intros [Hi Hfi]. pose proof (Honly i r Hi Hfi) as ->. split; congruence.
  - intros [<- <-]. auto.
Qed.

(** A successful upsert leaves as many snapshots for the frame as there
    were, and one when there was none. *)
Lemma upsert_count projectId fileKey frameId data w snapshot w' :
  ambient w = [] ->
  upsertSnapshot projectId fileKey frameId data w = (Ok snapshot, w') ->
  size (snapshotsFor projectId frameId (baselineSnapshots (db w'))) =
  Nat.max 1 (size (snapshotsFor projectId frameId (baselineSnapshots (db w)))).
Proof.
  intros Ha Hup. destruct snapshot as [id row].
  destruct (upsertSnapshot_spec _ _ _ _ _ _ _ _ Ha Hup)
    as (_ & _ & Htable & Hp & Hf & _ & Hcase).
  pose proof (forFrame_of_fields _ _ _ Hp Hf) as Hrow.
  rewrite Htable. unfold snapshotsFor.
  rewrite (map_filter_insert_True
             (fun entry => forFrame projectId frameId (snd entry) = true))
    by exact Hrow.
  destruct Hcase as [(old & Hold & Hfold & _)|[_ Hnone]].
  - assert (Hin : filter (fun entry => forFrame projectId frameId (snd entry) = true)
                    (baselineSnapshots (db w)) !! id = Some old).
    { apply map_lookup_filter_Some. auto. }
    rewrite map_size_insert_Some by eauto.
    assert (Hpos : size (filter (fun entry => forFrame projectId frameId (snd entry) = true)
                           (baselineSnapshots (db w))) <> 0%nat).
    { intros Hzero. apply map_size_empty_inv in Hzero. rewrite Hzero in Hin.
      rewrite lookup_empty in Hin. discriminate. }
    lia.
  - assert (Hempty : filter (fun entry => forFrame projectId frameId (snd entry) = true)
                       (baselineSnapshots (db w)) = ∅).
    { apply map_eq. intros i. rewrite lookup_empty.
      apply map_lookup_filter_None. right. intros r Hr. cbn [snd].
      rewrite (Hnone i r Hr). discriminate. }
    rewrite Hempty, map_size_insert_None by apply lookup_empty.
    rewrite map_size_empty. reflexivity.
Qed.

(** After a successful upsert on a table with at most one row for the
    frame, the row returned is the only row for the frame. *)
Lemma upsert_only projectId fileKey frameId data w id row w' :
  ambient w = [] ->
  atMostOne projectId frameId (baselineSnapshots (db w)) ->
  upsertSnapshot projectId fileKey frameId data w = (Ok (id, row), w') ->
  baselineSnapshots (db w') !! id = Some row /\
  forFrame projectId frameId row = true /\
  (forall i r, baselineSnapshots (db w') !! i = Some r ->
               forFrame projectId frameId r = true -> i = id).
Proof.
  intros Ha Hone Hup.
  destruct (upsertSnapshot_spec _ _ _ _ _ _ _ _ Ha Hup)
    as (_ & _ & Htable & Hp & Hf & _ & Hcase).
  rewrite Htable. split; [apply lookup_insert_eq|].
  split; [now apply forFrame_of_fields|].
  intros i r Hi Hfi. destruct (decide (i = id)) as [|Hne]; [assumption|].
  rewrite lookup_insert_ne in Hi by congruence.
  destruct Hcase as [(old & Hold & Hfold & _)|[_ Hnone]].
  - exact (Hone i id r old Hi Hold Hfi Hfold).
  - rewrite (Hnone i r Hi) in Hfi. discriminate.
Qed.

Lemma forFrame_fields projectId frameId row :
  forFrame projectId frameId row = true ->
  snap_projectId row = projectId /\ snap_figmaFrameId row = Some frameId.
Proof.
  unfold forFrame. intros H. apply andb_true_iff in H as [Hp Hf].
  apply String.eqb_eq in Hp. destruct (snap_figmaFrameId row) as [f|]; [|discriminate].
  apply String.eqb_eq in Hf. subst. auto.
Qed.

(** "At most one snapshot for a project and a frame" is kept by every
    build that returns while no other request interferes. *)
Lemma build_keeps_atMostOne projectId w snapshot w' :
  ambient w = [] ->
  (forall p f, atMostOne p f (baselineSnapshots (db w))) ->
  createBaselineSnapshotForProject projectId w = (Ok snapshot, w') ->
  forall p f, atMostOne p f (baselineSnapshots (db w')).
Proof.
  intros Ha Hall Hbuild p f. destruct snapshot as [id row].
  destruct (build_inversion _ _ _ _ Ha Hbuild)
    as (p0 & k0 & f0 & file0 & vars0 & sel0 & b0 &
        _ & _ & _ & _ & _ & Hab & _ & Hsb & Hup).
  assert (Hall0 : forall p f, atMostOne p f (baselineSnapshots (db b0))).
  { intros p1 f1. rewrite Hsb. apply Hall. }
  destruct (upsertSnapshot_spec _ _ _ _ _ _ _ _ Hab Hup)
    as (_ & _ & Htable & Hp & Hf & _ & _).
  destruct (upsert_only _ _ _ _ _ _ _ _ Hab (Hall0 projectId f0) Hup)
    as (Hrow & _ & Honly).
  intros i i' r r' Hi Hi' Hr Hr'.
  assert (Hsame : forall j s, baselineSnapshots (db w') !! j = Some s ->
            forFrame p f s = true -> j <> id ->
            baselineSnapshots (db b0) !! j = Some s).
  { intros j s Hj _ Hne. rewrite Htable in Hj.
    now rewrite lookup_insert_ne in Hj by congruence. }
  assert (Hpair : forall s, baselineSnapshots (db w') !! id = Some s ->
            forFrame p f s = true -> p = projectId /\ f = f0).
  { intros s Hs Hfs. rewrite Hrow in Hs. injection Hs as <-.
    apply forFrame_fields in Hfs as [Hp' Hf']. split; congruence. }
  destruct (decide (i = id)) as [->|Hni], (decide (i' = id)) as [->|Hni'].
  - reflexivity.
  - destruct (Hpair r Hi Hr) as [-> ->]. symmetry. exact (Honly i' r' Hi' Hr').
  - destruct (Hpair r' Hi' Hr') as [-> ->]. exact (Honly i r Hi Hr).
  - exact (Hall0 p f i i' r r' (Hsame i r Hi Hr Hni) (Hsame i' r' Hi' Hr' Hni') Hr Hr').
Qed.

Lemma atMostOne_empty projectId frameId : atMostOne projectId frameId ∅.
Proof. intros i i' r r' Hi. rewrite lookup_empty in Hi. discriminate. Qed.

(** C3, as the code has it.  Two builds of the baseline of a project, one
    after the other with no other request in between.  The second build
    inserts no row: it rewrites in place a snapshot of the project and its
    selected frame that the store held after the first, keeps its id and
    the time of its creation, and gives it the payload made from the file
    and the variables that the second build fetched.  A build leaves as
    many snapshots for the pair as it found, and one when it found none;
    so the store ends with exactly one snapshot for the pair when it held
    at most one before (none, for instance), and then the second build
    rewrites the very record that the first returned.  A store that held
    several keeps them: nothing in the store makes the pair unique. *)
Theorem baseline_built_twice
    (projectId : string) (project : Project) (fileKey frameId : string)
    (w w1 w2 : World) (first second : string * BaselineSnapshot) :
  ambient w = [] ->
  projects (db w) !! projectId = Some project ->
  figmaFileKey project = Some fileKey ->
  figmaFrameId project = Some frameId ->
  createBaselineSnapshotForProject projectId w = (Ok first, w1) ->
  createBaselineSnapshotForProject projectId w1 = (Ok second, w2) ->
  (exists old,
     baselineSnapshots (db w1) !! fst second = Some old /\
     forFrame projectId frameId old = true /\
     snap_createdAt (snd second) = snap_createdAt old) /\
  baselineSnapshots (db w2) =
    <[fst second := snd second]> (baselineSnapshots (db w1)) /\
  dom (baselineSnapshots (db w2)) = dom (baselineSnapshots (db w1)) /\
  (exists file variables selectedFrame before,
     fetchFigmaVariablesAndStyles projectId fileKey w1 = (Ok (file, variables), before) /\
     findNodeById (document file) frameId = Some selectedFrame /\
     snap_data (snd second) =
       baselineDataOf file variables selectedFrame (now before)) /\
  size (snapshotsFor projectId frameId (baselineSnapshots (db w2))) =
    Nat.max 1 (size (snapshotsFor projectId frameId (baselineSnapshots (db w)))) /\
  (atMostOne projectId frameId (baselineSnapshots (db w)) ->
   fst second = fst first /\
   baselineSnapshots (db w1) !! fst first = Some (snd first) /\
   snapshotsFor projectId frameId (baselineSnapshots (db w2))
     = {[ fst first := snd second ]}).
Proof.
  intros Ha Hproject Hkey Hframe Hfirst Hsecond.
  destruct first as [id1 row1], second as [id2 row2]. cbn [fst snd].
  destruct (build_inversion _ _ _ _ Ha Hfirst)
    as (p1 & k1 & f1 & file1 & vars1 & sel1 & b1 &
        Hp1 & Hk1 & Hf1 & _ & _ & Hab1 & Hpb1 & Hsb1 & Hup1).
  assert (p1 = project) as -> by congruence.
  assert (f1 = frameId) as -> by congruence.
  destruct (upsertSnapshot_spec _ _ _ _ _ _ _ _ Hab1 Hup1)
    as (Ha1 & Hproj1 & Htable1 & Hrp1 & Hrf1 & _ & _).
  pose proof (upsert_count _ _ _ _ _ _ _ Hab1 Hup1) as Hcount1.
  rewrite Hsb1 in Hcount1.
  destruct (build_inversion _ _ _ _ Ha1 Hsecond)
    as (p2 & k2 & f2 & file2 & vars2 & sel2 & b2 &
        Hp2 & Hk2 & Hf2 & Hfetch2 & Hfind2 & Hab2 & Hpb2 & Hsb2 & Hup2).
  assert (p2 = project) as -> by congruence.
  assert (k2 = fileKey) as -> by congruence.
  assert (f2 = frameId) as -> by congruence.
  destruct (upsertSnapshot_spec _ _ _ _ _ _ _ _ Hab2 Hup2)
    as (_ & _ & Htable2 & _ & _ & Hdata2 & Hcase2).
  pose proof (upsert_count _ _ _ _ _ _ _ Hab2 Hup2) as Hcount2.
  rewrite Hsb2 in Htable2, Hcase2, Hcount2.
  assert (Hthere : baselineSnapshots (db w1) !! id1 = Some row1).
  { rewrite Htable1. apply lookup_insert_eq. }
  pose proof (forFrame_of_fields _ _ _ Hrp1 Hrf1) as Hfor1.
  assert (Hold2 : exists old,
            baselineSnapshots (db w1) !! id2 = Some old /\
            forFrame projectId frameId old = true /\
            snap_createdAt row2 = snap_createdAt old).
  { destruct Hcase2 as [(old & Hold & Hfold & _ & Hcreated)|[_ Hnone]]; [eauto|].
    rewrite (Hnone id1 row1 Hthere) in Hfor1. discriminate. }
  split; [exact Hold2|]. split; [exact Htable2|]. split.
  { rewrite Htable2. destruct Hold2 as (old & Hold & _).
    apply dom_insert_lookup_L. eauto. }
  split; [exists file2, vars2, sel2, b2; auto|]. split; [lia|].
  intros Hone. rewrite <- Hsb1 in Hone.
  destruct (upsert_only _ _ _ _ _ _ _ _ Hab1 Hone Hup1) as (_ & _ & Honly1).
  assert (Hone1 : atMostOne projectId frameId (baselineSnapshots (db b2))).
  { rewrite Hsb2. intros i i' r r' Hi Hi' Hr Hr'.
    rewrite (Honly1 i r Hi Hr), (Honly1 i' r' Hi' Hr'). reflexivity. }
  destruct (upsert_only _ _ _ _ _ _ _ _ Hab2 Hone1 Hup2) as (Hrow2 & Hfor2 & Honly2).
  assert (Hid : id2 = id1).
  { destruct Hold2 as (old & Hold & Hfold & _). exact (Honly1 id2 old Hold Hfold). }
  subst id2. split; [reflexivity|]. split; [exact Hthere|].
  apply snapshotsFor_only; assumption.
Qed.

Lemma extractComponentsFromNode_eq node depth :
  extractComponentsFromNode node depth =
  if (10 <? depth)%nat then []
  else
    let own :=
      if isComponentType (node_type node) then
        match absoluteBoundingBox node with
        | Some bbox =>
            if Js.Qltb 0 (width bbox) && Js.Qltb 0 (height bbox)
            then [componentOf node bbox] else []
        | None => []
        end
      else [] in
    match children node with
    | Some cs => componentsOfChildren depth cs own
    | None => own
    end.
Proof.
  destruct node as [i n t cs b]. cbn [extractComponentsFromNode node_type
    absoluteBoundingBox children]. destruct (10 <? depth)%nat; [reflexivity|].
  destruct cs as [cs|]; [|reflexivity]. cbv zeta.
  generalize (if isComponentType t
              then match b with
                   | Some bbox =>
                       if Js.Qltb 0 (width bbox) && Js.Qltb 0 (height bbox)
                       then [componentOf (mkFigmaNode i n t (Some cs) b) bbox] else []
                   | None => []
                   end
              else []).
  induction cs as [|c cs IH]; intros acc; [reflexivity|].
  cbn [componentsOfChildren]. apply IH.
Qed.

Lemma componentsOfChildren_prefix depth cs : forall components,
  exists more, componentsOfChildren depth cs components = components ++ more.
Proof.
  induction cs as [|c cs IH]; intros components.
  - exists []. now rewrite app_nil_r.
  - cbn [componentsOfChildren]. cbv zeta.
    destruct (spreads depth (extractComponentsFromNode c (depth + 1))).
    + destruct (IH (components ++ extractComponentsFromNode c (depth + 1))) as [more ->].
      eexists. now rewrite <- app_assoc.
    + apply IH.
Qed.

(** The node found by [findNodeById] carries the id looked for. *)
Lemma findNodeById_id root : forall targetId found,
  findNodeById root targetId = Some found -> node_id found = targetId.
Proof.
  induction root as [i n t cs b IH] using FigmaNode_tree_ind.
  intros targetId found. cbn [findNodeById node_id children].
  destruct (String.eqb i targetId) eqn:Ei.
  - intros [= <-]. now apply String.eqb_eq.
  - destruct cs as [cs|]; [|discriminate]. specialize (IH cs eq_refl).
    induction cs as [|c cs IHcs]; [discriminate|].
    inversion IH as [|? ? Hc Hcs]; subst.
    destruct (findNodeById c targetId) as [f|] eqn:Ec.
    + intros [= <-]. exact (Hc _ _ Ec).
    + exact (IHcs Hcs).
Qed.

(** C10.  [extractComponentsFromNode(node)] lists the node it is called
    on, first, when its type is COMPONENT, INSTANCE, FRAME or GROUP and its
    bounding box has a positive area.  When a build succeeds for a project
    whose selected frame id finds such a node in the file that the build
    fetched, the row it stores carries that id, its payload is made of that
    file and that node, its component list is [extractComponentsFromNode]
    of the node, and the selected frame is the first entry of that list. *)
Theorem components_include_root (node : FigmaNode) (bbox : FigmaBoundingBox) :
  node_type node = "COMPONENT" \/ node_type node = "INSTANCE" \/
  node_type node = "FRAME" \/ node_type node = "GROUP" ->
  absoluteBoundingBox node = Some bbox ->
  (0 < width bbox)%Q -> (0 < height bbox)%Q ->
  (exists others,
     extractComponentsFromNode node 0 = componentOf node bbox :: others) /\
  (forall projectId project fileKey frameId file variables before w snapshot w',
     ambient w = [] ->
     projects (db w) !! projectId = Some project ->
     figmaFileKey project = Some fileKey ->
     figmaFrameId project = Some frameId ->
     fetchFigmaVariablesAndStyles projectId fileKey w = (Ok (file, variables), before) ->
     findNodeById (document file) frameId = Some node ->
     createBaselineSnapshotForProject projectId w = (Ok snapshot, w') ->
     node_id node = frameId /\
     baselineSnapshots (db w') !! fst snapshot = Some (snd snapshot) /\
     snap_projectId (snd snapshot) = projectId /\
     snap_figmaFrameId (snd snapshot) = Some frameId /\
     snap_data (snd snapshot) = baselineDataOf file variables node (now before) /\
     components (snap_data (snd snapshot)) = extractComponentsFromNode node 0 /\
     exists others,
       components (snap_data (snd snapshot)) = componentOf node bbox :: others).
Proof.
  intros Htype Hbox Hw Hh.
  assert (Hroot : exists others,
            extractComponentsFromNode node 0 = componentOf node bbox :: others).
  { rewrite extractComponentsFromNode_eq. cbn [Nat.ltb Nat.leb]. cbv zeta.
    assert (Hc : isComponentType (node_type node) = true).
    { unfold isComponentType.
      destruct Htype as [ -> | [ -> | [ -> | -> ] ] ]; reflexivity. }
    apply JsFacts.Qltb_lt in Hw, Hh. rewrite Hc, Hbox, Hw, Hh. cbn [andb].
    destruct (children node) as [cs|]; [|eauto].
    destruct (componentsOfChildren_prefix 0 cs [componentOf node bbox])
      as [more ->]. eauto. }
  split; [exact Hroot|].
  intros projectId project fileKey frameId file variables before w [id row] w'
    Ha Hproject Hkey Hframe Hfetch Hfind Hbuild.
  destruct (build_inversion _ _ _ _ Ha Hbuild)
    as (project0 & fileKey0 & frameId0 & file0 & variables0 & selected0 & before0
        & Hproject0 & Hkey0 & Hframe0 & Hfetch0 & Hfind0 & Ha0 & _ & _ & Hup).
  rewrite Hproject in Hproject0. injection Hproject0 as <-.
  rewrite Hkey in Hkey0. injection Hkey0 as <-.
  rewrite Hframe in Hframe0. injection Hframe0 as <-.
  rewrite Hfetch in Hfetch0. injection Hfetch0 as <- <- <-.
  rewrite Hfind in Hfind0. injection Hfind0 as <-.
  destruct (upsertSnapshot_spec _ _ _ _ _ _ _ _ Ha0 Hup)
    as (_ & _ & Hrows & Hp & Hf & Hdata & _).
  cbn [fst snd]. rewrite Hdata. cbn [components baselineDataOf].
  split; [exact (findNodeById_id _ _ _ Hfind)|].
  split; [rewrite Hrows; apply lookup_insert_eq|].
  repeat split; try assumption. 
Qed.

(** ** What the traversals reach *)

Lemma ownFrame_qualifies node pageName depth :
  qualifies node -> ownFrame node pageName depth = [summaryOf node pageName depth].
Proof.
  intros [Ht (b & Hb & Hw & Hh)]. unfold ownFrame. rewrite Ht, Hb. cbn.
  apply JsFacts.Qltb_lt in Hw, Hh. now rewrite Hw, Hh.
Qed.

(** Every qualifying node no deeper than the depth ceiling is in the
    listing. *)
Lemma framesInOrder_complete root d n :
  nodeAt root d n -> forall pageName depth,
  (depth + d <= MAX_TRAVERSAL_DEPTH)%nat -> qualifies n ->
  In (summaryOf n pageName (depth + d)) (framesInOrder root pageName depth).
Proof.
  induction 1 as [root|root cs c d m Hcs Hc Hat IH]; intros pageName depth Hd Hq.
  - rewrite Nat.add_0_r in *. destruct root as [i nm t cs b].
    cbn [framesInOrder]. replace (_ <? _)%nat with false
      by (symmetry; apply Nat.ltb_ge; exact Hd).
    apply in_or_app. left. rewrite (ownFrame_qualifies _ _ _ Hq). now left.
  - destruct root as [i nm t cs0 b]. cbn [children] in Hcs. subst cs0.
    cbn [framesInOrder children]. replace (_ <? _)%nat with false
      by (symmetry; apply Nat.ltb_ge; lia).
    apply in_or_app. right. apply in_flat_map. exists c. split; [exact Hc|].
    replace (depth + S d)%nat with ((depth + 1) + d)%nat by lia.
    apply IH; [lia | exact Hq].
Qed.

Lemma firstn_short {A} (k : nat) (l : list A) :
  (length (firstn k l) < k)%nat -> firstn k l = l.
Proof.
  rewrite length_firstn. intros H. apply firstn_all2. lia.
Qed.

(** X1.  When [collectFrames(node, pageName)] returns fewer than 500 summaries
    nothing was cut: the result is the listing of the subtree in document
    order (a node before its children, the children in their order), and it
    holds the summary of every FRAME node with a box of strictly positive
    width and height that lies at most 10 levels below the root. *)
Theorem collectFrames_misses_nothing (node : FigmaNode) (pageName : string) :
  (length (collectFrames node pageName 0 []) < MAX_FRAMES)%nat ->
  collectFrames node pageName 0 [] = framesInOrder node pageName 0 /\
  forall n d, nodeAt node d n -> (d <= MAX_TRAVERSAL_DEPTH)%nat -> qualifies n ->
    In (summaryOf n pageName d) (collectFrames node pageName 0 []).
Proof.
  rewrite collectFrames_prefix. cbn [app length]. rewrite Nat.sub_0_r.
  intros Hshort. apply firstn_short in Hshort. rewrite Hshort.
  split; [reflexivity|]. intros n d Hat Hd Hq.
  exact (framesInOrder_complete node d n Hat pageName 0%nat Hd Hq).
Qed.

Lemma documentFrames_complete document pages page n d :
  children document = Some pages -> In page pages -> node_type page = "CANVAS" ->
  nodeAt page d n -> (d <= MAX_TRAVERSAL_DEPTH)%nat -> qualifies n ->
  In (summaryOf n (Js.or_else (node_name page) "Unnamed Page") d)
     (documentFrames document).
Proof.
  intros Hpages Hpage Ht Hat Hd Hq. unfold documentFrames. rewrite Hpages.
  apply in_flat_map. exists page. split; [exact Hpage|].
  unfold pageFrames. rewrite Ht. cbn [String.eqb negb].
  change (String.eqb "CANVAS" "CANVAS") with true. cbn [negb].
  exact (framesInOrder_complete page d n Hat _ 0%nat Hd Hq).
Qed.

(** X2.  [extractFramesFromDocument] returns the empty array for a document
    without children. Every summary it returns comes from a qualifying FRAME
    node under a top-level child of type CANVAS and carries the name of that
    page, or [Unnamed Page] when the name is empty, so top-level children of
    other types contribute nothing. When fewer than 500 summaries are
    returned, every qualifying node at most 10 levels below a CANVAS page is
    among them. *)
Theorem extractFramesFromDocument_pages (document : FigmaNode) :
  (children document = None -> extractFramesFromDocument document = []) /\
  (forall f, In f (extractFramesFromDocument document) ->
     exists pages page n d,
       children document = Some pages /\ In page pages /\
       node_type page = "CANVAS" /\ nodeAt page d n /\
       (d <= MAX_TRAVERSAL_DEPTH)%nat /\ qualifies n /\
       f = summaryOf n (Js.or_else (node_name page) "Unnamed Page") d) /\
  ((length (extractFramesFromDocument document) < MAX_FRAMES)%nat ->
   forall pages page n d,
     children document = Some pages -> In page pages ->
     node_type page = "CANVAS" -> nodeAt page d n ->
     (d <= MAX_TRAVERSAL_DEPTH)%nat -> qualifies n ->
     In (summaryOf n (Js.or_else (node_name page) "Unnamed Page") d)
        (extractFramesFromDocument document)).
Proof.
  split; [|split].
  - intros Hnone. unfold extractFramesFromDocument. now rewrite Hnone.
  - intros f Hf. rewrite extractFramesFromDocument_prefix in Hf.
    apply In_firstn in Hf. exact (documentFrames_origin document f Hf).
  - rewrite extractFramesFromDocument_prefix. intros Hshort.
    apply firstn_short in Hshort. rewrite Hshort.
    intros pages page n d. apply documentFrames_complete.
Qed.

Lemma or_else_nonempty a b : b <> "" -> Js.or_else a b <> "".
Proof.
  intros Hb. unfold Js.or_else. destruct (String.eqb a "") eqn:E; [exact Hb|].
  apply String.eqb_neq in E. exact E.
Qed.

Lemma Math_round_nonneg q : (0 <= q)%Q -> 0 <= Js.Math_round q.
Proof.
  intros Hq. unfold Js.Math_round.
  assert (H : Qfloor 0 <= Qfloor (q + (1 # 2))) by (apply Qfloor_resp_le; lra).
  exact H.
Qed.

Lemma Math_round_pos q : (1 # 2 <= q)%Q -> 1 <= Js.Math_round q.
Proof.
  intros Hq. unfold Js.Math_round.
  assert (H : Qfloor 1 <= Qfloor (q + (1 # 2))) by (apply Qfloor_resp_le; lra).
  exact H.
Qed.

Lemma Math_round_zero q : (0 < q)%Q -> (q < 1 # 2)%Q -> Js.Math_round q = 0.
Proof.
  intros H0 H1. unfold Js.Math_round.
  assert (Hlo : Qfloor 0 <= Qfloor (q + (1 # 2))) by (apply Qfloor_resp_le; lra).
  change (Qfloor 0) with 0 in Hlo.
  pose proof (Qfloor_le (q + (1 # 2))) as Hle.
  assert (Hhi : (inject_Z (Qfloor (q + (1 # 2))) < inject_Z 1)%Q)
    by (change (inject_Z 1) with 1%Q; lra).
  rewrite <- Zlt_Qlt in Hhi. lia.
Qed.

(** X3.  Every summary returned by [extractFramesFromDocument] is the
    summary of a node of type FRAME with a box of positive width and height,
    found under a page of type CANVAS of that document, as many levels below
    the page as the summary says: from 1 to 10, a page itself is never
    listed.  The summary has the id of that node, its name or [Unnamed
    Frame], the name of that page or [Unnamed Page], neither of them empty,
    and the rounded sides of the box of that node: integers that are never
    negative, at least 1 as soon as the side is at least 0.5, and 0 below. *)
Theorem frame_summaries_well_formed (document : FigmaNode) (f : FrameSummary) :
  In f (extractFramesFromDocument document) ->
  fs_name f <> "" /\ fs_pageName f <> "" /\
  (1 <= fs_depth f <= MAX_TRAVERSAL_DEPTH)%nat /\
  exists pages page n b,
    children document = Some pages /\ In page pages /\ node_type page = "CANVAS" /\
    nodeAt page (fs_depth f) n /\ node_type n = "FRAME" /\
    absoluteBoundingBox n = Some b /\ (0 < width b)%Q /\ (0 < height b)%Q /\
    fs_id f = node_id n /\
    fs_name f = Js.or_else (node_name n) "Unnamed Frame" /\
    fs_pageName f = Js.or_else (node_name page) "Unnamed Page" /\
    fs_width f = Js.Math_round (width b) /\ fs_height f = Js.Math_round (height b) /\
    0 <= fs_width f /\ 0 <= fs_height f /\
    ((1 # 2 <= width b)%Q -> 1 <= fs_width f) /\
    ((1 # 2 <= height b)%Q -> 1 <= fs_height f) /\
    ((width b < 1 # 2)%Q -> fs_width f = 0) /\
    ((height b < 1 # 2)%Q -> fs_height f = 0).
Proof.
  intros Hf. rewrite extractFramesFromDocument_prefix in Hf.
  apply In_firstn, documentFrames_origin in Hf
    as (pages & page & n & d & Hpages & Hin & Hpage & Hat & Hd & Hq & ->).
  destruct Hq as [Ht (b & Hb & Hw & Hh)].
  unfold summaryOf. cbn [fs_name fs_pageName fs_depth fs_width fs_height fs_id].
  rewrite Hb.
  split; [apply or_else_nonempty; discriminate|].
  split; [apply or_else_nonempty; discriminate|].
  split.
  - split; [|exact Hd]. destruct Hat as [root|]; [|lia].
    rewrite Hpage in Ht. discriminate Ht.
  - exists pages, page, n, b.
    split; [exact Hpages|]. split; [exact Hin|]. split; [exact Hpage|].
    split; [exact Hat|]. split; [exact Ht|]. split; [exact Hb|].
    split; [exact Hw|]. split; [exact Hh|].
    split; [reflexivity|]. split; [reflexivity|]. split; [reflexivity|].
    split; [reflexivity|]. split; [reflexivity|].
    split; [apply Math_round_nonneg; lra|].
    split; [apply Math_round_nonneg; lra|].
    split; [apply Math_round_pos|]. split; [apply Math_round_pos|].
    split; apply Math_round_zero; assumption.
Qed.

(** The node found is a node of the tree. *)
Lemma findNodeById_nodeAt root : forall targetId found,
  findNodeById root targetId = Some found -> exists d, nodeAt root d found.
Proof.
  induction root as [i n t cs b IH] using FigmaNode_tree_ind.
  intros targetId found. cbn [findNodeById node_id children].
  destruct (String.eqb i targetId) eqn:Ei.
  - intros [= <-]. exists 0%nat. constructor.
  - destruct cs as [cs|]; [|discriminate]. specialize (IH cs eq_refl).
    assert (Hsub : forall c, In c cs -> In c cs) by auto. revert Hsub.
    generalize cs at 1 3 as cs'. intros cs' Hsub. revert IH.
    induction cs' as [|c cs' IHcs]; intros IH; [discriminate|].
    destruct (findNodeById c targetId) as [f|] eqn:Ec.
    + intros [= <-].
      assert (Hc : In c cs) by (apply Hsub; now left).
      rewrite List.Forall_forall in IH.
      destruct (IH c Hc _ _ Ec) as [d Hat].
      exists (S d). econstructor; [reflexivity | exact Hc | exact Hat].
    + apply IHcs; [intros c' Hc'; apply Hsub; now right | exact IH].
Qed.

(** A tree that holds a node with the id is never searched in vain. *)
Lemma findNodeById_complete root d n :
  nodeAt root d n -> forall targetId, node_id n = targetId ->
  exists found, findNodeById root targetId = Some found.
Proof.
  induction 1 as [root|root cs c d m Hcs Hc Hat IH]; intros targetId Hid.
  - destruct root as [i nm t cs b]. cbn [findNodeById node_id] in *.
    subst targetId. rewrite String.eqb_refl. eauto.
  - destruct root as [i nm t cs0 b]. cbn [children] in Hcs. subst cs0.
    cbn [findNodeById node_id children].
    destruct (String.eqb i targetId); [eauto|].
    destruct (IH targetId Hid) as [found Hfound].
    clear IH Hat. induction cs as [|c0 cs IHcs]; [destruct Hc|].
    destruct (findNodeById c0 targetId) as [f0|] eqn:E0; [eauto|].
    destruct Hc as [->|Hc]; [congruence|]. exact (IHcs Hc).
Qed.

(** X4.  [findNodeById(node, targetId)] returns the node itself when its id is
    the target; whatever it returns is a node of the tree that has the target
    id; and it returns null only when no node of the tree, at any depth, has
    that id. *)
Theorem findNodeById_spec (root : FigmaNode) (targetId : string) :
  (node_id root = targetId -> findNodeById root targetId = Some root) /\
  match findNodeById root targetId with
  | Some found => node_id found = targetId /\ exists d, nodeAt root d found
  | None => forall d n, nodeAt root d n -> node_id n <> targetId
  end.
Proof.
  split.
  - intros <-. destruct root as [i nm t cs b]. cbn [findNodeById node_id].
    now rewrite String.eqb_refl.
  - destruct (findNodeById root targetId) as [found|] eqn:E.
    + split; [exact (findNodeById_id _ _ _ E) | exact (findNodeById_nodeAt _ _ _ E)].
    + intros d n Hat Hid.
      destruct (findNodeById_complete root d n Hat targetId Hid) as [found Hf].
      congruence.
Qed.


Lemma componentsOfChildren_flat depth cs : forall components,
  componentsOfChildren depth cs components =
  components ++ flat_map (keptOfChild depth) cs.
Proof.
  induction cs as [|c cs IH]; intros components;
    cbn [componentsOfChildren flat_map]; cbv zeta.
  - now rewrite app_nil_r.
  - rewrite IH. unfold keptOfChild at 2. cbv zeta.
    destruct (spreads depth (extractComponentsFromNode c (depth + 1))).
    + now rewrite <- app_assoc.
    + reflexivity.
Qed.

Lemma extractComponentsFromNode_flat node depth :
  (depth <= 10)%nat ->
  extractComponentsFromNode node depth =
  ownComponent node ++
  match children node with
  | Some cs => flat_map (keptOfChild depth) cs
  | None => []
  end.
Proof.
  intros Hd. rewrite extractComponentsFromNode_eq.
  replace (10 <? depth)%nat with false by (symmetry; apply Nat.ltb_ge; lia).
  cbv zeta. fold (ownComponent node).
  destruct (children node) as [cs|].
  - apply componentsOfChildren_flat.
  - now rewrite app_nil_r.
Qed.

Lemma keptOfChild_In depth child c :
  In c (keptOfChild depth child) <->
  spreads depth (extractComponentsFromNode child (depth + 1)) = true /\
  In c (extractComponentsFromNode child (depth + 1)).
Proof.
  unfold keptOfChild. cbv zeta.
  destruct (spreads depth (extractComponentsFromNode child (depth + 1))).
  - tauto.
  - split; [intros [] | intros [? _]; discriminate].
Qed.

Lemma ownComponent_In node c :
  In c (ownComponent node) <->
  exists bbox, componentLike node bbox /\ c = componentOf node bbox.
Proof.
  unfold componentLike, ownComponent. split.
  - destruct (isComponentType (node_type node)) eqn:Et; [|intros []].
    destruct (absoluteBoundingBox node) as [bbox|] eqn:Eb; [|intros []].
    destruct (Js.Qltb 0 (width bbox) && Js.Qltb 0 (height bbox)) eqn:Epos; [|intros []].
    apply andb_true_iff in Epos as [Hw Hh]. apply JsFacts.Qltb_lt in Hw, Hh.
    intros [<-|[]]. exists bbox. auto.
  - intros (bbox & (Ht & Hb & Hw & Hh) & ->). rewrite Ht, Hb.
    apply JsFacts.Qltb_lt in Hw, Hh. rewrite Hw, Hh. now left.
Qed.

(** The components of a subtree are the entries of its component-like
    nodes down to level 10 that no [push] has lost. *)
Lemma extractComponents_sound root : forall depth c,
  In c (extractComponentsFromNode root depth) ->
  exists n d bbox, keptAt depth root d n /\ (depth + d <= 10)%nat /\
                   componentLike n bbox /\ c = componentOf n bbox.
Proof.
  induction root as [i nm t cs b IH] using FigmaNode_tree_ind.
  intros depth c.
  destruct (10 <? depth)%nat eqn:Ed.
  { rewrite extractComponentsFromNode_eq, Ed. intros []. }
  apply Nat.ltb_ge in Ed. rewrite (extractComponentsFromNode_flat _ _ Ed).
  cbn [children]. rewrite in_app_iff. intros [H|H].
  - apply ownComponent_In in H as (bbox & Hl & ->).
    exists (mkFigmaNode i nm t cs b), 0%nat, bbox.
    rewrite Nat.add_0_r. repeat split; try apply Hl; try assumption. constructor.
  - destruct cs as [cs|]; [|destruct H].
    apply in_flat_map in H as (ch & Hch & Hc).
    apply keptOfChild_In in Hc as [Hfit Hc].
    specialize (IH cs eq_refl). rewrite List.Forall_forall in IH.
    destruct (IH ch Hch _ _ Hc) as (n & d & bbox & Hat & Hd & Hl & ->).
    exists n, (S d), bbox. repeat split; try apply Hl; try lia.
    econstructor; [reflexivity | exact Hch | exact Hfit | exact Hat].
Qed.

Lemma extractComponents_complete depth root d n :
  keptAt depth root d n -> forall bbox,
  (depth + d <= 10)%nat -> componentLike n bbox ->
  In (componentOf n bbox) (extractComponentsFromNode root depth).
Proof.
  induction 1 as [depth root|depth root cs c d m Hcs Hc Hfit Hat IH]; intros bbox Hd Hl.
  - rewrite extractComponentsFromNode_flat by lia. apply in_or_app. left.
    apply ownComponent_In. eauto.
  - rewrite extractComponentsFromNode_flat by lia. rewrite Hcs.
    apply in_or_app. right. apply in_flat_map. exists c. split; [exact Hc|].
    apply keptOfChild_In. split; [exact Hfit|]. apply IH; [lia | exact Hl].
Qed.

Lemma keptAt_nodeAt depth root d n : keptAt depth root d n -> nodeAt root d n.
Proof.
  induction 1 as [depth root|depth root cs c d m Hcs Hc Hfit Hat IH].
  - constructor.
  - econstructor; [exact Hcs | exact Hc | exact IH].
Qed.

Lemma spreadsFit_child node depth cs c :
  spreadsFit node depth = true -> children node = Some cs -> In c cs ->
  spreads depth (extractComponentsFromNode c (depth + 1)) = true /\
  spreadsFit c (depth + 1) = true.
Proof.
  destruct node as [i nm t cs0 b]. cbn [spreadsFit children].
  intros Hfit [= ->]. revert Hfit.
  induction cs as [|c0 cs IH]; [intros _ []|].
  intros Hfit [->|Hc].
  - apply andb_true_iff in Hfit as [Hfit _].
    now apply andb_true_iff in Hfit.
  - apply andb_true_iff in Hfit as [_ Hfit]. exact (IH Hfit Hc).
Qed.

Lemma nodeAt_keptAt root d n :
  nodeAt root d n -> forall depth, spreadsFit root depth = true ->
  keptAt depth root d n.
Proof.
  induction 1 as [root|root cs c d m Hcs Hc Hat IH]; intros depth Hfit.
  - constructor.
  - destruct (spreadsFit_child _ _ _ _ Hfit Hcs Hc) as [Hc1 Hc2].
    econstructor; [exact Hcs | exact Hc | exact Hc1 | exact (IH _ Hc2)].
Qed.

(** X6.  [extractComponentsFromNode(root)] holds exactly the entries of the
    nodes at most 10 levels below the root whose type is COMPONENT, INSTANCE,
    FRAME or GROUP, whose bounding box has strictly positive width and
    height, and whose entries no [push(...childComponents)] on the way up
    to the root has lost.  A [push] loses the entries of a child, all of
    them, when they are more than a call of the engine takes arguments; in
    a tree where no list is that long, the list holds the entry of every
    such node down to level 10. *)
Theorem components_exactly (root : FigmaNode) (c : FigmaComponent) :
  (In c (extractComponentsFromNode root 0) <->
   exists n d bbox, keptAt 0 root d n /\ (d <= 10)%nat /\
                    componentLike n bbox /\ c = componentOf n bbox) /\
  (forall d n, keptAt 0 root d n -> nodeAt root d n) /\
  (spreadsFit root 0 = true -> forall d n, nodeAt root d n -> keptAt 0 root d n) /\
  (forall cs,
     children root = Some cs ->
     extractComponentsFromNode root 0 =
     ownComponent root ++
     flat_map (fun child =>
                 let childComponents := extractComponentsFromNode child 1 in
                 if (N.of_nat (length childComponents) <=? spreadLimit host 0)%N
                 then childComponents else []) cs).
Proof.
  split; [split|split; [|split]].
  - intros H. exact (extractComponents_sound root 0%nat c H).
  - intros (n & d & bbox & Hat & Hd & Hl & ->).
    exact (extractComponents_complete 0%nat root d n Hat bbox Hd Hl).
  - intros d n. apply keptAt_nodeAt.
  - intros Hfit d n Hat. exact (nodeAt_keptAt root d n Hat 0%nat Hfit).
  - intros cs Hcs. rewrite extractComponentsFromNode_flat by lia. now rewrite Hcs.
Qed.

(** X7.  In a tree where no list of child components is longer than a
    call of the engine takes arguments, every frame that [collectFrames]
    reports under a node is also a component that
    [extractComponentsFromNode] reports under that node, with the same id,
    type FRAME and the same rounded width and height. The names agree unless
    the name of the node is empty: then the picker says [Unnamed Frame] and
    the component list [Unnamed]. *)
Theorem frames_are_components (root : FigmaNode) (pageName : string)
    (f : FrameSummary) :
  spreadsFit root 0 = true ->
  In f (collectFrames root pageName 0 []) ->
  exists c n,
    In c (extractComponentsFromNode root 0) /\
    comp_id c = fs_id f /\ comp_type c = "FRAME" /\
    bounds_width (bounds c) = fs_width f /\
    bounds_height (bounds c) = fs_height f /\
    fs_id f = node_id n /\
    (node_name n <> "" -> comp_name c = fs_name f) /\
    (node_name n = "" -> comp_name c = "Unnamed" /\ fs_name f = "Unnamed Frame").
Proof.
  intros Hfit Hf. rewrite collectFrames_prefix in Hf. cbn [app] in Hf.
  apply In_firstn, framesInOrder_origin in Hf as (n & d & Hat & Hd & Hq & ->).
  destruct Hq as [Ht (b & Hb & Hw & Hh)].
  assert (Hl : componentLike n b).
  { split; [|auto]. unfold isComponentType. rewrite Ht. reflexivity. }
  exists (componentOf n b), n.
  split; [exact (extractComponents_complete 0%nat root d n
                   (nodeAt_keptAt root d n Hat 0%nat Hfit) b Hd Hl)|].
  unfold componentOf, summaryOf.
  cbn [comp_id comp_type comp_name bounds bounds_width bounds_height
       fs_id fs_name fs_width fs_height].
  rewrite Hb. split; [reflexivity|]. split; [exact Ht|].
  split; [reflexivity|]. split; [reflexivity|]. split; [reflexivity|]. split.
  - intros Hn. unfold Js.or_else.
    apply String.eqb_neq in Hn. now rewrite Hn.
  - intros Hn. rewrite Hn. split; reflexivity.
Qed.

(** ** The token extractors on every input *)

Lemma clamp255_range z : 0 <= clamp255 z <= 255.
Proof. unfold clamp255. lia. Qed.

Lemma toHex_clamps z : toHex (Js.IntVal z) = twoHexDigits (clamp255 z).
Proof.
  rewrite <- (toHex_two_digits (clamp255 z) (clamp255_range z)).
  unfold toHex. fold (clamp255 z). fold (clamp255 (clamp255 z)).
  replace (clamp255 (clamp255 z)) with (clamp255 z) by (unfold clamp255; lia).
  reflexivity.
Qed.

(** X8.  [rgbToHex] clamps each integer channel to 0..255 before it renders
    it, so the result is [#] followed by six hexadecimal digits, 7 characters
    in all, also for channels out of range. Infinite channels are clamped too,
    but a NaN channel is rendered as the text NaN: (+Infinity, -Infinity, NaN)
    gives [#ff00NaN]. *)
Theorem rgbToHex_clamps (r g b : Z) :
  rgbToHex (Js.IntVal r) (Js.IntVal g) (Js.IntVal b) =
    ("#" ++ twoHexDigits (clamp255 r) ++ twoHexDigits (clamp255 g)
         ++ twoHexDigits (clamp255 b))%string /\
  String.length (rgbToHex (Js.IntVal r) (Js.IntVal g) (Js.IntVal b)) = 7%nat /\
  (0 <= r <= 255 -> clamp255 r = r) /\
  rgbToHex Js.IPosInf Js.INegInf Js.INaN = "#ff00NaN".
Proof.
  assert (Hhex : rgbToHex (Js.IntVal r) (Js.IntVal g) (Js.IntVal b) =
    ("#" ++ twoHexDigits (clamp255 r) ++ twoHexDigits (clamp255 g)
         ++ twoHexDigits (clamp255 b))%string).
  { unfold rgbToHex. now rewrite !toHex_clamps. }
  split; [exact Hhex|]. split; [rewrite Hhex; reflexivity|].
  split; [unfold clamp255; lia | vm_compute; reflexivity].
Qed.

(** X9.  In the colour token made from an object, a channel r, g or b that is
    missing is 0, and the opacity is 1 when a is missing or null and the value
    of a otherwise, 0 included. So an object without any channel, such as a
    variable alias, gives opaque black [#000000], and so does an array. *)
Theorem color_token_defaults (fields : list (string * Json)) :
  let token := colorTokenOf (JObject fields) in
  (assoc "r" fields = None -> rgb_r (rgb token) = Js.IntVal 0) /\
  (assoc "g" fields = None -> rgb_g (rgb token) = Js.IntVal 0) /\
  (assoc "b" fields = None -> rgb_b (rgb token) = Js.IntVal 0) /\
  (assoc "a" fields = None \/ assoc "a" fields = Some JNull ->
   opacity token = JNumber 1) /\
  (forall v, assoc "a" fields = Some v -> v <> JNull -> opacity token = v) /\
  (assoc "r" fields = None -> assoc "g" fields = None -> assoc "b" fields = None ->
   hex token = "#000000") /\
  (forall items,
     colorTokenOf (JArray items) =
     {| hex := "#000000";
        rgb := {| rgb_r := Js.IntVal 0; rgb_g := Js.IntVal 0; rgb_b := Js.IntVal 0 |};
        opacity := JNumber 1 |}).
Proof.
  cbv zeta. unfold colorTokenOf. cbn [property rgb rgb_r rgb_g rgb_b opacity hex].
  split; [intros ->; reflexivity|]. split; [intros ->; reflexivity|].
  split; [intros ->; reflexivity|]. split; [intros [-> | ->]; reflexivity|].
  split; [intros v -> Hv; destruct v; try reflexivity; contradiction|].
  split; [intros -> -> ->; reflexivity|]. intros items. reflexivity.
Qed.

Lemma colorStep_lookup colors id variable key :
  colorStep colors (id, variable) !! key =
  match resolvedType variable, firstModeValue variable with
  | COLOR, Some v =>
      if isObject v && negb (String.eqb (colorName id variable) "__proto__")
         && String.eqb (colorName id variable) key
      then Some (colorTokenOf v) else colors !! key
  | _, _ => colors !! key
  end.
Proof.
  unfold colorStep. fold (colorName id variable).
  destruct (resolvedType variable); try reflexivity.
  destruct (firstModeValue variable) as [v|]; [|reflexivity].
  destruct v; cbn [isObject andb]; try reflexivity.
  all: unfold Js.obj_set;
    destruct (String.eqb (colorName id variable) "__proto__"); cbn [negb andb];
    [reflexivity|];
    destruct (String.eqb (colorName id variable) key) eqn:Ek;
    [apply String.eqb_eq in Ek; subst key; apply lookup_insert_eq
    |apply String.eqb_neq in Ek; now apply lookup_insert_ne].
Qed.

Lemma color_fold_sound variables : forall colors key token,
  fold_left colorStep variables colors !! key = Some token ->
  colors !! key = Some token \/
  exists id variable, In (id, variable) variables /\ colorEntry id variable key token.
Proof.
  induction variables as [|[id variable] rest IH]; intros colors key token H.
  { now left. }
  cbn [fold_left] in H. apply IH in H as [H|(id' & v' & Hin & He)].
  - rewrite colorStep_lookup in H.
    destruct (resolvedType variable) eqn:Et; try (now left).
    destruct (firstModeValue variable) as [v|] eqn:Ev; [|now left].
    destruct (isObject v) eqn:Eo; [|now left].
    destruct (String.eqb (colorName id variable) "__proto__") eqn:Ep; [now left|].
    destruct (String.eqb (colorName id variable) key) eqn:Ek; [|now left].
    cbn [negb andb] in H. injection H as <-.
    apply String.eqb_eq in Ek. apply String.eqb_neq in Ep.
    right. exists id, variable. split; [now left|].
    unfold colorEntry. rewrite <- Ek. eauto 8.
  - right. exists id', v'. split; [now right | exact He].
Qed.

Lemma color_fold_keeps variables : forall colors key,
  is_Some (colors !! key) -> is_Some (fold_left colorStep variables colors !! key).
Proof.
  induction variables as [|[id variable] rest IH]; intros colors key H; [exact H|].
  cbn [fold_left]. apply IH. rewrite colorStep_lookup.
  repeat case_match; eauto.
Qed.

Lemma color_fold_complete variables : forall colors id variable key token,
  In (id, variable) variables -> colorEntry id variable key token ->
  is_Some (fold_left colorStep variables colors !! key).
Proof.
  induction variables as [|[id0 v0] rest IH]; intros colors id variable key token Hin He.
  { destruct Hin. }
  cbn [fold_left]. destruct Hin as [Heq|Hin].
  - injection Heq as -> ->. apply color_fold_keeps.
    destruct He as (Et & En & Hp & v & Ev & Eo & _).
    apply String.eqb_neq in Hp.
    rewrite colorStep_lookup, Et, Ev, Eo, En, Hp, String.eqb_refl. cbn. eauto.
  - eapply IH; eassumption.
Qed.

(** X10.  The colour map has an entry under a key exactly when some variable
    resolved to COLOR is filed under that key (its name, or [color-<id>] when
    the name is empty; never [__proto__]) and its first mode value is an
    object or an array; the entry is the token of such a variable. Variables
    of another type, without modes, or whose first mode is a number, string,
    boolean or null give no entry. *)
Theorem color_tokens_selection
    (variables : list (string * FigmaVariable)) (key : string) :
  (forall token, extractColorTokens variables !! key = Some token ->
     exists id variable, In (id, variable) variables /\
                         colorEntry id variable key token) /\
  (forall id variable token, In (id, variable) variables ->
     colorEntry id variable key token ->
     is_Some (extractColorTokens variables !! key)).
Proof.
  split.
  - intros token H. apply color_fold_sound in H as [H|H]; [|exact H].
    rewrite lookup_empty in H. discriminate.
  - intros id variable token Hin He. eapply color_fold_complete; eassumption.
Qed.

Lemma isRadius_not_proto name : isRadius name = true -> String.eqb name "__proto__" = false.
Proof.
  intros H. destruct (String.eqb name "__proto__") eqn:E; [|reflexivity].
  apply String.eqb_eq in E. subst name. vm_compute in H. discriminate.
Qed.

Lemma radiiStep_lookup radii id variable key :
  radiiStep radii (id, variable) !! key =
  match resolvedType variable, firstModeValue variable with
  | FLOAT, Some (JNumber value) =>
      if isRadius (radiusName id variable) && String.eqb (radiusName id variable) key
      then Some value else radii !! key
  | _, _ => radii !! key
  end.
Proof.
  unfold radiiStep. fold (radiusName id variable).
  destruct (resolvedType variable); try reflexivity.
  destruct (isRadius (radiusName id variable)) eqn:Es; cbn [negb andb].
  2:{ destruct (firstModeValue variable) as [[]|]; reflexivity. }
  destruct (firstModeValue variable) as [[]|]; try reflexivity.
  unfold Js.obj_set. rewrite (isRadius_not_proto _ Es).
  destruct (String.eqb (radiusName id variable) key) eqn:Ek.
  - apply String.eqb_eq in Ek. subst key. apply lookup_insert_eq.
  - apply String.eqb_neq in Ek. now apply lookup_insert_ne.
Qed.

Lemma radii_fold_sound variables : forall radii key value,
  fold_left radiiStep variables radii !! key = Some value ->
  radii !! key = Some value \/
  exists id variable, In (id, variable) variables /\ radiusEntry id variable key value.
Proof.
  induction variables as [|[id variable] rest IH]; intros radii key value H.
  { now left. }
  cbn [fold_left] in H. apply IH in H as [H|(id' & v' & Hin & He)].
  - rewrite radiiStep_lookup in H.
    destruct (resolvedType variable) eqn:Et; try (now left).
    destruct (firstModeValue variable) as [[| | q | | |]|] eqn:Ev; try (now left).
    destruct (isRadius (radiusName id variable)) eqn:Es; [|now left].
    destruct (String.eqb (radiusName id variable) key) eqn:Ek; [|now left].
    cbn [andb] in H. injection H as <-. apply String.eqb_eq in Ek.
    right. exists id, variable. split; [now left|].
    unfold radiusEntry. rewrite <- Ek. auto.
  - right. exists id', v'. split; [now right | exact He].
Qed.

Lemma radii_fold_keeps variables : forall radii key,
  is_Some (radii !! key) -> is_Some (fold_left radiiStep variables radii !! key).
Proof.
  induction variables as [|[id variable] rest IH]; intros radii key H; [exact H|].
  cbn [fold_left]. apply IH. rewrite radiiStep_lookup.
  repeat case_match; eauto.
Qed.

Lemma radii_fold_complete variables : forall radii id variable key value,
  In (id, variable) variables -> radiusEntry id variable key value ->
  is_Some (fold_left radiiStep variables radii !! key).
Proof.
  induction variables as [|[id0 v0] rest IH]; intros radii id variable key value Hin He.
  { destruct Hin. }
  cbn [fold_left]. destruct Hin as [Heq|Hin].
  - injection Heq as -> ->. apply radii_fold_keeps.
    destruct He as (Et & En & Es & Ev).
    rewrite radiiStep_lookup, Et, Ev, En, Es, String.eqb_refl. cbn. eauto.
  - eapply IH; eassumption.
Qed.

(** X11.  The radius map has an entry under a key exactly when some variable
    resolved to FLOAT is filed under that key (its name, or [radius-<id>] when
    the name is empty), the key contains radius, corner or rounded whatever
    the case, and the first mode of the variable is a number; the entry holds
    the number of such a variable. The two families are not exclusive: a FLOAT
    variable whose name has a word of both is in the radius map and in the
    spacing map. *)
Theorem radii_tokens_selection
    (variables : list (string * FigmaVariable)) (key : string) :
  (forall value, extractRadiiTokens variables !! key = Some value ->
     exists id variable, In (id, variable) variables /\
                         radiusEntry id variable key value) /\
  (forall id variable value, In (id, variable) variables ->
     radiusEntry id variable key value ->
     is_Some (extractRadiiTokens variables !! key)) /\
  (forall name, isRadius name = true -> isSpacing name = true ->
     forall id variable value,
       var_name variable = name -> name <> "" ->
       resolvedType variable = FLOAT ->
       firstModeValue variable = Some (JNumber value) ->
       extractRadiiTokens [(id, variable)] !! name = Some value /\
       extractSpacingTokens [(id, variable)] !! name = Some value).
Proof.
  split; [|split].
  - intros value H. apply radii_fold_sound in H as [H|H]; [|exact H].
    rewrite lookup_empty in H. discriminate.
  - intros id variable value Hin He. eapply radii_fold_complete; eassumption.
  - intros name Hr Hs id variable value Hn Hne Ht Hv.
    assert (Hrn : radiusName id variable = name).
    { unfold radiusName, Js.or_else. rewrite Hn.
      apply String.eqb_neq in Hne. now rewrite Hne. }
    assert (Hsn : spacingName id variable = name).
    { unfold spacingName, Js.or_else. rewrite Hn.
      apply String.eqb_neq in Hne. now rewrite Hne. }
    unfold extractRadiiTokens, extractSpacingTokens. cbn [fold_left].
    rewrite radiiStep_lookup, spacingStep_lookup, Ht, Hv, Hrn, Hsn, Hr, Hs.
    rewrite String.eqb_refl. split; reflexivity.
Qed.

Lemma spacing_fold_skip variables : forall spacing key,
  (forall id variable value, In (id, variable) variables ->
     ~ spacingEntry id variable key value) ->
  fold_left spacingStep variables spacing !! key = spacing !! key.
Proof.
  induction variables as [|[id variable] rest IH]; intros spacing key Hno; [reflexivity|].
  cbn [fold_left]. rewrite IH by (intros; apply Hno; now right).
  rewrite spacingStep_lookup.
  destruct (resolvedType variable) eqn:Et; try reflexivity.
  destruct (firstModeValue variable) as [[| | q | | |]|] eqn:Ev; try reflexivity.
  destruct (isSpacing (spacingName id variable)) eqn:Es; [|reflexivity].
  destruct (String.eqb (spacingName id variable) key) eqn:Ek; [|reflexivity].
  apply String.eqb_eq in Ek. exfalso.
  apply (Hno id variable q); [now left|].
  unfold spacingEntry. rewrite <- Ek. auto.
Qed.

(** X12.  When several FLOAT variables are filed under the same spacing name,
    the entry of [extractSpacingTokens] holds the value of the last of them in
    the order of the file. *)
Theorem spacing_last_wins
    (earlier later : list (string * FigmaVariable))
    (id : string) (variable : FigmaVariable) (key : string) (value : Q) :
  spacingEntry id variable key value ->
  (forall id' variable' value', In (id', variable') later ->
     ~ spacingEntry id' variable' key value') ->
  extractSpacingTokens (earlier ++ (id, variable) :: later) !! key = Some value.
Proof.
  intros (Et & En & Es & Ev) Hno. unfold extractSpacingTokens.
  rewrite fold_left_app. cbn [fold_left].
  rewrite (spacing_fold_skip later _ key Hno).
  rewrite spacingStep_lookup, Et, Ev, En, Es, String.eqb_refl. reflexivity.
Qed.

Lemma typographyStep_lookup typography id style key :
  typographyStep typography (id, style) !! key =
  match styleType style with
  | TEXT =>
      let name := Js.or_else (style_name style) ("text-" ++ id) in
      if negb (String.eqb name "__proto__") && String.eqb name key
      then Some typographyPlaceholder else typography !! key
  | _ => typography !! key
  end.
Proof.
  unfold typographyStep. destruct (styleType style); try reflexivity.
  cbv zeta. unfold Js.obj_set.
  destruct (String.eqb (Js.or_else _ _) "__proto__"); cbn [negb andb]; [reflexivity|].
  destruct (String.eqb (Js.or_else (style_name style) ("text-" ++ id)) key) eqn:Ek.
  - apply String.eqb_eq in Ek. subst key. apply lookup_insert_eq.
  - apply String.eqb_neq in Ek. now apply lookup_insert_ne.
Qed.

Lemma shadowStep_lookup shadows id style key :
  shadowStep shadows (id, style) !! key =
  match styleType style with
  | EFFECT =>
      let name := Js.or_else (style_name style) ("shadow-" ++ id) in
      if negb (String.eqb name "__proto__") && String.eqb name key
      then Some shadowPlaceholder else shadows !! key
  | _ => shadows !! key
  end.
Proof.
  unfold shadowStep. destruct (styleType style); try reflexivity.
  cbv zeta. unfold Js.obj_set.
  destruct (String.eqb (Js.or_else _ _) "__proto__"); cbn [negb andb]; [reflexivity|].
  destruct (String.eqb (Js.or_else (style_name style) ("shadow-" ++ id)) key) eqn:Ek.
  - apply String.eqb_eq in Ek. subst key. apply lookup_insert_eq.
  - apply String.eqb_neq in Ek. now apply lookup_insert_ne.
Qed.

Lemma typography_fold styles : forall typography key token,
  fold_left typographyStep styles typography !! key = Some token ->
  typography !! key = Some token \/
  (token = typographyPlaceholder /\
   exists id style, In (id, style) styles /\ styleType style = TEXT /\
                    Js.or_else (style_name style) ("text-" ++ id) = key).
Proof.
  induction styles as [|[id style] rest IH]; intros typography key token H.
  { now left. }
  cbn [fold_left] in H. apply IH in H as [H|(-> & id' & s' & Hin & He)].
  - rewrite typographyStep_lookup in H.
    destruct (styleType style) eqn:Et; try (now left). cbv zeta in H.
    destruct (String.eqb (Js.or_else _ _) "__proto__"); cbn [negb andb] in H; [now left|].
    destruct (String.eqb (Js.or_else (style_name style) ("text-" ++ id)) key) eqn:Ek;
      [|now left].
    injection H as <-. apply String.eqb_eq in Ek.
    right. split; [reflexivity|]. exists id, style. split; [now left | auto].
  - right. split; [reflexivity|]. exists id', s'. split; [now right | exact He].
Qed.

Lemma shadow_fold styles : forall shadows key token,
  fold_left shadowStep styles shadows !! key = Some token ->
  shadows !! key = Some token \/
  (token = shadowPlaceholder /\
   exists id style, In (id, style) styles /\ styleType style = EFFECT /\
                    Js.or_else (style_name style) ("shadow-" ++ id) = key).
Proof.
  induction styles as [|[id style] rest IH]; intros shadows key token H.
  { now left. }
  cbn [fold_left] in H. apply IH in H as [H|(-> & id' & s' & Hin & He)].
  - rewrite shadowStep_lookup in H.
    destruct (styleType style) eqn:Et; try (now left). cbv zeta in H.
    destruct (String.eqb (Js.or_else _ _) "__proto__"); cbn [negb andb] in H; [now left|].
    destruct (String.eqb (Js.or_else (style_name style) ("shadow-" ++ id)) key) eqn:Ek;
      [|now left].
    injection H as <-. apply String.eqb_eq in Ek.
    right. split; [reflexivity|]. exists id, style. split; [now left | auto].
  - right. split; [reflexivity|]. exists id', s'. split; [now right | exact He].
Qed.

Lemma typography_fold_keeps styles : forall typography key,
  typography !! key = Some typographyPlaceholder ->
  fold_left typographyStep styles typography !! key = Some typographyPlaceholder.
Proof.
  induction styles as [|[id style] rest IH]; intros typography key H; [exact H|].
  cbn [fold_left]. apply IH. rewrite typographyStep_lookup.
  destruct (styleType style); try exact H. cbv zeta.
  destruct (_ && _); [reflexivity | exact H].
Qed.

Lemma shadow_fold_keeps styles : forall shadows key,
  shadows !! key = Some shadowPlaceholder ->
  fold_left shadowStep styles shadows !! key = Some shadowPlaceholder.
Proof.
  induction styles as [|[id style] rest IH]; intros shadows key H; [exact H|].
  cbn [fold_left]. apply IH. rewrite shadowStep_lookup.
  destruct (styleType style); try exact H. cbv zeta.
  destruct (_ && _); [reflexivity | exact H].
Qed.

(** X13.  [extractTypographyTokens] has an entry for the name of every TEXT
    style (or [text-<id>] when the name is empty) and [extractShadowTokens]
    one for the name of every EFFECT style (or [shadow-<id>]), the name
    [__proto__] apart; every entry is the fixed placeholder (Unknown, 16, 400,
    1.5, and a black drop shadow of opacity 0.25, offset (0,4), blur 8, spread
    0), never a value read from the file, and styles of other types give no
    entry. *)
Theorem style_tokens_are_placeholders
    (styles : list (string * FigmaStyle)) (key : string) :
  (forall token, extractTypographyTokens styles !! key = Some token ->
     token = typographyPlaceholder /\
     exists id style, In (id, style) styles /\ styleType style = TEXT /\
                      Js.or_else (style_name style) ("text-" ++ id) = key) /\
  (forall id style, In (id, style) styles -> styleType style = TEXT ->
     Js.or_else (style_name style) ("text-" ++ id) = key -> key <> "__proto__" ->
     extractTypographyTokens styles !! key = Some typographyPlaceholder) /\
  (forall token, extractShadowTokens styles !! key = Some token ->
     token = shadowPlaceholder /\
     exists id style, In (id, style) styles /\ styleType style = EFFECT /\
                      Js.or_else (style_name style) ("shadow-" ++ id) = key) /\
  (forall id style, In (id, style) styles -> styleType style = EFFECT ->
     Js.or_else (style_name style) ("shadow-" ++ id) = key -> key <> "__proto__" ->
     extractShadowTokens styles !! key = Some shadowPlaceholder).
Proof.
  split; [|split; [|split]].
  - intros token H. apply typography_fold in H as [H|H]; [|exact H].
    rewrite lookup_empty in H. discriminate.
  - intros id style Hin Ht Hk Hp. unfold extractTypographyTokens.
    generalize (∅ : gmap string TypographyToken).
    induction styles as [|[id0 s0] rest IH]; intros acc; [destruct Hin|].
    cbn [fold_left]. destruct Hin as [Heq|Hin]; [|exact (IH Hin _)].
    injection Heq as -> ->. apply typography_fold_keeps.
    rewrite typographyStep_lookup, Ht. cbv zeta. rewrite Hk.
    apply String.eqb_neq in Hp. now rewrite Hp, String.eqb_refl.
  - intros token H. apply shadow_fold in H as [H|H]; [|exact H].
    rewrite lookup_empty in H. discriminate.
  - intros id style Hin Ht Hk Hp. unfold extractShadowTokens.
    generalize (∅ : gmap string ShadowToken).
    induction styles as [|[id0 s0] rest IH]; intros acc; [destruct Hin|].
    cbn [fold_left]. destruct Hin as [Heq|Hin]; [|exact (IH Hin _)].
    injection Heq as -> ->. apply shadow_fold_keeps.
    rewrite shadowStep_lookup, Ht. cbv zeta. rewrite Hk.
    apply String.eqb_neq in Hp. now rewrite Hp, String.eqb_refl.
Qed.

(** ** The envelope of the cipher and its key *)

Lemma encode_lowerHex bs : Forall lowerHex (Hex.encode bs).
Proof.
  unfold Hex.encode. induction bs as [|b bs IH]; cbn [flat_map app]; [constructor|].
  pose proof (BytesFacts.to_Z_range b) as Hb.
  assert (Hd : forall n, 0 <= n < 16 -> lowerHex (Hex.digit n)).
  { intros n Hn. unfold lowerHex, Hex.digit. destruct (Z.ltb_spec n 10); lia. }
  constructor; [apply Hd; split; [apply Z.div_pos; lia | apply Z.div_lt_upper_bound; lia]|].
  constructor; [apply Hd; apply Z.mod_pos_bound; lia | exact IH].
Qed.

Lemma encrypt_run key plaintext w :
  getEncryptionKey = Ok key ->
  let iv := map (entropy host) (seq (entropyUsed w) IV_LENGTH) in
  let sealed := gcm_seal (aes host) key iv (Utf.utf8Encode plaintext) in
  encrypt plaintext w = (Ok (envelope iv (snd sealed) (fst sealed)), drawn IV_LENGTH w).
Proof.
  intros Hkey iv sealed. unfold encrypt, try_catch, bind, lift, randomBytes.
  rewrite Hkey. fold iv. fold sealed. destruct sealed. reflexivity.
Qed.

(** X14.  With a valid key, [encrypt] draws exactly 16 random bytes and
    changes nothing else. Its result has exactly three fields separated by
    colons, all of lower-case hexadecimal digits: the first two of 32 digits
    (the vector and the tag), the third of even length; the first field
    decodes to the bytes drawn. *)
Theorem encrypt_envelope_shape (plaintext : JsString) (key : list byte) (w : World) :
  getEncryptionKey = Ok key ->
  LawfulCipher (aes host) key ->
  exists ivHex authTagHex ciphertextHex,
    encrypt plaintext w =
      (Ok (ivHex ++ [58] ++ authTagHex ++ [58] ++ ciphertextHex), drawn 16 w) /\
    split 58 (ivHex ++ [58] ++ authTagHex ++ [58] ++ ciphertextHex) =
      [ivHex; authTagHex; ciphertextHex] /\
    length ivHex = 32%nat /\ length authTagHex = 32%nat /\
    Nat.Even (length ciphertextHex) /\
    Forall lowerHex ivHex /\ Forall lowerHex authTagHex /\
    Forall lowerHex ciphertextHex /\
    Hex.decode ivHex = map (entropy host) (seq (entropyUsed w) 16).
Proof.
  intros Hkey Hlaw.
  set (iv := map (entropy host) (seq (entropyUsed w) IV_LENGTH)).
  set (sealed := gcm_seal (aes host) key iv (Utf.utf8Encode plaintext)).
  exists (Hex.encode iv), (Hex.encode (snd sealed)), (Hex.encode (fst sealed)).
  split; [exact (encrypt_run key plaintext w Hkey)|].
  split; [exact (split_envelope iv (snd sealed) (fst sealed))|].
  rewrite !HexFacts.length_encode.
  split; [subst iv; now rewrite length_map, length_seq|].
  split; [subst sealed; now rewrite (tag_length _ _ Hlaw)|].
  split; [eexists; reflexivity|].
  split; [apply encode_lowerHex|]. split; [apply encode_lowerHex|].
  split; [apply encode_lowerHex|]. apply HexFacts.decode_encode.
Qed.

Lemma getEncryptionKey_Ok key :
  getEncryptionKey = Ok key <->
  exists k, ENCRYPTION_KEY (env host) = Some k /\ Hex.decode k = key /\
            length key = 32%nat.
Proof.
  unfold getEncryptionKey. split.
  - destruct (ENCRYPTION_KEY (env host)) as [[|u k]|] eqn:Ek; cbn [falsyUnits];
      try discriminate.
    change (default [] (Some (u :: k))) with (u :: k).
    destruct (Nat.eqb_spec (length (Hex.decode (u :: k))) KEY_LENGTH)
      as [Hlen|]; cbn [negb]; [|discriminate].
    intros [= <-]. eauto.
  - intros (k & -> & <- & Hlen). destruct k as [|u k]; [discriminate Hlen|].
    cbn [falsyUnits]. change (default [] (Some (u :: k))) with (u :: k).
    change KEY_LENGTH with 32%nat. rewrite Hlen. reflexivity.
Qed.

Lemma getEncryptionKey_message :
  (exists key, getEncryptionKey = Ok key) \/
  (exists message, getEncryptionKey = Throw (JsError message)).
Proof.
  unfold getEncryptionKey. destruct (falsyUnits _); [right; eauto|].
  destruct (negb _); [right; eauto | left; eauto].
Qed.

(** X15.  [getEncryptionKey] succeeds exactly when ENCRYPTION_KEY is set and
    its hexadecimal reading has 32 bytes. Otherwise [encrypt] and [decrypt]
    both throw an Error whose message is [Encryption failed: ], respectively
    [Decryption failed: ], followed by the message of the key, and [encrypt]
    draws no random bytes. An unset or empty key is reported as not
    configured, a key of another length as [ENCRYPTION_KEY must be 32 bytes
    (64 hex characters). Got n bytes.]. *)
Theorem cipher_needs_valid_key :
  (forall key, getEncryptionKey = Ok key <->
     exists k, ENCRYPTION_KEY (env host) = Some k /\ Hex.decode k = key /\
               length key = 32%nat) /\
  ((forall key, getEncryptionKey <> Ok key) ->
   exists message,
     getEncryptionKey = Throw (JsError message) /\
     (forall plaintext w,
        encrypt plaintext w =
        (Throw (JsError ("Encryption failed: " ++ message)), w)) /\
     (forall encryptedData,
        decrypt encryptedData =
        Throw (JsError ("Decryption failed: " ++ message)))) /\
  (falsyUnits (ENCRYPTION_KEY (env host)) = true ->
   exists rest,
     getEncryptionKey = Throw (JsError ("ENCRYPTION_KEY not configured." ++ rest))) /\
  (forall k, ENCRYPTION_KEY (env host) = Some k -> k <> [] ->
     length (Hex.decode k) <> 32%nat ->
     getEncryptionKey =
     Throw (JsError ("ENCRYPTION_KEY must be 32 bytes (64 hex characters). Got " ++
                     decimal (length (Hex.decode k)) ++ " bytes."))).
Proof.
  split; [exact getEncryptionKey_Ok|]. split; [|split].
  - intros Hno. destruct getEncryptionKey_message as [[key Hk]|[message Hm]].
    { destruct (Hno key Hk). }
    exists message. split; [exact Hm|]. split.
    + intros plaintext w. unfold encrypt, try_catch, bind, lift. rewrite Hm.
      reflexivity.
    + intros encryptedData. unfold decrypt, decryptParts. rewrite Hm. reflexivity.
  - intros Hf. unfold getEncryptionKey. rewrite Hf. eexists. reflexivity.
  - intros k Hk Hne Hlen. unfold getEncryptionKey. rewrite Hk.
    destruct k as [|u k]; [contradiction|]. cbn [falsyUnits].
    change (default [] (Some (u :: k))) with (u :: k).
    destruct (Nat.eqb_spec (length (Hex.decode (u :: k))) KEY_LENGTH) as [Heq|_];
      [contradiction|]. reflexivity.
Qed.

(** X16.  With a valid key, [decrypt] throws [Decryption failed: Invalid
    encrypted data format. Expected: iv:authTag:ciphertext] for every input
    that does not hold exactly two colons, [Invalid IV length] with the length
    found when the first field does not decode to 16 bytes, and [Invalid auth
    tag length] when the second does not. *)
Theorem decrypt_rejects_malformed (key : list byte) (encryptedData : JsString) :
  getEncryptionKey = Ok key ->
  (count_occ Z.eq_dec encryptedData 58 <> 2%nat ->
   decrypt encryptedData =
   Throw (JsError ("Decryption failed: Invalid encrypted data format. " ++
                   "Expected: iv:authTag:ciphertext"))) /\
  (forall ivHex authTagHex ciphertext,
     split 58 encryptedData = [ivHex; authTagHex; ciphertext] ->
     (length (Hex.decode ivHex) <> 16%nat ->
      decrypt encryptedData =
      Throw (JsError ("Decryption failed: Invalid IV length: expected 16 bytes, got " ++
                      decimal (length (Hex.decode ivHex))))) /\
     (length (Hex.decode ivHex) = 16%nat ->
      length (Hex.decode authTagHex) <> 16%nat ->
      decrypt encryptedData =
      Throw (JsError ("Decryption failed: Invalid auth tag length: expected 16 bytes, got " ++
                      decimal (length (Hex.decode authTagHex)))))).
Proof.
  intros Hkey. split.
  - intros Hcount. unfold decrypt, decryptParts. rewrite Hkey.
    pose proof (length_split 58 encryptedData) as Hlen.
    destruct (split 58 encryptedData) as [|a [|b [|c [|d rest]]]]; try reflexivity.
    cbn [length] in Hlen. congruence.
  - intros ivHex authTagHex ciphertext Hsplit. unfold decrypt, decryptParts.
    rewrite Hkey, Hsplit. split.
    + intros Hiv. destruct (Nat.eqb_spec (length (Hex.decode ivHex)) IV_LENGTH);
        [contradiction|]. reflexivity.
    + intros Hiv Htag. change IV_LENGTH with 16%nat. rewrite Hiv.
      cbn [Nat.eqb negb].
      destruct (Nat.eqb_spec (length (Hex.decode authTagHex)) AUTH_TAG_LENGTH);
        [contradiction|]. reflexivity.
Qed.

(** ** Access tokens and their refresh *)

Lemma sameStore_refl w : sameStore w w.
Proof. split; reflexivity. Qed.

Lemma sameStore_trans a b c : sameStore a b -> sameStore b c -> sameStore a c.
Proof. intros [H1 H2] [H3 H4]. split; congruence. Qed.

Lemma sameStore_encrypt plaintext : respects sameStore (encrypt plaintext).
Proof.
  intros w. unfold encrypt, try_catch, bind, lift, randomBytes.
  destruct getEncryptionKey as [key|e]; [|apply sameStore_refl].
  destruct (gcm_seal _ _ _ _). split; reflexivity.
Qed.

Lemma sameStore_tokensToStore data : respects sameStore (tokensToStore data).
Proof.
  unfold tokensToStore.
  destruct (falsyUnits _); [apply (respects_ret sameStore sameStore_refl)|].
  apply (respects_try_catch sameStore sameStore_trans);
    [|intros; apply (respects_ret sameStore sameStore_refl)].
  apply (respects_bind sameStore sameStore_trans); [apply sameStore_encrypt|]. intros a.
  apply (respects_try_catch sameStore sameStore_trans);
    [|intros; apply (respects_ret sameStore sameStore_refl)].
  apply (respects_bind sameStore sameStore_trans); [apply sameStore_encrypt|]. intros r.
  apply (respects_ret sameStore sameStore_refl).
Qed.

Lemma tokensToStore_returns data w :
  exists encrypted, fst (tokensToStore data w) = Ok encrypted.
Proof.
  unfold tokensToStore. destruct (falsyUnits _); [eexists; reflexivity|].
  unfold try_catch, bind, ret.
  destruct (encrypt (access_token data) w) as [[a|e] w1]; [|eexists; reflexivity].
  destruct (encrypt (refresh_token data) w1) as [[r|e] w2]; eexists; reflexivity.
Qed.

Lemma valid_key_enabled key :
  getEncryptionKey = Ok key -> falsyUnits (ENCRYPTION_KEY (env host)) = false.
Proof.
  intros Hkey. apply getEncryptionKey_Ok in Hkey as (k & -> & <- & Hlen).
  destruct k; [discriminate Hlen | reflexivity].
Qed.

(** With a valid key both tokens are stored as envelopes. *)
Lemma tokensToStore_encrypted key data w :
  getEncryptionKey = Ok key ->
  exists iv1 iv2 w2,
    length iv1 = IV_LENGTH /\ length iv2 = IV_LENGTH /\
    tokensToStore data w =
      (Ok (sealedEnvelope key iv1 (access_token data),
           sealedEnvelope key iv2 (refresh_token data)), w2).
Proof.
  intros Hkey. unfold tokensToStore.
  rewrite (valid_key_enabled key Hkey). unfold try_catch, bind, ret.
  rewrite (encrypt_run key (access_token data) w Hkey). cbv zeta.
  rewrite (encrypt_run key (refresh_token data) _ Hkey). cbv zeta.
  eexists. eexists. eexists. split; [|split; [|reflexivity]];
    now rewrite length_map, length_seq.
Qed.

Lemma decryptIfEnabled_cases token :
  decryptIfEnabled token = token \/ decrypt token = Ok (decryptIfEnabled token).
Proof.
  unfold decryptIfEnabled. destruct (falsyUnits _); [now left|].
  destruct (decrypt token); [now right | now left].
Qed.

(** X17.  The reading of a stored token by the client (decrypt when
    ENCRYPTION_KEY is set, keep the stored value when that fails) never fails:
    it returns either the stored value or what [decrypt] returns for it. It is
    the stored value when no key or no valid key is configured and when the
    token does not hold exactly two colons (a token stored in the clear); it
    is the plaintext for a token that [encrypt] produced under the valid key. *)
Theorem decryptIfEnabled_fallback (token : JsString) :
  (decryptIfEnabled token = token \/ decrypt token = Ok (decryptIfEnabled token)) /\
  (falsyUnits (ENCRYPTION_KEY (env host)) = true -> decryptIfEnabled token = token) /\
  ((forall key, getEncryptionKey <> Ok key) -> decryptIfEnabled token = token) /\
  (count_occ Z.eq_dec token 58 <> 2%nat -> decryptIfEnabled token = token) /\
  (forall key plaintext w,
     getEncryptionKey = Ok key -> LawfulCipher (aes host) key ->
     Utf.isWellFormed plaintext = true ->
     fst (encrypt plaintext w) = Ok token ->
     decryptIfEnabled token = plaintext).
Proof.
  split; [apply decryptIfEnabled_cases|]. split; [|split; [|split]].
  - intros Hf. unfold decryptIfEnabled. now rewrite Hf.
  - intros Hno. unfold decryptIfEnabled. destruct (falsyUnits _); [reflexivity|].
    unfold decrypt, decryptParts.
    destruct getEncryptionKey as [key|e] eqn:Hk; [destruct (Hno key eq_refl) | reflexivity].
  - intros Hcount. unfold decryptIfEnabled. destruct (falsyUnits _); [reflexivity|].
    destruct (decrypt_needs_two_colons token Hcount) as [m ->]. reflexivity.
  - intros key plaintext w Hkey Hlaw Hwf Henc.
    destruct (decrypt_encrypt_any plaintext key w Hkey Hlaw) as (e & He & Hd).
    rewrite Henc in He. injection He as <-.
    rewrite UtfFacts.utf8Decode_utf8Encode in Hd by exact Hwf.
    unfold decryptIfEnabled. now rewrite Hd, (valid_key_enabled key Hkey).
Qed.

(** X18.  For a project whose credential expires 2 minutes from now or later,
    and with no other request interfering, [getFigmaAccessToken] returns the
    stored access token as read by the client and changes nothing: no request
    is sent, nothing is written, no random byte is drawn. *)
Theorem access_token_without_refresh
    (projectId : string) (credential : FigmaCredential) (w : World) :
  ambient w = [] ->
  credentialOf projectId (db w) = Some credential ->
  2 * 60 * 1000 <= accessTokenExpiresAt credential - now w ->
  getFigmaAccessToken projectId w =
  (Ok (decryptIfEnabled (accessToken credential)), w).
Proof.
  intros Ha Hc Hfar. unfold getFigmaAccessToken, getFigmaCredentialForProject.
  unfold bind at 1. unfold try_catch. rewrite (prisma_calm _ w Ha). cbn [fst snd].
  rewrite set_db_same. unfold credentialOf in Hc. rewrite Hc.
  unfold bind. rewrite refresh_unfold.
  replace (_ <? _) with false by (symmetry; apply Z.ltb_ge; lia). reflexivity.
Qed.

Lemma storeRefreshed_failure credential data w e w' :
  ambient w = [] ->
  storeRefreshed credential data w = (Throw e, w') -> db w' = db w.
Proof.
  intros Ha. unfold storeRefreshed. unfold bind at 1. unfold Date_now at 1.
  unfold bind at 1.
  destruct (sameStore_tokensToStore data w) as [Hdb Hamb].
  destruct (tokensToStore_returns data w) as [enc Henc].
  destruct (tokensToStore data w) as [r w1]. cbn [fst snd] in *. subst r.
  unfold bind at 1. unfold Date_now at 1.
  destruct (negb (validTime _)); [intros [= _ <-]; exact Hdb|].
  rewrite prisma_calm by congruence.
  unfold updateCredential. destruct (find _ _); [discriminate|].
  cbn [fst snd]. intros [= _ <-]. rewrite set_db_same. exact Hdb.
Qed.

(** X19.  While no other request interferes, a call of
    [refreshAccessTokenIfNeeded] that throws leaves the database as it was,
    and the credential was less than 2 minutes from its expiry. When the
    client id or secret is missing it throws FigmaApiError 500 [Figma OAuth
    credentials not configured] without sending a request; when the token
    endpoint answers with a status that is not a success it throws a
    FigmaApiError carrying that status. *)
Theorem failed_refresh_writes_nothing
    (credential : FigmaCredential) (w w' : World) (e : Exn) :
  ambient w = [] ->
  refreshAccessTokenIfNeeded credential w = (Throw e, w') ->
  db w' = db w /\
  accessTokenExpiresAt credential - now w < 2 * 60 * 1000 /\
  (falsy (FIGMA_CLIENT_ID (env host)) || falsy (FIGMA_CLIENT_SECRET (env host)) = true ->
   w' = w /\
   e = FigmaApiError "Figma OAuth credentials not configured" 500 "/api/oauth/token") /\
  (forall response,
     falsy (FIGMA_CLIENT_ID (env host)) || falsy (FIGMA_CLIENT_SECRET (env host)) = false ->
     reply (tokenEndpoint (peers host) (refreshCall credential :: httpLog w)) = Ok response ->
     ok response = false ->
     e = FigmaApiError "Failed to refresh Figma access token" (status response)
                       "/api/oauth/token").
Proof.
  intros Ha. rewrite refresh_unfold.
  destruct (Z.ltb_spec (accessTokenExpiresAt credential - now w) (2 * 60 * 1000))
    as [Hnear|Hfar]; cbn [negb]; [|discriminate].
  destruct (falsy _ || falsy _) eqn:Hconf.
  { intros [= <- <-]. split; [reflexivity|]. split; [exact Hnear|].
    split; [auto | discriminate]. }
  unfold bind at 1, fetch. fold (refreshCall credential).
  set (answer := tokenEndpoint (peers host) (refreshCall credential :: httpLog w)).
  set (w1 := {| db := db w; now := now w + Z.of_N (latency answer);
                ambient := ambient w; entropyUsed := entropyUsed w;
                idsUsed := idsUsed w; httpLog := refreshCall credential :: httpLog w |}).
  intros H.
  assert (Hdb : db w' = db w).
  { destruct (reply answer) as [response|e0]; [|now injection H as _ <-].
    destruct (negb (ok response)); [now injection H as _ <-|].
    unfold json, bind in H. destruct (body response) as [data|];
      [|now injection H as _ <-].
    unfold ret in H. exact (storeRefreshed_failure credential data w1 e w' Ha H). }
  split; [exact Hdb|]. split; [exact Hnear|]. split; [discriminate|].
  intros response _ Hreply Hok. rewrite Hreply, Hok in H. cbn [negb] in H.
  now injection H as <- _.
Qed.

Lemma decrypt_sealed key iv plaintext :
  getEncryptionKey = Ok key -> LawfulCipher (aes host) key ->
  length iv = IV_LENGTH ->
  decrypt (sealedEnvelope key iv plaintext) =
  Ok (Utf.utf8Decode (Utf.utf8Encode plaintext)).
Proof.
  intros Hkey Hlaw Hiv. unfold sealedEnvelope. cbv zeta.
  rewrite (decrypt_envelope key); try assumption.
  - now rewrite (open_sealed _ _ Hlaw).
  - apply (tag_length _ _ Hlaw).
Qed.

Lemma updateCredential_id id change d fresh :
  fst (updateCredential id change d) = Ok fresh ->
  exists c, cred_id c = id /\ fresh = change c.
Proof.
  unfold updateCredential.
  destruct (find _ (figmaCredentials d)) as [c|] eqn:Ef; [|discriminate].
  cbn [fst]. intros [= <-]. apply find_some in Ef as [_ Hid].
  apply String.eqb_eq in Hid. eauto.
Qed.

(** What a successful [storeRefreshed] stores, in terms of what
    [tokensToStore] prepared. *)
Lemma storeRefreshed_stored credential data w fresh w' :
  storeRefreshed credential data w = (Ok fresh, w') ->
  exists encrypted,
    fst (tokensToStore data w) = Ok encrypted /\
    accessToken fresh = fst encrypted /\ refreshToken fresh = snd encrypted /\
    cred_id fresh = cred_id credential /\
    In fresh (figmaCredentials (db w')) /\
    httpLog w' = httpLog w.
Proof.
  intros H.
  destruct (offline_storeRefreshed credential data w) as [Hlog _].
  rewrite H in Hlog. cbn [snd] in Hlog.
  revert H. unfold storeRefreshed. unfold bind at 1. unfold Date_now at 1.
  unfold bind at 1.
  destruct (tokensToStore data w) as [[enc|e] w1]; [|discriminate].
  unfold bind at 1. unfold Date_now at 1.
  destruct (negb (validTime _)); [discriminate|].
  unfold prisma, bind, statement.
  destruct (ambientStep w1) as [[[]|e] w2]; [|discriminate].
  destruct (updateCredential _ _ (db w2)) as [r d] eqn:Eu.
  intros [= -> <-]. cbn [db set_db].
  match type of Eu with
  | updateCredential ?i ?c ?d0 = _ =>
      pose proof (updateCredential_stored i c d0 fresh) as Hs;
      pose proof (updateCredential_id i c d0 fresh) as Hi
  end.
  rewrite Eu in Hs, Hi. destruct (Hs eq_refl) as [Hin _].
  destruct (Hi eq_refl) as (c & Hc & ->).
  exists enc. cbn [fst snd refreshed accessToken refreshToken cred_id].
  repeat split; try assumption; reflexivity.
Qed.

(** A successful refresh, unfolded to its three steps. *)
Lemma refresh_success credential w fresh w' :
  accessTokenExpiresAt credential - now w < 2 * 60 * 1000 ->
  refreshAccessTokenIfNeeded credential w = (Ok fresh, w') ->
  let answer := tokenEndpoint (peers host) (refreshCall credential :: httpLog w) in
  exists response data,
    reply answer = Ok response /\ ok response = true /\ body response = Some data /\
    storeRefreshed credential data
      {| db := db w; now := now w + Z.of_N (latency answer);
         ambient := ambient w; entropyUsed := entropyUsed w;
         idsUsed := idsUsed w; httpLog := refreshCall credential :: httpLog w |}
    = (Ok fresh, w').
Proof.
  intros Hnear H answer. rewrite refresh_unfold in H.
  replace (_ <? _) with true in H by (symmetry; apply Z.ltb_lt; lia). cbn [negb] in H.
  destruct (falsy _ || falsy _); [discriminate|].
  unfold bind at 1, fetch in H. fold (refreshCall credential) in H. fold answer in H.
  destruct (reply answer) as [response|e] eqn:Ereply; [|discriminate].
  destruct (ok response) eqn:Eok; cbn [negb] in H; [|discriminate].
  unfold json, bind in H. destruct (body response) as [data|] eqn:Ebody; [|discriminate].
  unfold ret in H. exists response, data.
  split; [reflexivity|]. split; [exact Eok|]. split; [exact Ebody | exact H].
Qed.

(** X20.  With a valid key and no other request interfering, when
    [getFigmaAccessToken] has to refresh the credential and returns a token,
    the token is the access token that the provider sent (the very string when
    it is well formed), exactly one request went out, to the token endpoint,
    and the stored credential holds both new tokens as envelopes of [encrypt]
    that [decrypt] reads back. *)
Theorem refreshed_token_is_returned
    (projectId : string) (credential : FigmaCredential) (w w' : World)
    (key : list byte) (token : JsString) :
  ambient w = [] ->
  credentialOf projectId (db w) = Some credential ->
  accessTokenExpiresAt credential - now w < 2 * 60 * 1000 ->
  getEncryptionKey = Ok key ->
  LawfulCipher (aes host) key ->
  getFigmaAccessToken projectId w = (Ok token, w') ->
  exists response data stored iv1 iv2,
    reply (tokenEndpoint (peers host) (refreshCall credential :: httpLog w)) = Ok response /\
    body response = Some data /\
    token = Utf.utf8Decode (Utf.utf8Encode (access_token data)) /\
    (Utf.isWellFormed (access_token data) = true -> token = access_token data) /\
    In stored (figmaCredentials (db w')) /\
    cred_id stored = cred_id credential /\
    accessToken stored = sealedEnvelope key iv1 (access_token data) /\
    refreshToken stored = sealedEnvelope key iv2 (refresh_token data) /\
    decrypt (accessToken stored) = Ok token /\
    decrypt (refreshToken stored) =
      Ok (Utf.utf8Decode (Utf.utf8Encode (refresh_token data))) /\
    httpLog w' = refreshCall credential :: httpLog w.
Proof.
  intros Ha Hc Hnear Hkey Hlaw.
  unfold getFigmaAccessToken, getFigmaCredentialForProject.
  unfold bind at 1. unfold try_catch. rewrite (prisma_calm _ w Ha). cbn [fst snd].
  rewrite set_db_same. unfold credentialOf in Hc. rewrite Hc.
  unfold bind.
  destruct (refreshAccessTokenIfNeeded credential w) as [[fresh|e] w2] eqn:Hrefresh;
    [|discriminate].
  unfold ret. intros [= <- <-].
  destruct (refresh_success credential w fresh w2 Hnear Hrefresh)
    as (response & data & Hreply & _ & Hbody & Hstore).
  apply storeRefreshed_stored in Hstore
    as (enc & Henc & Hat & Hrt & Hid & Hin & Hlog).
  destruct (tokensToStore_encrypted key data
              {| db := db w;
                 now := now w + Z.of_N (latency (tokenEndpoint (peers host)
                                                   (refreshCall credential :: httpLog w)));
                 ambient := ambient w; entropyUsed := entropyUsed w;
                 idsUsed := idsUsed w;
                 httpLog := refreshCall credential :: httpLog w |} Hkey)
    as (iv1 & iv2 & wb & Hiv1 & Hiv2 & Htok).
  rewrite Htok in Henc. unfold fst at 1 in Henc. injection Henc as <-.
  unfold fst in Hat. unfold snd in Hrt.
  assert (Hda : decrypt (accessToken fresh) =
                Ok (Utf.utf8Decode (Utf.utf8Encode (access_token data))))
    by (rewrite Hat; now apply decrypt_sealed).
  assert (Hdr : decrypt (refreshToken fresh) =
                Ok (Utf.utf8Decode (Utf.utf8Encode (refresh_token data))))
    by (rewrite Hrt; now apply decrypt_sealed).
  assert (Htoken : decryptIfEnabled (accessToken fresh) =
                   Utf.utf8Decode (Utf.utf8Encode (access_token data))).
  { unfold decryptIfEnabled. now rewrite (valid_key_enabled key Hkey), Hda. }
  exists response, data, fresh, iv1, iv2.
  split; [exact Hreply|]. split; [exact Hbody|]. split; [exact Htoken|].
  split; [intros Hwf; rewrite Htoken; now apply UtfFacts.utf8Decode_utf8Encode|].
  split; [exact Hin|]. split; [exact Hid|]. split; [exact Hat|]. split; [exact Hrt|].
  split; [now rewrite Htoken|]. split; [exact Hdr | exact Hlog].
Qed.

Lemma tokensToStore_plain data w :
  (forall key, getEncryptionKey <> Ok key) ->
  tokensToStore data w = (Ok (access_token data, refresh_token data), w).
Proof.
  intros Hno. unfold tokensToStore. destruct (falsyUnits _); [reflexivity|].
  unfold try_catch, bind, encrypt, try_catch, bind, lift.
  destruct getEncryptionKey as [key|e] eqn:Hk; [destruct (Hno key eq_refl)|].
  reflexivity.
Qed.

(** X21.  Without a valid key (ENCRYPTION_KEY unset, or set to something that
    is not 32 bytes of hexadecimal), a refresh that succeeds sends the stored
    refresh token as it is and stores the access and refresh tokens of the
    provider in the clear; they are read back as stored. *)
Theorem refresh_without_valid_key
    (credential fresh : FigmaCredential) (w w' : World) :
  (forall key, getEncryptionKey <> Ok key) ->
  accessTokenExpiresAt credential - now w < 2 * 60 * 1000 ->
  refreshAccessTokenIfNeeded credential w = (Ok fresh, w') ->
  exists response data,
    refreshCall credential =
      PostToken (default "" (FIGMA_CLIENT_ID (env host)))
                (default "" (FIGMA_CLIENT_SECRET (env host)))
                (refreshToken credential) /\
    reply (tokenEndpoint (peers host) (refreshCall credential :: httpLog w)) = Ok response /\
    body response = Some data /\
    accessToken fresh = access_token data /\
    refreshToken fresh = refresh_token data /\
    In fresh (figmaCredentials (db w')) /\
    decryptIfEnabled (accessToken fresh) = access_token data.
Proof.
  intros Hno Hnear Hrefresh.
  assert (Hplain : forall token, decryptIfEnabled token = token).
  { intros token. unfold decryptIfEnabled. destruct (falsyUnits _); [reflexivity|].
    unfold decrypt, decryptParts.
    destruct getEncryptionKey as [key|e] eqn:Hk; [destruct (Hno key eq_refl) | reflexivity]. }
  destruct (refresh_success credential w fresh w' Hnear Hrefresh)
    as (response & data & Hreply & _ & Hbody & Hstore).
  apply storeRefreshed_stored in Hstore
    as (enc & Henc & Hat & Hrt & _ & Hin & _).
  rewrite tokensToStore_plain in Henc by exact Hno. injection Henc as <-.
  exists response, data. unfold refreshCall at 1. rewrite Hplain.
  split; [reflexivity|]. split; [exact Hreply|]. split; [exact Hbody|].
  split; [exact Hat|]. split; [exact Hrt|]. split; [exact Hin|].
  rewrite Hplain. exact Hat.
Qed.

(** ** The answers of [GET /api/figma/frames] *)

Lemma NextResponse_json_cases body status w :
  if carriesBody status
  then NextResponse_json body status w =
       (Ok {| res_status := status; res_body := body |}, w)
  else exists message, NextResponse_json body status w = (Throw (JsError message), w).
Proof.
  unfold carriesBody, NextResponse_json.
  destruct (Z.ltb_spec status 200), (Z.ltb_spec 599 status),
           (Z.leb_spec 200 status), (Z.leb_spec status 599);
    try lia; cbn [andb orb]; unfold throw; try (eexists; reflexivity).
  destruct ((status =? 204) || (status =? 205) || (status =? 304)); cbn [negb];
    [eexists; reflexivity | reflexivity].
Qed.

Lemma onFetchError_cases error w :
  match error with
  | FigmaApiError _ statusCode _ =>
      if carriesBody statusCode
      then onFetchError error w =
           (Ok (errorResponse statusCode (figmaErrorText statusCode) NoDetails false), w)
      else exists message, onFetchError error w = (Throw (JsError message), w)
  | JsError message =>
      if Js.includes message "No Figma credentials"
      then onFetchError error w =
           (Ok (errorResponse 400 "Figma not connected"
                  (DetailsText "Please connect your Figma account first.") true), w)
      else onFetchError error w = (Throw error, w)
  end.
Proof.
  destruct error as [message|message statusCode endpoint]; cbn [onFetchError].
  - destruct (Js.includes message "No Figma credentials"); reflexivity.
  - unfold figmaErrorText. destruct (Z.eqb_spec statusCode 404) as [->|_]; [reflexivity|].
    destruct (Z.eqb_spec statusCode 403) as [->|_]; [reflexivity|].
    apply NextResponse_json_cases.
Qed.

(** X22.  [GET /api/figma/frames] never throws: for every request and every
    state it returns a response, which is one of: 400 invalid query
    parameters, 404 project not found, 400 missing figmaFileKey, 400 [Figma
    not connected] with needsOAuth, the status of a FigmaApiError with the
    message the route gives it, 500 [An unexpected error occurred] with the
    message of the error, or the 200 answer with the frames of the fetched
    file. *)
Theorem frames_route_answers (projectIdParam : option string) (w : World) :
  exists response,
    fst (GET projectIdParam w) = Ok response /\
    (response = errorResponse 400 "Invalid query parameters" DetailsIssues false \/
     response = errorResponse 404 "Project not found" NoDetails false \/
     (exists details,
        response = errorResponse 400 "Missing figmaFileKey for project" details false) \/
     (exists details,
        response = errorResponse 400 "Figma not connected" details true) \/
     (exists statusCode,
        response = errorResponse statusCode (figmaErrorText statusCode) NoDetails false) \/
     (exists message,
        response = errorResponse 500 "An unexpected error occurred"
                     (DetailsText message) false) \/
     (exists figmaFile, response = framesResponse figmaFile)).
Proof.
  unfold GET, try_catch at 1.
  match goal with
  | |- context [match ?inner w with _ => _ end] => set (body0 := inner)
  end.
  destruct (body0 w) as [[r|e] w0] eqn:Erun; cbn [fst].
  2:{ eexists. split; [reflexivity|]. do 5 right. left. eauto. }
  exists r. split; [reflexivity|]. subst body0. unfold ret in Erun.
  destruct projectIdParam as [projectId|]; cbv beta iota in Erun;
    [|injection Erun as <- _; now left].
  destruct (negb (isCuid host projectId)); [injection Erun as <- _; now left|].
  unfold bind at 1 in Erun.
  destruct (prisma _ w) as [[[project|]|e] w1]; cbv beta iota in Erun;
    [ | injection Erun as <- _; right; now left | discriminate Erun].
  destruct (falsy (figmaFileKey project));
    [injection Erun as <- _; do 2 right; left; eauto|].
  unfold bind at 1 in Erun.
  destruct (prisma _ w1) as [[[c|]|e] w2]; cbv beta iota in Erun;
    [ | injection Erun as <- _; do 3 right; left; eauto | discriminate Erun].
  unfold bind at 1 in Erun. unfold try_catch at 1 in Erun.
  unfold bind at 1 in Erun.
  destruct (fetchFigmaFile _ _ w2) as [[figmaFile|e] w3].
  - cbv beta iota in Erun. injection Erun as <- _. do 6 right. eauto.
  - unfold bind at 1 in Erun. pose proof (onFetchError_cases e w3) as Hcases.
    destruct e as [message|message statusCode endpoint].
    + destruct (Js.includes message "No Figma credentials");
        rewrite Hcases in Erun; cbv beta iota in Erun; [|discriminate Erun].
      injection Erun as <- _. do 3 right. left. eauto.
    + destruct (carriesBody statusCode); [|destruct Hcases as [m Hm]];
        [rewrite Hcases in Erun | rewrite Hm in Erun];
        cbv beta iota in Erun; [|discriminate Erun].
      injection Erun as <- _. do 4 right. left. eauto.
Qed.

(** Past its own checks, the route is [fetchFigmaFile] followed by the
    mapping of its outcome. *)
Lemma GET_after_checks projectId project w :
  isCuid host projectId = true ->
  ambient w = [] ->
  projects (db w) !! projectId = Some project ->
  falsy (figmaFileKey project) = false ->
  is_Some (credentialOf projectId (db w)) ->
  GET (Some projectId) w =
  match fetchFigmaFile projectId (default "" (figmaFileKey project)) w with
  | (Ok figmaFile, w') => (Ok (framesResponse figmaFile), w')
  | (Throw e, w') =>
      match onFetchError e w' with
      | (Ok response, w'') => (Ok response, w'')
      | (Throw error, w'') =>
          (Ok (errorResponse 500 "An unexpected error occurred"
                 (DetailsText (exn_message error)) false), w'')
      end
  end.
Proof.
  intros Hcuid Ha Hproject Hkey [c Hc].
  unfold GET. rewrite Hcuid. cbn [negb].
  unfold try_catch at 1. unfold bind at 1.
  rewrite (prisma_calm _ w Ha). cbn [fst snd]. rewrite Hproject, Hkey, set_db_same.
  unfold bind at 1. rewrite (prisma_calm _ w Ha). cbn [fst snd]. rewrite set_db_same.
  change (find _ (figmaCredentials (db w))) with (credentialOf projectId (db w)).
  rewrite Hc. unfold bind at 1. unfold try_catch at 1. unfold bind at 1.
  destruct (fetchFigmaFile _ _ w) as [[figmaFile|e] w1]; [reflexivity|].
  unfold bind at 1. destruct (onFetchError e w1) as [[response|error] w2]; reflexivity.
Qed.

(** X23.  Once the checks of the route pass (valid id, project linked to a
    file, credential present, no other request interfering), a FigmaApiError
    thrown by [fetchFigmaFile], from the request for the file or from the
    refresh of the token, is answered with the status code of that error as
    the HTTP status when a response can be built with it: a code from 200
    to 599 other than 204, 205 and 304.  The message is the text for 404 or
    403 for these codes and [Failed to fetch Figma file. Please try again
    later.] for every other.  For a code with which no response can be
    built, 304 for one, [NextResponse.json] throws and the answer is the
    500 of the outer handler. *)
Theorem frames_route_forwards_figma_status
    (projectId : string) (project : Project) (w w' : World)
    (message endpoint : string) (statusCode : Z) :
  isCuid host projectId = true ->
  ambient w = [] ->
  projects (db w) !! projectId = Some project ->
  falsy (figmaFileKey project) = false ->
  is_Some (credentialOf projectId (db w)) ->
  fetchFigmaFile projectId (default "" (figmaFileKey project)) w =
    (Throw (FigmaApiError message statusCode endpoint), w') ->
  (carriesBody statusCode = true ->
   GET (Some projectId) w =
     (Ok (errorResponse statusCode (figmaErrorText statusCode) NoDetails false), w')) /\
  (carriesBody statusCode = false ->
   exists details,
     GET (Some projectId) w =
       (Ok (errorResponse 500 "An unexpected error occurred"
              (DetailsText details) false), w')) /\
  (statusCode <> 404 -> statusCode <> 403 ->
   figmaErrorText statusCode = "Failed to fetch Figma file. Please try again later.") /\
  carriesBody 304 = false.
Proof.
  intros Hcuid Ha Hproject Hkey Hc Hfetch.
  rewrite (GET_after_checks projectId project w Hcuid Ha Hproject Hkey Hc), Hfetch.
  pose proof (onFetchError_cases (FigmaApiError message statusCode endpoint) w')
    as Hcases. cbv beta iota in Hcases.
  split; [|split; [|split; [|reflexivity]]].
  - intros Hcarries. rewrite Hcarries in Hcases. rewrite Hcases. reflexivity.
  - intros Hcarries. rewrite Hcarries in Hcases. destruct Hcases as [m Hm].
    rewrite Hm. eexists. reflexivity.
  - intros H404 H403. unfold figmaErrorText.
    destruct (Z.eqb_spec statusCode 404); [contradiction|].
    destruct (Z.eqb_spec statusCode 403); [contradiction | reflexivity].
Qed.

Lemma calm_GET projectIdParam : respects calm (GET projectIdParam).
Proof.
  unfold GET, onFetchError, NextResponse_json, fetchFigmaFile. calm_steps;
    try apply calm_getFigmaAccessToken;
    try apply (credentialsOnly_lookup (fun d => projects d !! _));
    try apply (credentialsOnly_lookup (fun d => find _ (figmaCredentials d))).
Qed.

(** X24.  While no other request interferes, [GET /api/figma/frames] leaves
    the projects and the baseline snapshots as they were and draws no id,
    whatever it answers; the only table it can write is the credentials,
    through the refresh of a token. *)
Theorem frames_route_reads_only (projectIdParam : option string) (w : World) :
  ambient w = [] ->
  projects (db (snd (GET projectIdParam w))) = projects (db w) /\
  baselineSnapshots (db (snd (GET projectIdParam w))) = baselineSnapshots (db w) /\
  idsUsed (snd (GET projectIdParam w)) = idsUsed w.
Proof.
  intros Ha. destruct (calm_GET projectIdParam w Ha) as (_ & Hp & Hs & Hi). auto.
Qed.

(** ** Failure and success of the baseline builder *)

Lemma newest_latest rows best :
  newest rows = Some best ->
  forall row, In row rows -> snap_createdAt (snd row) <= snap_createdAt (snd best).
Proof.
  revert best. induction rows as [|r rest IH]; intros best; [discriminate|].
  cbn [newest]. destruct (newest rest) as [b|] eqn:Eb.
  - destruct (Z.ltb_spec (snap_createdAt (snd b)) (snap_createdAt (snd r)));
      intros [= <-] row [<-|Hin]; try lia.
    + specialize (IH b eq_refl row Hin). lia.
    + exact (IH b eq_refl row Hin).
  - intros [= <-] row [<-|Hin]; [lia|].
    apply newest_None in Eb. subst rest. destruct Hin.
Qed.

Lemma ofProject_rows projectId d id row :
  In (id, row) (List.filter (ofProject projectId) (map_to_list (baselineSnapshots d))) <->
  baselineSnapshots d !! id = Some row /\ snap_projectId row = projectId.
Proof.
  rewrite filter_In. unfold ofProject. cbn [snd]. rewrite String.eqb_eq.
  rewrite <- list_elem_of_In, elem_of_map_to_list. reflexivity.
Qed.

Lemma latest_rows (projectId : string) (w : World) :
  ambient w = [] ->
  exists result,
    getLatestBaselineSnapshot projectId w = (Ok result, w) /\
    hasBaselineSnapshot projectId w =
      (Ok (match result with Some _ => true | None => false end), w) /\
    match result with
    | None =>
        forall id row, baselineSnapshots (db w) !! id = Some row ->
                       snap_projectId row <> projectId
    | Some (id, row) =>
        baselineSnapshots (db w) !! id = Some row /\
        snap_projectId row = projectId /\
        forall id' row', baselineSnapshots (db w) !! id' = Some row' ->
                         snap_projectId row' = projectId ->
                         snap_createdAt row' <= snap_createdAt row
    end.
Proof.
  intros Ha.
  set (rows := List.filter (ofProject projectId)
                           (map_to_list (baselineSnapshots (db w)))).
  exists (newest rows).
  split; [unfold getLatestBaselineSnapshot; rewrite (prisma_calm _ w Ha);
          cbn [fst snd]; now rewrite set_db_same|].
  split.
  - unfold hasBaselineSnapshot, bind. rewrite (prisma_calm _ w Ha). cbn [fst snd].
    rewrite set_db_same. fold rows. unfold ret. do 2 f_equal.
    destruct rows as [|r rest] eqn:Er; [reflexivity|]. cbn [hd_error newest].
    destruct (newest rest); [destruct (_ <? _)|]; reflexivity.
  - destruct (newest rows) as [[id row]|] eqn:En.
    + pose proof (newest_In _ _ En) as Hin. apply ofProject_rows in Hin as [Hrow Hp].
      split; [exact Hrow|]. split; [exact Hp|]. intros id' row' Hrow' Hp'.
      apply (newest_latest rows (id, row) En (id', row')).
      apply ofProject_rows. auto.
    + apply newest_None in En. intros id row Hrow Hp.
      assert (Hin : In (id, row) rows) by (apply ofProject_rows; auto).
      rewrite En in Hin. destruct Hin.
Qed.

Lemma upsert_failure projectId fileKey frameId data w e w' :
  ambient w = [] ->
  upsertSnapshot projectId fileKey frameId data w = (Throw e, w') ->
  db w' = db w /\ exists message, e = JsError message.
Proof.
  intros Ha. rewrite (upsertSnapshot_calm _ _ _ _ _ Ha).
  destruct (findFirstSnapshot projectId frameId (db w)) as [[id0 old]|].
  - unfold updateSnapshot. cbn [fst].
    destruct (baselineSnapshots (db w) !! id0); [discriminate|].
    intros [= <- <-]. eauto.
  - unfold createSnapshot. cbn [db set_db idsUsed].
    destruct (baselineSnapshots (db w) !! newId host (idsUsed w)); [|discriminate].
    intros [= <- <-]. eauto.
Qed.

Lemma ambientStep_plain_error w e w' :
  ambientStep w = (Throw e, w') -> exists message, e = JsError message.
Proof.
  unfold ambientStep. destruct (ambient w) as [|[|f|m] rest]; try discriminate.
  intros [= <- _]. eauto.
Qed.

Lemma prisma_plain_error {A} (op : Db -> Result A * Db) w e w' :
  (forall d e0, fst (op d) = Throw e0 -> exists message, e0 = JsError message) ->
  prisma op w = (Throw e, w') -> exists message, e = JsError message.
Proof.
  intros Hop. unfold prisma, bind, statement.
  destruct (ambientStep w) as [[[]|e0] w0] eqn:Eamb.
  - destruct (op (db w0)) as [r d] eqn:E. intros [= -> _].
    apply (Hop (db w0)). now rewrite E.
  - intros [= <- _]. exact (ambientStep_plain_error _ _ _ Eamb).
Qed.

Lemma upsert_plain_error projectId fileKey frameId data w e w' :
  upsertSnapshot projectId fileKey frameId data w = (Throw e, w') ->
  exists message, e = JsError message.
Proof.
  unfold upsertSnapshot, transaction. unfold bind at 1.
  destruct (ambientStep w) as [[[]|e0] w0] eqn:Eamb.
  2:{ intros [= <- _]. exact (ambientStep_plain_error _ _ _ Eamb). }
  match goal with
  | |- context [match ?body w0 with _ => _ end] =>
      destruct (body w0) as [[a|e1] w1] eqn:Ebody
  end; [discriminate|].
  intros [= <- _]. revert Ebody. unfold bind at 1.
  destruct (prisma _ w0) as [[[[id0 old]|]|e2] w2] eqn:Efind.
  - apply prisma_plain_error. intros d e3. unfold updateSnapshot. cbn [fst].
    destruct (baselineSnapshots d !! id0); [discriminate|].
    intros [= <-]. eauto.
  - unfold bind at 1. destruct (ambientStep w2) as [[[]|e3] w3] eqn:Eamb2.
    + unfold createSnapshot. cbn [db set_db idsUsed].
      destruct (baselineSnapshots (db w3) !! newId host (idsUsed w3)); [|discriminate].
      intros [= <- _]. eauto.
    + intros [= <- _]. exact (ambientStep_plain_error _ _ _ Eamb2).
  - intros [= <- _]. revert Efind. apply prisma_plain_error.
    intros d e3. cbn [fst]. discriminate.
Qed.

Lemma build_plain_error projectId w e w' :
  createBaselineSnapshotForProject projectId w = (Throw e, w') ->
  exists message, e = JsError message.
Proof.
  unfold createBaselineSnapshotForProject. unfold bind at 1.
  destruct (prisma _ w) as [[[project|]|e0] w0] eqn:Ep.
  - destruct (falsy (figmaFileKey project)); [intros [= <- _]; eauto|].
    destruct (falsy (figmaFrameId project)); [intros [= <- _]; eauto|].
    unfold bind at 1. unfold try_catch.
    destruct (fetchFigmaVariablesAndStyles _ _ w0) as [[[file variables]|e1] w1].
    + destruct (findNodeById _ _); [|intros [= <- _]; eauto].
      unfold bind at 1. unfold Date_now at 1. apply upsert_plain_error.
    + destruct e1 as [m|m s ep]; intros [= <- _]; eauto.
  - intros [= <- _]. eauto.
  - intros [= <- _]. revert Ep. apply prisma_plain_error.
    intros d e1. cbn [fst]. discriminate.
Qed.

(** X25.  Every failure of [createBaselineSnapshotForProject] is a plain
    Error, never a FigmaApiError: a FigmaApiError of the fetch is thrown again
    as Error [Failed to fetch Figma data: ] followed by its message, the
    status code lost. While no other request interferes, a project that is
    missing, has no file key, or has no frame selected fails with its own
    message before any request is sent and with nothing written. *)
Theorem build_errors (projectId : string) (w : World) :
  (forall e w', createBaselineSnapshotForProject projectId w = (Throw e, w') ->
     exists message, e = JsError message) /\
  (ambient w = [] -> projects (db w) !! projectId = None ->
   createBaselineSnapshotForProject projectId w =
   (Throw (JsError ("Project not found: " ++ projectId)), w)) /\
  (forall project, ambient w = [] -> projects (db w) !! projectId = Some project ->
     falsy (figmaFileKey project) = true ->
     createBaselineSnapshotForProject projectId w =
     (Throw (JsError ("Project " ++ projectId ++ " is not linked to a Figma file")), w)) /\
  (forall project, ambient w = [] -> projects (db w) !! projectId = Some project ->
     falsy (figmaFileKey project) = false -> falsy (figmaFrameId project) = true ->
     createBaselineSnapshotForProject projectId w =
     (Throw (JsError ("Project " ++ projectId ++ " has no Figma frame selected")), w)) /\
  (forall project message statusCode endpoint w',
     ambient w = [] -> projects (db w) !! projectId = Some project ->
     falsy (figmaFileKey project) = false -> falsy (figmaFrameId project) = false ->
     fetchFigmaVariablesAndStyles projectId (default "" (figmaFileKey project)) w =
       (Throw (FigmaApiError message statusCode endpoint), w') ->
     createBaselineSnapshotForProject projectId w =
     (Throw (JsError ("Failed to fetch Figma data: " ++ message)), w')).
Proof.
  split; [|split; [|split; [|split]]].
  - intros e w'. apply build_plain_error.
  - intros Ha Hnone. unfold createBaselineSnapshotForProject. unfold bind at 1.
    rewrite (prisma_calm _ w Ha). cbn [fst snd]. now rewrite Hnone, set_db_same.
  - intros project Ha Hproject Hkey. unfold createBaselineSnapshotForProject.
    unfold bind at 1. rewrite (prisma_calm _ w Ha). cbn [fst snd].
    now rewrite Hproject, Hkey, set_db_same.
  - intros project Ha Hproject Hkey Hframe. unfold createBaselineSnapshotForProject.
    unfold bind at 1. rewrite (prisma_calm _ w Ha). cbn [fst snd].
    now rewrite Hproject, Hkey, Hframe, set_db_same.
  - intros project message statusCode endpoint w' Ha Hproject Hkey Hframe Hfetch.
    unfold createBaselineSnapshotForProject.
    unfold bind at 1. rewrite (prisma_calm _ w Ha). cbn [fst snd].
    rewrite Hproject, Hkey, Hframe, set_db_same.
    unfold bind at 1. unfold try_catch. rewrite Hfetch. reflexivity.
Qed.

Lemma failed_build_keeps (projectId : string) (w w' : World) (e : Exn) :
  ambient w = [] ->
  createBaselineSnapshotForProject projectId w = (Throw e, w') ->
  baselineSnapshots (db w') = baselineSnapshots (db w) /\
  projects (db w') = projects (db w).
Proof.
  intros Ha. unfold createBaselineSnapshotForProject. unfold bind at 1.
  rewrite (prisma_calm _ w Ha). cbn [fst snd]. rewrite set_db_same.
  destruct (projects (db w) !! projectId) as [project|]; [|intros [= _ <-]; auto].
  destruct (falsy (figmaFileKey project)); [intros [= _ <-]; auto|].
  destruct (falsy (figmaFrameId project)); [intros [= _ <-]; auto|].
  unfold bind at 1.
  pose proof (respects_try_catch calm calm_trans
                (fetchFigmaVariablesAndStyles projectId (default "" (figmaFileKey project)))
                (fun error => match error with
                              | FigmaApiError message _ _ =>
                                  throw (JsError ("Failed to fetch Figma data: " ++ message))
                              | _ => throw error
                              end)
                (calm_fetchFigmaVariablesAndStyles projectId _)) as Hcalm.
  specialize (Hcalm ltac:(intros [m|m s ep]; apply (respects_throw calm calm_refl)) w Ha).
  destruct (try_catch _ _ w) as [[[file variables]|e1] w1]; cbn [snd] in Hcalm;
    destruct Hcalm as (Ha1 & Hp1 & Hs1 & _).
  2:{ intros [= _ <-]. auto. }
  destruct (findNodeById (document file) _) as [selectedFrame|];
    [|intros [= _ <-]; auto].
  unfold bind at 1. unfold Date_now at 1. intros Hup.
  apply upsert_failure in Hup as [Hdb _]; [|exact Ha1].
  rewrite Hdb. auto.
Qed.

(** X26.  While no other request interferes, a call of
    [createBaselineSnapshotForProject] that throws leaves the baseline
    snapshots and the projects as they were, and what it throws is a plain
    Error. *)
Theorem failed_build_stores_nothing
    (projectId : string) (w w' : World) (e : Exn) :
  ambient w = [] ->
  createBaselineSnapshotForProject projectId w = (Throw e, w') ->
  baselineSnapshots (db w') = baselineSnapshots (db w) /\
  projects (db w') = projects (db w) /\
  exists message, e = JsError message.
Proof.
  intros Ha Hbuild. destruct (failed_build_keeps projectId w w' e Ha Hbuild) as [Hs Hp].
  split; [exact Hs|]. split; [exact Hp|].
  destruct (build_plain_error projectId w e w' Hbuild) as [m ->]. eauto.
Qed.

(** X27.  After a build that succeeds with no other request interfering, the
    snapshot returned is stored under the id returned,
    [hasBaselineSnapshot(projectId)] answers true, and
    [getLatestBaselineSnapshot(projectId)] returns a snapshot of the project
    created no earlier than the one returned. *)
Theorem built_snapshot_is_visible
    (projectId : string) (w w' : World) (snapshot : string * BaselineSnapshot) :
  ambient w = [] ->
  createBaselineSnapshotForProject projectId w = (Ok snapshot, w') ->
  baselineSnapshots (db w') !! fst snapshot = Some (snd snapshot) /\
  hasBaselineSnapshot projectId w' = (Ok true, w') /\
  exists latest,
    getLatestBaselineSnapshot projectId w' = (Ok (Some latest), w') /\
    snap_projectId (snd latest) = projectId /\
    snap_createdAt (snd snapshot) <= snap_createdAt (snd latest).
Proof.
  intros Ha Hbuild. destruct snapshot as [id row].
  destruct (build_inversion _ _ _ _ Ha Hbuild)
    as (p & k & f & file & vars & sel & before & _ & _ & _ & _ & _ & Hab & _ & _ & Hup).
  destruct (upsertSnapshot_spec _ _ _ _ _ _ _ _ Hab Hup)
    as (Ha' & _ & Htable & Hp & _ & _ & _).
  assert (Hrow : baselineSnapshots (db w') !! id = Some row)
    by (rewrite Htable; apply lookup_insert_eq).
  cbn [fst snd]. split; [exact Hrow|].
  destruct (latest_rows projectId w' Ha') as (result & Hlatest & Hhas & Hspec).
  destruct result as [[id' row']|].
  - split; [exact Hhas|]. exists (id', row'). split; [exact Hlatest|].
    destruct Hspec as (_ & Hp' & Hmax). split; [exact Hp'|].
    exact (Hmax id row Hrow Hp).
  - exfalso. exact (Hspec id row Hrow Hp).
Qed.

(** ** Selecting a frame: [PUT /api/projects/[id]/figma] *)

Lemma PUT_success memberships request body w frameId createBaseline project :
  falsy (session_user_id request) = false ->
  request_json request = Ok body ->
  updateFigmaConfigSchema body = Some (frameId, createBaseline) ->
  ambient w = [] ->
  projects (db w) !! params_id request = Some project ->
  memberships (default "" (session_user_id request)) (params_id request) <> 0%nat ->
  falsy (figmaFileKey project) = false ->
  let updatedProject :=
    {| project_name := project_name project; figmaFileKey := figmaFileKey project;
       figmaFrameId := Some frameId |} in
  PUT memberships request w =
  (Ok ({| put_status := 200;
          put_body := PutSuccess (params_id request) updatedProject
                        "Figma frame configuration updated successfully" |},
       if createBaseline then Some (baselineInBackground (params_id request)) else None),
   set_db {| projects := <[params_id request := updatedProject]> (projects (db w));
             figmaCredentials := figmaCredentials (db w);
             baselineSnapshots := baselineSnapshots (db w) |} w).
Proof.
  intros Hs Hbody Hvalid Ha Hproject Hmember Hkey updatedProject.
  unfold PUT, try_catch. rewrite Hs, Hbody, Hvalid.
  unfold bind at 1. rewrite (prisma_calm _ w Ha). cbn [fst snd].
  rewrite Hproject, set_db_same.
  destruct (Nat.eqb_spec (memberships (default "" (session_user_id request))
                                      (params_id request)) 0); [contradiction|].
  rewrite Hkey. unfold bind at 1. rewrite (prisma_calm _ w Ha).
  unfold updateProjectFrame. rewrite Hproject. reflexivity.
Qed.

Lemma updateFigmaConfigSchema_valid body frameId createBaseline :
  updateFigmaConfigSchema body = Some (frameId, createBaseline) ->
  frameId <> "" /\
  exists fields, body = JObject fields /\
                 assoc "figmaFrameId" fields = Some (JString frameId).
Proof.
  unfold updateFigmaConfigSchema. destruct body as [| | | | |fields]; try discriminate.
  destruct (assoc "figmaFrameId" fields) as [[| | |s| |]|] eqn:Ef; try discriminate.
  destruct (String.eqb s "") eqn:Es; [discriminate|]. apply String.eqb_neq in Es.
  destruct (assoc "createBaseline" fields) as [[]|]; try discriminate;
    intros [= <- _]; eauto.
Qed.

(** X28.  For a signed-in member, a valid body and a project linked to a file,
    with no other request interfering, [PUT /api/projects/[id]/figma] answers
    200 with the updated project. In the store the project now has the
    requested frame id, which is not empty, and its name and file key are
    unchanged; the other projects, the credentials and the snapshots are
    unchanged; no request is sent to Figma; and a build is started in the
    background exactly when createBaseline is true. *)
Theorem PUT_selects_frame
    (memberships : string -> string -> nat) (request : PutRequest) (body : Json) (w : World)
    (frameId : string) (createBaseline : bool) (project : Project) :
  falsy (session_user_id request) = false ->
  request_json request = Ok body ->
  updateFigmaConfigSchema body = Some (frameId, createBaseline) ->
  ambient w = [] ->
  projects (db w) !! params_id request = Some project ->
  memberships (default "" (session_user_id request)) (params_id request) <> 0%nat ->
  falsy (figmaFileKey project) = false ->
  exists response job w',
    PUT memberships request w = (Ok (response, job), w') /\
    put_status response = 200 /\
    frameId <> "" /\
    (exists stored,
       projects (db w') !! params_id request = Some stored /\
       figmaFrameId stored = Some frameId /\
       figmaFileKey stored = figmaFileKey project /\
       project_name stored = project_name project /\
       put_body response = PutSuccess (params_id request) stored
                             "Figma frame configuration updated successfully") /\
    (forall other, other <> params_id request ->
       projects (db w') !! other = projects (db w) !! other) /\
    figmaCredentials (db w') = figmaCredentials (db w) /\
    baselineSnapshots (db w') = baselineSnapshots (db w) /\
    httpLog w' = httpLog w /\
    (job = if createBaseline
           then Some (baselineInBackground (params_id request)) else None).
Proof.
  intros Hs Hbody Hvalid Ha Hproject Hmember Hkey.
  pose proof (PUT_success memberships request body w frameId createBaseline project
                Hs Hbody Hvalid Ha Hproject Hmember Hkey) as Hput.
  cbv zeta in Hput. eexists. eexists. eexists. split; [exact Hput|].
  split; [reflexivity|].
  split; [exact (proj1 (updateFigmaConfigSchema_valid _ _ _ Hvalid))|].
  cbn [db set_db projects figmaCredentials baselineSnapshots httpLog put_body].
  split.
  - eexists. split; [apply lookup_insert_eq|]. repeat split; reflexivity.
  - split; [intros other Hother; apply lookup_insert_ne; congruence|].
    repeat split; reflexivity.
Qed.

Lemma baselineInBackground_returns projectId w :
  baselineInBackground projectId w =
  (Ok tt, snd (createBaselineSnapshotForProject projectId w)).
Proof.
  unfold baselineInBackground, try_catch, bind, ret.
  destruct (createBaselineSnapshotForProject projectId w) as [[snapshot|e] w1];
    reflexivity.
Qed.

(** X29.  The build that [PUT] starts when createBaseline is true never
    throws, a failure being swallowed, and the 200 answer does not depend on
    it. Run after the PUT with no other request interfering, a build that
    fails leaves the snapshots as they were before the PUT and the frame
    selection in place, and a build that succeeds stores a snapshot of the
    project for the frame id just selected. *)
Theorem background_build
    (memberships : string -> string -> nat) (request : PutRequest) (body : Json) (w : World)
    (frameId : string) (project : Project) :
  falsy (session_user_id request) = false ->
  request_json request = Ok body ->
  updateFigmaConfigSchema body = Some (frameId, true) ->
  ambient w = [] ->
  projects (db w) !! params_id request = Some project ->
  memberships (default "" (session_user_id request)) (params_id request) <> 0%nat ->
  falsy (figmaFileKey project) = false ->
  exists response w1,
    PUT memberships request w =
      (Ok (response, Some (baselineInBackground (params_id request))), w1) /\
    put_status response = 200 /\
    (forall w0, fst (baselineInBackground (params_id request) w0) = Ok tt) /\
    (forall e w2,
       createBaselineSnapshotForProject (params_id request) w1 = (Throw e, w2) ->
       baselineInBackground (params_id request) w1 = (Ok tt, w2) /\
       baselineSnapshots (db w2) = baselineSnapshots (db w) /\
       projects (db w2) = projects (db w1)) /\
    (forall snapshot w2,
       createBaselineSnapshotForProject (params_id request) w1 = (Ok snapshot, w2) ->
       baselineInBackground (params_id request) w1 = (Ok tt, w2) /\
       baselineSnapshots (db w2) !! fst snapshot = Some (snd snapshot) /\
       snap_projectId (snd snapshot) = params_id request /\
       snap_figmaFrameId (snd snapshot) = Some frameId).
Proof.
  intros Hs Hbody Hvalid Ha Hproject Hmember Hkey.
  pose proof (PUT_success memberships request body w frameId true project
                Hs Hbody Hvalid Ha Hproject Hmember Hkey) as Hput.
  cbv zeta in Hput. eexists. eexists. split; [exact Hput|].
  split; [reflexivity|].
  set (w1 := set_db _ w) in *.
  assert (Ha1 : ambient w1 = []) by exact Ha.
  split; [intros w0; now rewrite baselineInBackground_returns|]. split.
  - intros e w2 Hbuild. rewrite baselineInBackground_returns, Hbuild.
    split; [reflexivity|].
    destruct (failed_build_keeps (params_id request) w1 w2 e Ha1 Hbuild) as [Hsn Hpr].
    split; [rewrite Hsn; reflexivity | exact Hpr].
  - intros [id row] w2 Hbuild. rewrite baselineInBackground_returns, Hbuild.
    split; [reflexivity|].
    destruct (build_inversion _ _ _ _ Ha1 Hbuild)
      as (p & k & f & file & vars & sel & before & Hp & _ & Hf & _ & _ & Hab & _ & _ & Hup).
    destruct (upsertSnapshot_spec _ _ _ _ _ _ _ _ Hab Hup)
      as (_ & _ & Htable & Hproj & Hframe & _ & _).
    cbn [fst snd]. split; [rewrite Htable; apply lookup_insert_eq|].
    split; [exact Hproj|]. rewrite Hframe. f_equal.
    subst w1. cbn [db set_db projects] in Hp. rewrite lookup_insert_eq in Hp.
    injection Hp as <-. cbn [figmaFrameId] in Hf. congruence.
Qed.

End Properties.

(** ** A generated key *)

(** X30.  [generateEncryptionKey] draws 32 random bytes and returns them as 64
    lower-case hexadecimal digits; configured as ENCRYPTION_KEY, that string
    is accepted by [getEncryptionKey], which returns the 32 bytes drawn. *)
Theorem generated_key_is_valid (generator : Host) (w : World) :
  exists key,
    generateEncryptionKey (host := generator) w = (Ok key, drawn 32 w) /\
    length key = 64%nat /\ Forall lowerHex key /\
    forall configured : Host,
      ENCRYPTION_KEY (env configured) = Some key ->
      getEncryptionKey (host := configured) =
      Ok (map (entropy generator) (seq (entropyUsed w) 32)).
Proof.
  exists (Hex.encode (map (entropy generator) (seq (entropyUsed w) 32))).
  split; [reflexivity|].
  split; [now rewrite HexFacts.length_encode, length_map, length_seq|].
  split; [apply encode_lowerHex|].
  intros configured Hk. apply getEncryptionKey_Ok. eexists. split; [exact Hk|].
  split; [apply HexFacts.decode_encode | now rewrite length_map, length_seq].
Qed.

(** ** The concrete cipher keeps the laws *)

Lemma checksum_app a b : checksum (a ++ b) = checksum a + checksum b.
Proof.
  unfold checksum. induction a as [|x a IH]; cbn [app fold_right]; lia.
Qed.

Lemma to_Z_b8_mod z : Bytes.to_Z (Bytes.b8 z) = z mod 256.
Proof.
  assert (Hb : Bytes.b8 z = Bytes.b8 (z mod 256)).
  { unfold Bytes.b8. now rewrite Z.mod_mod by lia. }
  rewrite Hb. apply BytesFacts.to_Z_b8. apply Z.mod_pos_bound. lia.
Qed.

Lemma checksumTag_changed l l' : changedByte l l' -> checksumTag l <> checksumTag l'.
Proof.
  intros (pre & b & b' & post & Hne & -> & ->) Heq.
  unfold checksumTag in Heq. injection Heq as Heq.
  apply (f_equal Bytes.to_Z) in Heq. rewrite !to_Z_b8_mod in Heq.
  rewrite !checksum_app in Heq.
  change (checksum (b :: post)) with (Bytes.to_Z b + checksum post) in Heq.
  change (checksum (b' :: post)) with (Bytes.to_Z b' + checksum post) in Heq.
  pose proof (BytesFacts.to_Z_range b). pose proof (BytesFacts.to_Z_range b').
  assert (Hz : Bytes.to_Z b = Bytes.to_Z b').
  { set (s := checksum pre) in *. set (t := checksum post) in *.
    pose proof (Z.div_mod (s + (Bytes.to_Z b + t)) 256 ltac:(lia)).
    pose proof (Z.div_mod (s + (Bytes.to_Z b' + t)) 256 ltac:(lia)).
    lia. }
  apply BytesFacts.to_Z_inj in Hz. contradiction.
Qed.

Lemma checksumCipher_lawful key : LawfulCipher checksumCipher key.
Proof.
  constructor; cbn [gcm_seal gcm_open checksumCipher fst snd].
  - intros iv plaintext. destruct (List.list_eq_dec _ _ _); [reflexivity | contradiction].
  - intros iv plaintext. cbn. reflexivity.
  - intros iv plaintext authTag Hne.
    destruct (List.list_eq_dec _ _ _); [contradiction | reflexivity].
  - intros iv plaintext ciphertext Hchanged.
    destruct (List.list_eq_dec _ _ _) as [Heq|]; [|reflexivity].
    exfalso. exact (checksumTag_changed _ _ Hchanged Heq).
Qed.

(** ** The properties on concrete inputs *)

Lemma collectFrames_demo :
  extractFramesFromDocument demoDocument =
  [ {| fs_id := "1:2"; fs_name := "Hero"; fs_pageName := "Page 1";
       fs_width := 1440; fs_height := 900; fs_depth := 1 |} ].
Proof. vm_compute. reflexivity. Qed.

(** C2: a string with an unpaired surrogate does not come back; and an
    envelope in which one character of the tag field, or of the ciphertext
    field, is replaced by the same digit in upper case is another text,
    which [decrypt] accepts. *)
Lemma roundtrip_and_tampering_fail :
  (exists key, getEncryptionKey (host := demoHost) = Ok key /\
               LawfulCipher (aes demoHost) key) /\
  (exists e, fst (encrypt (host := demoHost) [0xD800] demoWorld) = Ok e /\
             decrypt (host := demoHost) e = Ok [0xFFFD] /\
             decrypt (host := demoHost) e <> Ok [0xD800]) /\
  exists ivHex authTagHex ciphertext authTagHex' ciphertext',
    fst (encrypt (host := demoHost) (units "o") demoWorld) =
      Ok (envelopeText ivHex authTagHex ciphertext) /\
    changedUnit authTagHex authTagHex' /\
    changedUnit ciphertext ciphertext' /\
    decrypt (host := demoHost) (envelopeText ivHex authTagHex' ciphertext) =
      Ok (units "o") /\
    decrypt (host := demoHost) (envelopeText ivHex authTagHex ciphertext') =
      Ok (units "o").
Proof.
  split; [|split].
  - eexists. split; [vm_compute; reflexivity | apply checksumCipher_lawful].
  - eexists. split; [vm_compute; reflexivity|].
    split; [vm_compute; reflexivity|]. vm_compute. discriminate.
  - exists (Hex.encode (map (entropy demoHost) (seq 0 16))),
           (units "6f000000000000000000000000000000"), (units "6f"),
           (units "6F000000000000000000000000000000"), (units "6F").
    split; [vm_compute; reflexivity|]. split; [|split; [|split]].
    + exists (units "6"), 102, 70, (units "000000000000000000000000000000").
      split; [lia|]. split; reflexivity.
    + exists (units "6"), 102, 70, []. split; [lia|]. split; reflexivity.
    + vm_compute. reflexivity.
    + vm_compute. reflexivity.
Qed.

Lemma decrypt_encrypt_roundtrip_witness :
  Forall Utf.isCodeUnit (units "figu_secret") /\
  exists e, fst (encrypt (host := demoHost) (units "figu_secret") demoWorld) = Ok e /\
            decrypt (host := demoHost) e = Ok (units "figu_secret").
Proof.
  assert (Hunits : Forall Utf.isCodeUnit (units "figu_secret")).
  { let v := eval vm_compute in (units "figu_secret") in
    change (units "figu_secret") with v.
    repeat (constructor; [unfold Utf.isCodeUnit; lia|]). constructor. }
  split; [exact Hunits|].
  destruct (decrypt_encrypt_roundtrip (host := demoHost) (units "figu_secret")
              (Hex.decode demoKey) demoWorld)
    as (Henc & Hdec & Hwf & _).
  - vm_compute. reflexivity.
  - apply checksumCipher_lawful.
  - exact Hunits.
  - eexists. split; [exact Henc|]. rewrite Hdec, (Hwf eq_refl). reflexivity.
Defined.

(** C4: the provider grants 60 seconds; the refresh stores an expiry that
    is not beyond now + 2 minutes. *)
Lemma refresh_with_short_lifetime :
  accessTokenExpiresAt demoCredential - now demoWorld < 2 * 60 * 1000 /\
  exists fresh w',
    refreshAccessTokenIfNeeded (host := demoHostWith 60) demoCredential demoWorld
      = (Ok fresh, w') /\
    In fresh (figmaCredentials (db w')) /\
    accessTokenExpiresAt fresh = 1060250 /\
    ~ (now demoWorld + 2 * 60 * 1000 < accessTokenExpiresAt fresh).
Proof.
  split; [vm_compute; reflexivity|].
  eexists. eexists. split; [vm_compute; reflexivity|].
  split; [left; reflexivity|]. split; [reflexivity|]. vm_compute. discriminate.
Qed.

Lemma refresh_policy_witness :
  accessTokenExpiresAt demoCredential - now demoWorld < 2 * 60 * 1000 /\
  exists fresh,
    fst (refreshAccessTokenIfNeeded (host := demoHost) demoCredential demoWorld) = Ok fresh /\
    now demoWorld + 2 * 60 * 1000 < accessTokenExpiresAt fresh.
Proof.
  split; [vm_compute; reflexivity|].
  destruct (refresh_policy (host := demoHost) demoCredential demoWorld) as [_ Hnear].
  destruct (Hnear ltac:(vm_compute; reflexivity) eq_refl eq_refl) as [_ Hfresh].
  destruct (fst (refreshAccessTokenIfNeeded (host := demoHost) demoCredential demoWorld))
    as [fresh|e] eqn:Erun; [|vm_compute in Erun; discriminate Erun].
  exists fresh. split; [reflexivity|].
  destruct (Hfresh fresh eq_refl)
    as (response & data & Hreply & _ & Hbody & _ & _ & _ & Hlong).
  apply Hlong. vm_compute in Hreply. injection Hreply as <-.
  vm_compute in Hbody. injection Hbody as <-. reflexivity.
Defined.

Lemma frames_route_misses_not_connected_witness :
  credentialOf demoProject (disconnect demoProject (db racingWorld)) = None /\
  fst (GET (host := demoHost) (Some demoProject) racingWorld) =
  Ok {| res_status := 500;
        res_body := ErrorBody "An unexpected error occurred"
          (DetailsText "Figma credentials not found for project cjld2cjxh0000qzrmn831i7rn")
          false |}.
Proof.
  split; [reflexivity|].
  refine (proj2 (frames_route_misses_not_connected (host := demoHost) demoProject
            {| project_name := "Shop"; figmaFileKey := Some "file1";
               figmaFrameId := Some "1:2" |}
            racingWorld (disconnect demoProject) [] _ _ _ _ _ _ _)).
  - reflexivity.
  - reflexivity.
  - vm_compute. reflexivity.
  - reflexivity.
  - eexists. vm_compute. reflexivity.
  - reflexivity.
  - reflexivity.
Defined.

(** Undisturbed, the same request is answered with the frames. *)
Lemma frames_route_demo :
  fst (GET (host := demoHost) (Some demoProject) demoWorld) =
  Ok (framesResponse (fileOf "file1")).
Proof. vm_compute. reflexivity. Qed.

Lemma color_token_of_first_mode_witness :
  extractColorTokens (host := demoHost) [("VariableID:1:2", brandRed)] =
  {[ "Brand/Red" := {| hex := "#ff0000";
                       rgb := {| rgb_r := Js.IntVal 255; rgb_g := Js.IntVal 0;
                                 rgb_b := Js.IntVal 0 |};
                       opacity := JNumber (1 # 2) |} ]}.
Proof.
  destruct (color_token_of_first_mode (host := demoHost) "VariableID:1:2" brandRed "1:0"
              [("r", JNumber 1); ("g", JNumber 0); ("b", JNumber 0); ("a", JNumber (1 # 2))]
              [] 1 0 0 (1 # 2) [])
    as (_ & Hstored & _).
  - reflexivity.
  - reflexivity.
  - reflexivity.
  - reflexivity.
  - reflexivity.
  - reflexivity.
  - split; discriminate.
  - split; discriminate.
  - split; discriminate.
  - split; discriminate.
  - cbn [app] in Hstored. rewrite Hstored. vm_compute. reflexivity.
Defined.

(** The product of a channel and 255 is rounded to binary64 before
    [Math.round]: 255 times the double nearest to 1/30 is just below 8.5
    in the rationals and is 8.5 as a double, so the channel is 9. *)
Lemma channel_product_is_rounded :
  (thirtieth * 255 < 17 # 2)%Q /\
  Js.Math_round (thirtieth * 255) = 8 /\
  (Js.round64 (thirtieth * 255) == 17 # 2)%Q /\
  Js.Math_round (Js.round64 (thirtieth * 255)) = 9 /\
  extractColorTokens (host := demoHost) [("VariableID:1:3", nearBlack)] =
  {[ "Near Black" := {| hex := "#090000";
                        rgb := {| rgb_r := Js.IntVal 9; rgb_g := Js.IntVal 0;
                                  rgb_b := Js.IntVal 0 |};
                        opacity := JNumber 1 |} ]}.
Proof. repeat split; vm_compute; reflexivity. Qed.

Lemma unnamed_float_is_spacing :
  resolvedType unnamedFloat = FLOAT /\
  isSpacing (var_name unnamedFloat) = false /\
  extractSpacingTokens [("VariableID:7:1", unnamedFloat)] =
  {[ "spacing-VariableID:7:1" := 8%Q ]}.
Proof. repeat split; vm_compute; reflexivity. Qed.

(** A document of exactly 500 qualifying frames: all of them are
    returned, and the response says [truncated]. *)
Lemma frames_truncated_flag_witness :
  length (documentFrames (siblingFrames 500)) = 500%nat /\
  fst (GET (host := demoHost) (Some wideProject) demoWorld) =
    Ok {| res_status := 200; res_body := FramesBody wideFrames wideMeta |} /\
  wideFrames = documentFrames (siblingFrames 500) /\
  truncated wideMeta = true.
Proof.
  assert (Hrun : fst (GET (host := demoHost) (Some wideProject) demoWorld) =
                 Ok {| res_status := 200; res_body := FramesBody wideFrames wideMeta |})
    by (vm_compute; reflexivity).
  split; [vm_compute; reflexivity|]. split; [exact Hrun|].
  destruct (frames_truncated_flag (host := demoHost) _ _ _ _ _ Hrun) as (Hflag & _ & _).
  split; [vm_compute; reflexivity|]. apply Hflag. vm_compute. reflexivity.
Defined.

(** The first build on the store without snapshot: the selected frame
    [1:2] is the first component of the snapshot that it stores. *)
Lemma components_include_root_witness :
  (exists others,
     extractComponentsFromNode (host := demoHost) hero 0 =
     {| comp_id := "1:2"; comp_name := "Hero"; comp_type := "FRAME";
        bounds := {| bounds_x := 0; bounds_y := 0; bounds_width := 1440;
                     bounds_height := 900 |} |} :: others) /\
  exists snapshot,
    fst firstRun = Ok snapshot /\
    baselineSnapshots (db (snd firstRun)) !! fst snapshot = Some (snd snapshot) /\
    snap_figmaFrameId (snd snapshot) = Some "1:2" /\
    exists others,
      components (snap_data (snd snapshot)) =
      {| comp_id := "1:2"; comp_name := "Hero"; comp_type := "FRAME";
         bounds := {| bounds_x := 0; bounds_y := 0; bounds_width := 1440;
                      bounds_height := 900 |} |} :: others.
Proof.
  destruct (components_include_root (host := demoHost) hero (mkBBox 0 0 1440 900))
    as [Hroot Hbuild].
  - right. right. left. reflexivity.
  - reflexivity.
  - reflexivity.
  - reflexivity.
  - split; [exact Hroot|].
    destruct firstRun as [[snapshot|e] w1] eqn:E1; [|vm_compute in E1; discriminate E1].
    exists snapshot. cbn [fst snd]. split; [reflexivity|].
    let fetched := eval vm_compute in
          (fetchFigmaVariablesAndStyles (host := demoHost) demoProject "file1" demoWorld) in
    match fetched with
    | (Ok (?file, ?variables), ?before) =>
        destruct (Hbuild demoProject
                    {| project_name := "Shop"; figmaFileKey := Some "file1";
                       figmaFrameId := Some "1:2" |} "file1" "1:2"
                    file variables before demoWorld snapshot w1)
          as (_ & Hrow & _ & Hframe & _ & _ & Hfirst)
    end.
    + reflexivity.
    + vm_compute. reflexivity.
    + reflexivity.
    + reflexivity.
    + vm_compute. reflexivity.
    + vm_compute. reflexivity.
    + exact E1.
    + split; [exact Hrow|]. split; [exact Hframe | exact Hfirst].
Defined.

(** Two builds in a row on the store without snapshot. *)
Lemma baseline_built_twice_witness :
  exists first second,
    fst firstRun = Ok first /\ fst secondRun = Ok second /\
    fst second = fst first /\
    baselineSnapshots (db (snd secondRun)) !! fst first = Some (snd second) /\
    snapshotsFor demoProject "1:2" (baselineSnapshots (db (snd secondRun)))
      = {[ fst first := snd second ]}.
Proof.
  destruct firstRun as [[first|e] w1] eqn:E1; [|vm_compute in E1; discriminate E1].
  unfold secondRun. rewrite E1. cbn [snd].
  destruct (createBaselineSnapshotForProject (host := demoHost) demoProject w1)
    as [[second|e] w2] eqn:E2.
  2:{ exfalso. assert (Hw1 : w1 = snd firstRun) by (rewrite E1; reflexivity).
      rewrite Hw1 in E2. vm_compute in E2. discriminate E2. }
  exists first, second. cbn [fst snd].
  destruct (baseline_built_twice (host := demoHost) demoProject
              {| project_name := "Shop"; figmaFileKey := Some "file1";
                 figmaFrameId := Some "1:2" |} "file1" "1:2"
              demoWorld w1 w2 first second)
    as (_ & Htable & _ & _ & _ & Hone).
  - reflexivity.
  - vm_compute. reflexivity.
  - reflexivity.
  - reflexivity.
  - exact E1.
  - exact E2.
  - destruct Hone as (Hid & _ & Hsingle).
    { intros i i' r r' Hi. change (baselineSnapshots (db demoWorld)) with
        (∅ : gmap string BaselineSnapshot) in Hi.
      rewrite lookup_empty in Hi. discriminate. }
    split; [reflexivity|]. split; [reflexivity|]. split; [exact Hid|].
    split; [|exact Hsingle].
    rewrite Htable, Hid. apply lookup_insert_eq.
Defined.

(** C3: the pair is not unique in the store.  A build raced by another
    request, whose snapshot for the same project and frame is committed
    between the lookup and the insertion, leaves two snapshots for the
    pair; two builds run one after the other on that store, undisturbed,
    still leave two. *)
Lemma raced_build_leaves_two :
  (exists raced, fst racedRun = Ok raced) /\
  ambient (snd racedRun) = [] /\
  size (snapshotsFor demoProject "1:2" (baselineSnapshots (db (snd racedRun)))) = 2%nat /\
  (exists third, fst thirdRun = Ok third) /\
  (exists fourth, fst fourthRun = Ok fourth) /\
  size (snapshotsFor demoProject "1:2" (baselineSnapshots (db (snd fourthRun)))) = 2%nat.
Proof.
  split; [eexists; vm_compute; reflexivity|].
  split; [vm_compute; reflexivity|].
  split; [vm_compute; reflexivity|].
  split; [eexists; vm_compute; reflexivity|].
  split; [eexists; vm_compute; reflexivity|].
  vm_compute. reflexivity.
Qed.

Lemma collectFrames_misses_nothing_witness :
  (length (collectFrames hero "Page 1" 0 []) < MAX_FRAMES)%nat /\
  In (summaryOf hero "Page 1" 0) (collectFrames hero "Page 1" 0 []).
Proof.
  assert (Hshort : (length (collectFrames hero "Page 1" 0 []) < MAX_FRAMES)%nat)
    by (vm_compute; lia).
  split; [exact Hshort|].
  destruct (collectFrames_misses_nothing hero "Page 1" Hshort) as [_ Hall].
  apply (Hall hero 0%nat).
  - constructor.
  - unfold MAX_TRAVERSAL_DEPTH. lia.
  - split; [reflexivity|]. eexists. split; [reflexivity|]. split; reflexivity.
Defined.

Lemma frame_summaries_well_formed_witness :
  In heroSummary (extractFramesFromDocument demoDocument) /\
  fs_name heroSummary <> "" /\ (1 <= fs_depth heroSummary)%nat /\
  exists pages page n,
    children demoDocument = Some pages /\ In page pages /\
    nodeAt page 1 n /\ node_id n = "1:2".
Proof.
  assert (Hin : In heroSummary (extractFramesFromDocument demoDocument))
    by (left; vm_compute; reflexivity).
  split; [exact Hin|].
  destruct (frame_summaries_well_formed demoDocument heroSummary Hin)
    as (Hname & _ & [Hdepth _] & pages & page & n & b & Hpages & Hpage & _ & Hat
        & _ & _ & _ & _ & Hid & _).
  split; [exact Hname|]. split; [exact Hdepth|].
  exists pages, page, n. split; [exact Hpages|].
  split; [exact Hpage|]. split; [exact Hat | symmetry; exact Hid].
Defined.


Lemma frames_are_components_witness :
  spreadsFit (host := demoHost) hero 0 = true /\
  In (summaryOf hero "Page 1" 0) (collectFrames hero "Page 1" 0 []) /\
  exists c, In c (extractComponentsFromNode (host := demoHost) hero 0) /\
            comp_id c = "1:2".
Proof.
  assert (Hfit : spreadsFit (host := demoHost) hero 0 = true)
    by (vm_compute; reflexivity).
  assert (Hin : In (summaryOf hero "Page 1" 0) (collectFrames hero "Page 1" 0 []))
    by (left; vm_compute; reflexivity).
  split; [exact Hfit|]. split; [exact Hin|].
  destruct (frames_are_components (host := demoHost) hero "Page 1" _ Hfit Hin)
    as (c & n & Hc & Hid & _).
  exists c. split; [exact Hc | exact Hid].
Defined.

(** On an engine whose calls take no argument, the entry of the button
    under the hero frame is lost; on the other it is listed. *)
Lemma overlong_child_is_dropped :
  nodeAt hero 1 button /\ componentLike button (mkBBox 0 0 120 40) /\
  In (componentOf button (mkBBox 0 0 120 40))
     (extractComponentsFromNode (host := demoHost) hero 0) /\
  extractComponentsFromNode (host := tightHost) hero 0 =
    [componentOf hero (mkBBox 0 0 1440 900)] /\
  spreadsFit (host := tightHost) hero 0 = false.
Proof.
  split; [econstructor; [reflexivity | now left | constructor]|].
  split; [split; [reflexivity | split; [reflexivity | split; reflexivity]]|].
  split; [right; left; vm_compute; reflexivity|].
  split; vm_compute; reflexivity.
Qed.

Lemma spacing_last_wins_witness :
  extractSpacingTokens [("VariableID:1:10", spacingLarge);
                        ("VariableID:1:12", spacingLargeAgain);
                        ("VariableID:1:11", iconSize)] !! "Spacing/Large" = Some 32%Q.
Proof.
  apply (spacing_last_wins [("VariableID:1:10", spacingLarge)]
           [("VariableID:1:11", iconSize)] "VariableID:1:12" spacingLargeAgain
           "Spacing/Large" 32%Q).
  - repeat split; reflexivity.
  - intros id' variable' value' [Heq|[]] (_ & Hname & _).
    injection Heq as <- <-. vm_compute in Hname. discriminate Hname.
Defined.

Lemma encrypt_envelope_shape_witness :
  exists ivHex authTagHex ciphertextHex,
    fst (encrypt (host := demoHost) (units "figu_secret") demoWorld) =
      Ok (ivHex ++ [58] ++ authTagHex ++ [58] ++ ciphertextHex) /\
    length ivHex = 32%nat /\ length authTagHex = 32%nat.
Proof.
  destruct (encrypt_envelope_shape (host := demoHost) (units "figu_secret")
              (Hex.decode demoKey) demoWorld)
    as (ivHex & authTagHex & ciphertextHex & Henc & _ & Hiv & Htag & _).
  - vm_compute. reflexivity.
  - apply checksumCipher_lawful.
  - exists ivHex, authTagHex, ciphertextHex. rewrite Henc. auto.
Defined.

Lemma decrypt_rejects_malformed_witness :
  decrypt (host := demoHost) (units "figu_old") =
  Throw (JsError ("Decryption failed: Invalid encrypted data format. " ++
                  "Expected: iv:authTag:ciphertext")).
Proof.
  destruct (decrypt_rejects_malformed (host := demoHost) (Hex.decode demoKey)
              (units "figu_old")) as [Hformat _].
  - vm_compute. reflexivity.
  - apply Hformat. vm_compute. discriminate.
Defined.

Lemma access_token_without_refresh_witness :
  getFigmaAccessToken (host := demoHost) wideProject demoWorld =
  (Ok (units "figu_wide"), demoWorld).
Proof.
  rewrite (access_token_without_refresh (host := demoHost) wideProject wideCredential
             demoWorld).
  - vm_compute. reflexivity.
  - reflexivity.
  - vm_compute. reflexivity.
  - vm_compute. discriminate.
Defined.

Lemma failed_refresh_writes_nothing_witness :
  exists e w',
    refreshAccessTokenIfNeeded (host := refusingHost) demoCredential demoWorld
      = (Throw e, w') /\
    db w' = demoDb /\
    e = FigmaApiError "Failed to refresh Figma access token" 400 "/api/oauth/token".
Proof.
  destruct (refreshAccessTokenIfNeeded (host := refusingHost) demoCredential demoWorld)
    as [[fresh|e] w'] eqn:Erun; [vm_compute in Erun; discriminate Erun|].
  exists e, w'. split; [reflexivity|].
  destruct (failed_refresh_writes_nothing (host := refusingHost) demoCredential
              demoWorld w' e eq_refl Erun) as (Hdb & _ & _ & Hstatus).
  split; [exact Hdb|].
  exact (Hstatus (mkHttpResponse 400 "Bad Request" None) eq_refl eq_refl eq_refl).
Defined.

Lemma refreshed_token_is_returned_witness :
  exists w' stored,
    getFigmaAccessToken (host := demoHost) demoProject demoWorld
      = (Ok (units "figu_new"), w') /\
    In stored (figmaCredentials (db w')) /\
    decrypt (host := demoHost) (accessToken stored) = Ok (units "figu_new").
Proof.
  destruct (getFigmaAccessToken (host := demoHost) demoProject demoWorld)
    as [[token|e] w'] eqn:Erun; [|vm_compute in Erun; discriminate Erun].
  destruct (refreshed_token_is_returned (host := demoHost) demoProject demoCredential
              demoWorld w' (Hex.decode demoKey) token)
    as (response & data & stored & iv1 & iv2 & Hreply & Hbody & _ & Hwf & Hin & _ & _ & _
        & Hdec & _).
  - reflexivity.
  - reflexivity.
  - vm_compute. reflexivity.
  - vm_compute. reflexivity.
  - apply checksumCipher_lawful.
  - exact Erun.
  - vm_compute in Hreply. injection Hreply as <-.
    vm_compute in Hbody. injection Hbody as <-.
    assert (Htoken : token = units "figu_new") by (apply Hwf; reflexivity).
    subst token. exists w', stored. auto.
Defined.

Lemma refresh_without_valid_key_witness :
  exists fresh w',
    refreshAccessTokenIfNeeded (host := plainHost) demoCredential demoWorld
      = (Ok fresh, w') /\
    accessToken fresh = units "figu_new" /\ refreshToken fresh = units "figur_new".
Proof.
  destruct (refreshAccessTokenIfNeeded (host := plainHost) demoCredential demoWorld)
    as [[fresh|e] w'] eqn:Erun; [|vm_compute in Erun; discriminate Erun].
  destruct (refresh_without_valid_key (host := plainHost) demoCredential fresh
              demoWorld w')
    as (response & data & _ & Hreply & Hbody & Hat & Hrt & _).
  - intros key. vm_compute. discriminate.
  - vm_compute. reflexivity.
  - exact Erun.
  - vm_compute in Hreply. injection Hreply as <-.
    vm_compute in Hbody. injection Hbody as <-.
    exists fresh, w'. auto.
Defined.

Lemma frames_route_forwards_figma_status_witness :
  fst (GET (host := refusingHost) (Some wideProject) demoWorld) =
  Ok (errorResponse 404 "Figma file not found. The file may have been deleted or moved."
        NoDetails false).
Proof.
  destruct (fetchFigmaFile (host := refusingHost) wideProject "wide" demoWorld)
    as [[file|[m|m s ep]] w'] eqn:Efetch; try (vm_compute in Efetch; discriminate Efetch).
  assert (Hs : s = 404) by (vm_compute in Efetch; congruence).
  subst s.
  destruct (frames_route_forwards_figma_status (host := refusingHost) wideProject
              {| project_name := "Wide"; figmaFileKey := Some "wide";
                 figmaFrameId := Some "2:0" |} demoWorld w' m ep 404)
    as [Hget _].
  - reflexivity.
  - reflexivity.
  - vm_compute. reflexivity.
  - reflexivity.
  - eexists. vm_compute. reflexivity.
  - exact Efetch.
  - rewrite (Hget eq_refl). reflexivity.
Defined.

(** A file endpoint that answers 304: no response can be built with that
    status, and the route answers 500. *)
Lemma not_modified_is_answered_500 :
  fst (GET (host := notModifiedHost) (Some wideProject) demoWorld) =
  Ok (errorResponse 500 "An unexpected error occurred"
        (DetailsText "Response constructor: Invalid response status code 304") false).
Proof. vm_compute. reflexivity. Qed.

Lemma frames_route_reads_only_witness :
  projects (db (snd (GET (host := demoHost) (Some demoProject) demoWorld)))
    = projects demoDb /\
  baselineSnapshots (db (snd (GET (host := demoHost) (Some demoProject) demoWorld)))
    = baselineSnapshots demoDb.
Proof.
  destruct (frames_route_reads_only (host := demoHost) (Some demoProject) demoWorld
              eq_refl) as (Hp & Hs & _).
  split; [exact Hp | exact Hs].
Defined.

Lemma failed_build_stores_nothing_witness :
  exists w',
    createBaselineSnapshotForProject (host := demoHost) "cjld2cjxh0009qzrmn831i7rn"
      demoWorld =
    (Throw (JsError "Project not found: cjld2cjxh0009qzrmn831i7rn"), w') /\
    baselineSnapshots (db w') = baselineSnapshots demoDb.
Proof.
  destruct (createBaselineSnapshotForProject (host := demoHost)
              "cjld2cjxh0009qzrmn831i7rn" demoWorld) as [r w'] eqn:Erun.
  assert (Hr : r = Throw (JsError "Project not found: cjld2cjxh0009qzrmn831i7rn"))
    by (vm_compute in Erun; congruence).
  subst r. exists w'. split; [reflexivity|].
  destruct (failed_build_stores_nothing (host := demoHost) _ demoWorld w' _ eq_refl Erun)
    as (Hs & _). exact Hs.
Defined.

Lemma built_snapshot_is_visible_witness :
  exists snapshot w',
    firstRun = (Ok snapshot, w') /\
    hasBaselineSnapshot demoProject w' = (Ok true, w').
Proof.
  destruct firstRun as [[snapshot|e] w'] eqn:Erun; [|vm_compute in Erun; discriminate Erun].
  exists snapshot, w'. split; [reflexivity|].
  destruct (built_snapshot_is_visible (host := demoHost) demoProject demoWorld w'
              snapshot eq_refl Erun) as (_ & Hhas & _).
  exact Hhas.
Defined.

Lemma PUT_selects_frame_witness :
  exists response job w',
    PUT (host := demoHost) everyoneIsMember selectButton demoWorld
      = (Ok (response, job), w') /\
    put_status response = 200 /\
    (exists stored, projects (db w') !! demoProject = Some stored /\
                    figmaFrameId stored = Some "1:3").
Proof.
  destruct (PUT_selects_frame (host := demoHost) everyoneIsMember selectButton
              (JObject [("figmaFrameId", JString "1:3"); ("createBaseline", JBool true)])
              demoWorld "1:3" true
              {| project_name := "Shop"; figmaFileKey := Some "file1";
                 figmaFrameId := Some "1:2" |})
    as (response & job & w' & Hput & Hstatus & _ & (stored & Hs & Hf & _) & _).
  - reflexivity.
  - reflexivity.
  - reflexivity.
  - reflexivity.
  - vm_compute. reflexivity.
  - discriminate.
  - reflexivity.
  - exists response, job, w'. split; [exact Hput|]. split; [exact Hstatus|]. eauto.
Defined.

Lemma background_build_witness :
  exists response w1 snapshot w2,
    PUT (host := demoHost) everyoneIsMember selectButton demoWorld =
      (Ok (response, Some (baselineInBackground (host := demoHost) demoProject)), w1) /\
    createBaselineSnapshotForProject (host := demoHost) demoProject w1
      = (Ok snapshot, w2) /\
    snap_figmaFrameId (snd snapshot) = Some "1:3".
Proof.
  destruct (background_build (host := demoHost) everyoneIsMember selectButton
              (JObject [("figmaFrameId", JString "1:3"); ("createBaseline", JBool true)])
              demoWorld "1:3"
              {| project_name := "Shop"; figmaFileKey := Some "file1";
                 figmaFrameId := Some "1:2" |})
    as (response & w1 & Hput & _ & _ & _ & Hok).
  - reflexivity.
  - reflexivity.
  - reflexivity.
  - reflexivity.
  - vm_compute. reflexivity.
  - discriminate.
  - reflexivity.
  - assert (Hw1 : w1 = snd (PUT (host := demoHost) everyoneIsMember selectButton demoWorld))
      by (rewrite Hput; reflexivity).
    destruct (createBaselineSnapshotForProject (host := demoHost) demoProject w1)
      as [[snapshot|e] w2] eqn:Ebuild.
    2:{ exfalso. rewrite Hw1 in Ebuild. vm_compute in Ebuild. discriminate Ebuild. }
    exists response, w1, snapshot, w2. split; [exact Hput|]. split; [exact Ebuild|].
    destruct (Hok snapshot w2 Ebuild) as (_ & _ & _ & Hframe). exact Hframe.
Defined.
